(** * The OpenClaw Railway wrapper: supervisor, router, importer, console

    A shallow embedding of the wrapper server of the template (one
    JavaScript server file) and the properties its specification states.

    Conventions of the embedding:
    - a JavaScript string is the [string] of the bytes of its UTF-8
      encoding (a string with a lone surrogate has none and is left out), so
      a character outside ASCII is two to four bytes, none of them below 128;
      an [Error] object is represented by its message, and [String(err)] is
      ["Error: " +:+ message]; the errors that [childProcess.spawn] throws
      are the [SpawnFault]s, with the text of Node's own errors;
    - the file system is a finite map from absolute paths to file contents;
      directories and failing file operations are not represented;
    - the module-level [let] variables of the server ([gatewayProc],
      [gatewayStarting], [lastGatewayError], ...) are fields of the record
      [World], threaded through every operation, together with a log of
      the child processes spawned and the signals sent;
    - an [async] function is cut at its [await] points: each synchronous
      stretch is a function on [World]; what the outside world answers at an
      [await] is an input (an event of the event loop, or an [Oracle] when
      a handler is followed from its first line to its response). *)

From stdpp Require Import gmap strings list fin_maps pretty.
From Stdlib Require Import ZArith Lia Ascii.

Open Scope string_scope.
Open Scope list_scope.

(** ** JavaScript string primitives used by the server *)

Module JsString.

(** the line feed of the template literals *)
Definition nl : string := String (ascii_of_nat 10) EmptyString.

(** [s.startsWith(pre)] *)
Definition startsWith (s pre : string) : bool := String.prefix pre s.

(** [s.split(sep)] for a one-character separator: the result is never
    empty, and [n] separators give [n + 1] pieces. *)
Fixpoint split (sep : ascii) (s : string) : list string :=
  match s with
  | EmptyString => [EmptyString]
  | String c rest =>
      if Ascii.eqb c sep then EmptyString :: split sep rest
      else match split sep rest with
           | h :: t => String c h :: t
           | [] => [String c EmptyString]
           end
  end.

(** [arr.includes(x)] on an array of strings *)
Definition includes (arr : list string) (x : string) : bool :=
  existsb (String.eqb x) arr.

(** the character class [[A-Za-z]] *)
Definition isAsciiLetter (c : ascii) : bool :=
  let n := N_of_ascii c in
  ((65 <=? n)%N && (n <=? 90)%N) || ((97 <=? n)%N && (n <=? 122)%N).

(** the character class [[0-9]] *)
Definition isDigit (c : ascii) : bool :=
  let n := N_of_ascii c in (48 <=? n)%N && (n <=? 57)%N.

(** the character class [[A-Za-z0-9_-]] *)
Definition isWordDashChar (c : ascii) : bool :=
  isAsciiLetter c || isDigit c || Ascii.eqb c "_" || Ascii.eqb c "-".

Fixpoint forallb_string (f : ascii -> bool) (s : string) : bool :=
  match s with
  | EmptyString => true
  | String c rest => f c && forallb_string f rest
  end.

(** [/^[A-Za-z0-9_-]+$/.test(s)] *)
Definition testWordDash (s : string) : bool :=
  match s with
  | EmptyString => false
  | _ => forallb_string isWordDashChar s
  end.

(** [s.replace(/[:.]/g, "-")] *)
Fixpoint replaceColonDot (s : string) : string :=
  match s with
  | EmptyString => EmptyString
  | String c rest =>
      String (if Ascii.eqb c ":" || Ascii.eqb c "." then "-"%char else c)
             (replaceColonDot rest)
  end.

(** The code points that [trim] and [Number.parseInt] take for white space
    (the classes WhiteSpace and LineTerminator of the language), by the
    length of their encoding. One byte: U+0009 to U+000D and U+0020. *)
Definition isSpace (c : ascii) : bool :=
  let n := N_of_ascii c in ((9 <=? n)%N && (n <=? 13)%N) || (n =? 32)%N.

(** two bytes: U+00A0 *)
Definition isSpace2 (c1 c2 : ascii) : bool :=
  (N_of_ascii c1 =? 194)%N && (N_of_ascii c2 =? 160)%N.

(** three bytes: U+1680; U+2000 to U+200A, U+2028, U+2029 and U+202F;
    U+205F; U+3000; U+FEFF *)
Definition isSpace3 (c1 c2 c3 : ascii) : bool :=
  let a := N_of_ascii c1 in
  let b := N_of_ascii c2 in
  let c := N_of_ascii c3 in
  ((a =? 225) && (b =? 154) && (c =? 128))%N
  || ((a =? 226) && (b =? 128)
      && (((128 <=? c) && (c <=? 138)) || (c =? 168) || (c =? 169)
          || (c =? 175)))%N
  || ((a =? 226) && (b =? 129) && (c =? 159))%N
  || ((a =? 227) && (b =? 128) && (c =? 128))%N
  || ((a =? 239) && (b =? 187) && (c =? 191))%N.

(** what follows one white space code point at the head of [s] *)
Definition dropSpace (s : string) : option string :=
  match s with
  | EmptyString => None
  | String c1 r1 =>
      if isSpace c1 then Some r1
      else
        match r1 with
        | EmptyString => None
        | String c2 r2 =>
            if isSpace2 c1 c2 then Some r2
            else
              match r2 with
              | EmptyString => None
              | String c3 r3 => if isSpace3 c1 c2 c3 then Some r3 else None
              end
        end
  end.

(** [s.trimStart()] *)
Fixpoint trimStart (s : string) : string :=
  match s with
  | EmptyString => EmptyString
  | String c1 r1 =>
      if isSpace c1 then trimStart r1
      else
        match r1 with
        | EmptyString => s
        | String c2 r2 =>
            if isSpace2 c1 c2 then trimStart r2
            else
              match r2 with
              | EmptyString => s
              | String c3 r3 =>
                  if isSpace3 c1 c2 c3 then trimStart r3 else s
              end
        end
  end.

(** the string holds white space only *)
Definition blank (s : string) : bool := String.eqb (trimStart s) EmptyString.

(** [s.trimEnd()]: the string is cut where what remains is white space *)
Fixpoint trimEnd (s : string) : string :=
  match s with
  | EmptyString => EmptyString
  | String c rest => if blank s then EmptyString else String c (trimEnd rest)
  end.

(** [s.trim()] *)
Definition trim (s : string) : string := trimEnd (trimStart s).

(** a byte that begins no white space *)
Definition plainLead (c : ascii) : Prop :=
  isSpace c = false
  /\ (forall c2, isSpace2 c c2 = false)
  /\ (forall c2 c3, isSpace3 c c2 c3 = false).

(** the value of a run of decimal digits, and what follows it *)
Fixpoint digitsValue (acc : Z) (s : string) : Z :=
  match s with
  | String c rest =>
      if isDigit c
      then digitsValue (10 * acc + Z.of_N (N_of_ascii c - 48))%Z rest
      else acc
  | EmptyString => acc
  end.

Definition startsWithDigit (s : string) : bool :=
  match s with
  | String c _ => isDigit c
  | EmptyString => false
  end.

(** [Number.parseInt(s, 10)]; [None] is [NaN] *)
Definition parseInt10 (s : string) : option Z :=
  match trimStart s with
  | String "-" rest =>
      if startsWithDigit rest then Some (- digitsValue 0 rest)%Z else None
  | String "+" rest =>
      if startsWithDigit rest then Some (digitsValue 0%Z rest) else None
  | t => if startsWithDigit t then Some (digitsValue 0%Z t) else None
  end.

(** no [/] occurs in the string *)
Definition noSlash (s : string) : bool :=
  forallb_string (fun c => negb (Ascii.eqb c "/")) s.

(** [String(err)] for an [Error] with message [msg] *)
Definition stringOfError (msg : string) : string := "Error: " +:+ msg.

(** the UTF-16 code units that the code point starting at byte [c] takes:
    none for a continuation byte, two for the first byte of a four-byte
    encoding, one otherwise *)
Definition codeUnits (c : ascii) : N :=
  let n := N_of_ascii c in
  if (128 <=? n)%N && (n <? 192)%N then 0%N
  else if (240 <=? n)%N then 2%N
  else 1%N.

(** [s.length], in UTF-16 code units *)
Fixpoint lengthN (s : string) : N :=
  match s with
  | EmptyString => 0%N
  | String c rest => (codeUnits c + lengthN rest)%N
  end.

End JsString.

(** ** The traversal-safety predicate of the importer *)

Module TarPath.
Import JsString.

(** [/^[A-Za-z]:[\\/]/.test(p)] *)
Definition testDriveLetter (p : string) : bool :=
  match p with
  | String c (String colon (String sep _)) =>
      isAsciiLetter c && Ascii.eqb colon ":"
      && (Ascii.eqb sep "\" || Ascii.eqb sep "/")
  | _ => false
  end.

Definition looksSafeTarPath (p : string) : bool :=
  if String.eqb p "" then false
  else if startsWith p "/" || startsWith p "\" then false
  else if testDriveLetter p then false
  else if includes (split "/" p) ".." then false
  else true.

(** The three conditions of the specification, stated on the text of the
    path, to be compared with [looksSafeTarPath]. *)

(** the path starts with a separator *)
Definition isAbsolute (p : string) : Prop :=
  exists rest, p = String "/" rest \/ p = String "\" rest.

(** [seg] is the first [/]-separated segment of [s] *)
Definition firstSegment (seg s : string) : Prop :=
  s = seg \/ exists rest, s = seg +:+ String "/" rest.

(** some [/]-separated segment of the path is [..] *)
Definition hasParentSegment (p : string) : Prop :=
  firstSegment ".." p
  \/ exists before after,
       p = before +:+ String "/" after /\ firstSegment ".." after.

(** a letter, a colon, then a separator *)
Definition hasDrivePrefix (p : string) : Prop :=
  exists c sep rest,
    p = String c (String ":" (String sep rest))
    /\ isAsciiLetter c = true
    /\ (sep = "/"%char \/ sep = "\"%char).

End TarPath.

(** ** Environment, file system and the server's global state *)

Module Sys.
Import JsString.

(** What the server reads once at boot from its environment. The two
    directories are absolute and normalised, so [path.resolve] leaves them
    as they are and [path.join(dir, name)] is [dir +:+ "/" +:+ name]. *)
Record Env := {
  STATE_DIR : string;
  WORKSPACE_DIR : string;
  (** [process.env.OPENCLAW_CONFIG_PATH?.trim()] *)
  OPENCLAW_CONFIG_PATH : option string;
  OPENCLAW_ENTRY : string;
  OPENCLAW_NODE : string;
  (** [String(INTERNAL_GATEWAY_PORT)] *)
  INTERNAL_GATEWAY_PORT : string;
  OPENCLAW_GATEWAY_TOKEN : string;
  GATEWAY_TARGET : string;
  (** [os.tmpdir()] *)
  tmpdir : string
}.

Definition pathJoin (dir name : string) : string := dir +:+ "/" +:+ name.

(** One entry of an archive: a regular file at a relative path. The
    archives followed here hold regular files only; what the archive
    library does for an entry of another type (a directory, a link) is not
    part of the model. *)
Record ArchiveEntry := {
  entryPath : string;
  payload : string
}.

(** An uploaded request body. Its bytes are known through the lengths of
    the chunks the request stream delivers and through what the archive
    library decodes them to: the entries in archive order, and whether the
    stream ends in a decoding error. *)
Record Upload := {
  chunks : list N;
  entries : list ArchiveEntry;
  malformed : bool
}.

(** The content of a file: text written by the server or coming from an
    archive entry, or the raw bytes of an upload. *)
Inductive FileData :=
| Utf8 (text : string)
| UploadedBytes (up : Upload).

(** [{ code, signal, at }] of the last exit of the gateway child *)
Record ExitInfo := {
  exitCode : option Z;
  exitSignal : option string;
  exitAt : string
}.

(** The start attempt behind [gatewayStarting]: absent ([null]), suspended
    at [await waitForGatewayReady(...)], or suspended in the [catch] block
    at [await runDoctorBestEffort()] with the error to rethrow. *)
Inductive Attempt :=
| NoAttempt
| Probing
| Diagnosing (err : string).

(** [{ code, output }], what [runCmd] resolves with *)
Record CmdResult := {
  code : Z;
  output : string
}.

Record World := {
  files : gmap string FileData;
  (** the handle of the gateway child: the index of its spawn *)
  gatewayProc : option nat;
  gatewayStarting : Attempt;
  lastGatewayError : option string;
  lastGatewayExit : option ExitInfo;
  (** the raw doctor output; the server stores it redacted and cut to
      50 000 characters *)
  lastDoctorOutput : option string;
  lastDoctorAt : option Z;
  (** argument vectors of the gateway children spawned, latest first *)
  gatewaySpawns : list (list string);
  (** handles that were sent SIGTERM, latest first *)
  signals : list nat;
  (** argument vectors that [runCmd] gave to [childProcess.spawn], latest
      first *)
  cliSpawns : list (list string)
}.

Definition set_files (v : gmap string FileData) (w : World) : World :=
  {| files := v; gatewayProc := gatewayProc w;
     gatewayStarting := gatewayStarting w;
     lastGatewayError := lastGatewayError w;
     lastGatewayExit := lastGatewayExit w;
     lastDoctorOutput := lastDoctorOutput w; lastDoctorAt := lastDoctorAt w;
     gatewaySpawns := gatewaySpawns w; signals := signals w;
     cliSpawns := cliSpawns w |}.

Definition set_gatewayProc (v : option nat) (w : World) : World :=
  {| files := files w; gatewayProc := v;
     gatewayStarting := gatewayStarting w;
     lastGatewayError := lastGatewayError w;
     lastGatewayExit := lastGatewayExit w;
     lastDoctorOutput := lastDoctorOutput w; lastDoctorAt := lastDoctorAt w;
     gatewaySpawns := gatewaySpawns w; signals := signals w;
     cliSpawns := cliSpawns w |}.

Definition set_gatewayStarting (v : Attempt) (w : World) : World :=
  {| files := files w; gatewayProc := gatewayProc w;
     gatewayStarting := v;
     lastGatewayError := lastGatewayError w;
     lastGatewayExit := lastGatewayExit w;
     lastDoctorOutput := lastDoctorOutput w; lastDoctorAt := lastDoctorAt w;
     gatewaySpawns := gatewaySpawns w; signals := signals w;
     cliSpawns := cliSpawns w |}.

Definition set_lastGatewayError (v : option string) (w : World) : World :=
  {| files := files w; gatewayProc := gatewayProc w;
     gatewayStarting := gatewayStarting w;
     lastGatewayError := v;
     lastGatewayExit := lastGatewayExit w;
     lastDoctorOutput := lastDoctorOutput w; lastDoctorAt := lastDoctorAt w;
     gatewaySpawns := gatewaySpawns w; signals := signals w;
     cliSpawns := cliSpawns w |}.

Definition set_lastGatewayExit (v : option ExitInfo) (w : World) : World :=
  {| files := files w; gatewayProc := gatewayProc w;
     gatewayStarting := gatewayStarting w;
     lastGatewayError := lastGatewayError w;
     lastGatewayExit := v;
     lastDoctorOutput := lastDoctorOutput w; lastDoctorAt := lastDoctorAt w;
     gatewaySpawns := gatewaySpawns w; signals := signals w;
     cliSpawns := cliSpawns w |}.

Definition set_lastDoctorOutput (v : option string) (w : World) : World :=
  {| files := files w; gatewayProc := gatewayProc w;
     gatewayStarting := gatewayStarting w;
     lastGatewayError := lastGatewayError w;
     lastGatewayExit := lastGatewayExit w;
     lastDoctorOutput := v; lastDoctorAt := lastDoctorAt w;
     gatewaySpawns := gatewaySpawns w; signals := signals w;
     cliSpawns := cliSpawns w |}.

Definition set_lastDoctorAt (v : option Z) (w : World) : World :=
  {| files := files w; gatewayProc := gatewayProc w;
     gatewayStarting := gatewayStarting w;
     lastGatewayError := lastGatewayError w;
     lastGatewayExit := lastGatewayExit w;
     lastDoctorOutput := lastDoctorOutput w; lastDoctorAt := v;
     gatewaySpawns := gatewaySpawns w; signals := signals w;
     cliSpawns := cliSpawns w |}.

Definition set_gatewaySpawns (v : list (list string)) (w : World) : World :=
  {| files := files w; gatewayProc := gatewayProc w;
     gatewayStarting := gatewayStarting w;
     lastGatewayError := lastGatewayError w;
     lastGatewayExit := lastGatewayExit w;
     lastDoctorOutput := lastDoctorOutput w; lastDoctorAt := lastDoctorAt w;
     gatewaySpawns := v; signals := signals w;
     cliSpawns := cliSpawns w |}.

Definition set_signals (v : list nat) (w : World) : World :=
  {| files := files w; gatewayProc := gatewayProc w;
     gatewayStarting := gatewayStarting w;
     lastGatewayError := lastGatewayError w;
     lastGatewayExit := lastGatewayExit w;
     lastDoctorOutput := lastDoctorOutput w; lastDoctorAt := lastDoctorAt w;
     gatewaySpawns := gatewaySpawns w; signals := v;
     cliSpawns := cliSpawns w |}.

Definition set_cliSpawns (v : list (list string)) (w : World) : World :=
  {| files := files w; gatewayProc := gatewayProc w;
     gatewayStarting := gatewayStarting w;
     lastGatewayError := lastGatewayError w;
     lastGatewayExit := lastGatewayExit w;
     lastDoctorOutput := lastDoctorOutput w; lastDoctorAt := lastDoctorAt w;
     gatewaySpawns := gatewaySpawns w; signals := signals w;
     cliSpawns := v |}.

(** [fs.existsSync(p)] *)
Definition existsSync (p : string) (w : World) : bool :=
  match files w !! p with
  | Some _ => true
  | None => false
  end.

(** [fs.writeFileSync(p, data)] *)
Definition writeFileSync (p : string) (data : FileData) (w : World) : World :=
  set_files (<[p := data]> (files w)) w.

(** [fs.copyFileSync(src, dest)] of an existing file; the destination is
    overwritten when it exists *)
Definition copyFileSync (src dest : string) (w : World) : World :=
  match files w !! src with
  | Some data => set_files (<[dest := data]> (files w)) w
  | None => w
  end.

(** [fs.rmSync(p, { force: true })] *)
Definition rmSync (p : string) (w : World) : World :=
  set_files (delete p (files w)) w.

(** [clawArgs(args)], as the full argument vector given to
    [childProcess.spawn(OPENCLAW_NODE, clawArgs(args))] *)
Definition clawArgs (env : Env) (args : list string) : list string :=
  OPENCLAW_NODE env :: OPENCLAW_ENTRY env :: args.

(** What the readiness probe observes: the clock when it starts, the clock
    at each test of its loop, and for each round and path whether [fetch]
    returned a response (rather than throwing). *)
Record ProbeEnv := {
  startedAt : Z;
  clockAt : nat -> Z;
  fetchAnswers : nat -> string -> bool
}.

(** The error that [childProcess.spawn] throws where it stands: its check
    of the arguments refuses one (a string with a NUL byte), or the system
    call fails with an error number that is not reported through the
    [error] event (E2BIG for an argument vector that is too long). *)
Inductive SpawnFault :=
| BadArgument (detail : string)
| SystemRefusal (errno : string).

(** [String(err)] of that error *)
Definition faultText (f : SpawnFault) : string :=
  match f with
  | BadArgument detail => "TypeError [ERR_INVALID_ARG_VALUE]: " +:+ detail
  | SystemRefusal errno => "Error: spawn " +:+ errno
  end.

(** When the [exit] event of a gateway child that a handler has sent
    SIGTERM arrives, relative to that handler. *)
Inductive SignalledExit :=
(** while the handler runs and before it starts the next child: within the
    750 ms it sleeps after the signal, or at a later [await] before the
    spawn *)
| ExitsBeforeStart (info : ExitInfo)
(** while the handler awaits the start attempt that follows the signal,
    the next child being spawned already *)
| ExitsDuringStart (info : ExitInfo)
(** not while the handler runs: after its response, or never *)
| ExitsLater.

(** What the outside world answers while one handler runs from its first
    line to its response: the clock, the outcome of the readiness probe,
    what becomes of each command given to [runCmd], and when a child that
    the handler signals exits. *)
Record Oracle := {
  (** [Date.now()] *)
  now : Z;
  (** [new Date().toISOString()] *)
  isoNow : string;
  (** what the readiness probe observes *)
  probe : ProbeEnv;
  (** the record [runCmd] resolves with, by argument vector, when
      [childProcess.spawn] returns a child *)
  cli : list string -> CmdResult;
  (** the error that [childProcess.spawn] throws for an argument vector,
      if it does; [runCmd] then rejects with it *)
  spawnThrows : list string -> option SpawnFault;
  (** when the child that the handler sends SIGTERM exits *)
  signalledExit : SignalledExit
}.

End Sys.

(** ** The configuration file *)

Module ConfigStore.
Import JsString Sys.

Definition resolveConfigCandidates (env : Env) : list string :=
  match OPENCLAW_CONFIG_PATH env with
  | Some explicit =>
      if String.eqb explicit ""
      then [pathJoin (STATE_DIR env) "openclaw.json"]
      else [explicit]
  | None => [pathJoin (STATE_DIR env) "openclaw.json"]
  end.

Definition configPath (env : Env) (w : World) : string :=
  match List.find (fun candidate => existsSync candidate w)
                  (resolveConfigCandidates env) with
  | Some candidate => candidate
  | None =>
      match resolveConfigCandidates env with
      | first :: _ => if String.eqb first ""
                      then pathJoin (STATE_DIR env) "openclaw.json"
                      else first
      | [] => pathJoin (STATE_DIR env) "openclaw.json"
      end
  end.

Definition isConfigured (env : Env) (w : World) : bool :=
  existsb (fun candidate => existsSync candidate w)
          (resolveConfigCandidates env).

(** the name of the backup taken at the clock reading [iso] *)
Definition backupPath (p iso : string) : string :=
  p +:+ ".bak-" +:+ replaceColonDot iso.

(** The file-system part of the raw configuration write: the backup of an
    existing file, then the overwrite. *)
Definition writeRaw (env : Env) (iso content : string) (w : World) : World :=
  let p := configPath env w in
  let w1 := if existsSync p w then copyFileSync p (backupPath p iso) w
            else w in
  writeFileSync p (Utf8 content) w1.

End ConfigStore.

(** ** [runCmd]: a child command and the promise of its result *)

Module RunCmd.
Import JsString Sys.

(** What a spawned child emits. A spawn that fails for want of the binary
    or of a resource (ENOENT, EACCES, EAGAIN, EMFILE, ENFILE) is reported
    through the [error] event of the handle that [childProcess.spawn]
    returns. *)
Inductive ProcEvent :=
| StdoutData (d : string)
| StderrData (d : string)
| ProcError (err : string)
| ProcClose (exit : option Z).

Inductive Promise (A : Type) :=
| Pending
| ResolvedWith (v : A)
| RejectedWith (err : string).
Arguments Pending {A}.
Arguments ResolvedWith {A} v.
Arguments RejectedWith {A} err.

(** the local [out] and the promise returned to the caller *)
Record Run := {
  out : string;
  promise : Promise CmdResult
}.

(** [resolve(v)]: only the first settlement counts *)
Definition resolve (v : CmdResult) (out' : string) (r : Run) : Run :=
  {| out := out';
     promise := match promise r with
                | Pending => ResolvedWith v
                | settled => settled
                end |}.

Definition onEvent (r : Run) (ev : ProcEvent) : Run :=
  match ev with
  | StdoutData d | StderrData d =>
      {| out := out r +:+ d; promise := promise r |}
  | ProcError err =>
      let out' := out r +:+ nl +:+ "[spawn error] " +:+ stringOfError err
                  +:+ nl in
      resolve {| code := 127; output := out' |} out' r
  | ProcClose exit =>
      resolve {| code := default 0%Z exit; output := out r |} (out r) r
  end.

(** What [childProcess.spawn(cmd, args, ...)] does: it throws where it
    stands, with the error of text [err] (an argument that holds a NUL
    byte, an argument vector too long for the system), or it returns a
    child, which emits its events in order. *)
Inductive Spawn :=
| SpawnThrows (err : string)
| Spawned (events : list ProcEvent).

Definition ChildBehaviour : Type := string -> list string -> Spawn.

(** [runCmd(cmd, args)]. The call of [childProcess.spawn] stands in the
    executor of the promise, outside any [try]: when it throws, the promise
    is rejected with what it throws. Otherwise the listeners are attached
    to the child, and the events reach them one by one. *)
Definition runCmd (os : ChildBehaviour) (cmd : string) (args : list string)
  : Run :=
  match os cmd args with
  | SpawnThrows err => {| out := ""; promise := RejectedWith err |}
  | Spawned events =>
      foldl onEvent {| out := ""; promise := Pending |} events
  end.

(** a NUL byte occurs in the string *)
Definition hasNul (s : string) : bool :=
  negb (forallb_string (fun c => negb (Ascii.eqb c Ascii.zero)) s).

(** the text the child wrote before it ended *)
Definition isData (ev : ProcEvent) : bool :=
  match ev with
  | StdoutData _ | StderrData _ => true
  | _ => false
  end.

Definition dataOf (ev : ProcEvent) : string :=
  match ev with
  | StdoutData d | StderrData d => d
  | _ => ""
  end.

Definition collected (events : list ProcEvent) : string :=
  foldl (fun acc ev => acc +:+ dataOf ev) "" events.

End RunCmd.

(** ** The process supervisor *)

Module Supervisor.
Import JsString Sys ConfigStore.

(** *** The readiness probe *)

Definition probePaths : list string := ["/openclaw"; "/"].

(** one pass over the paths: some [fetch] returned a response *)
Definition roundResponds (answers : string -> bool) : bool :=
  existsb answers probePaths.

(** The loop of [waitForGatewayReady], from round [i] on. Every round ends
    in [sleep(250)], so [fuel] rounds are enough once [fuel] exceeds the
    number of 250 ms steps in the deadline. *)
Fixpoint waitLoop (fuel : nat) (timeoutMs : Z) (pe : ProbeEnv) (i : nat)
  : option bool :=
  match fuel with
  | O => None
  | S fuel' =>
      if (clockAt pe i - startedAt pe <? timeoutMs)%Z
      then if roundResponds (fetchAnswers pe i) then Some true
           else waitLoop fuel' timeoutMs pe (S i)
      else Some false
  end.

Definition probeFuel (timeoutMs : Z) : nat := Z.to_nat (timeoutMs / 250) + 2.

(** the clock of the probe advances as [sleep(250)] promises *)
Definition clockAdvances (pe : ProbeEnv) : Prop :=
  (startedAt pe <= clockAt pe 0)%Z
  /\ forall i, (clockAt pe i + 250 <= clockAt pe (S i))%Z.

(** [waitForGatewayReady({ timeoutMs })]. The loop is given [probeFuel]
    rounds; under [clockAdvances] it decides before they are used up. *)
Definition waitForGatewayReady (timeoutMs : Z) (pe : ProbeEnv) : bool :=
  default false (waitLoop (probeFuel timeoutMs) timeoutMs pe 0).


(** *** Starting the child *)

Definition gatewayArgs (env : Env) : list string :=
  ["gateway"; "run"; "--bind"; "loopback"; "--port";
   INTERNAL_GATEWAY_PORT env; "--auth"; "token"; "--token";
   OPENCLAW_GATEWAY_TOKEN env].

(** [childProcess.spawn(OPENCLAW_NODE, clawArgs(args), ...)] for the
    gateway: the new handle is the number of children spawned before. The
    argument vector is made of fixed words, the port and the token, all
    settled at boot; the call is taken to return a child. *)
Definition spawnGateway (env : Env) (w : World) : World :=
  set_gatewayProc (Some (length (gatewaySpawns w)))
    (set_gatewaySpawns (clawArgs env (gatewayArgs env) :: gatewaySpawns w) w).

(** [startGateway()]; the first component is the error thrown, if any *)
Definition startGateway (env : Env) (w : World) : option string * World :=
  match gatewayProc w with
  | Some _ => (None, w)
  | None =>
      if negb (isConfigured env w)
      then (Some "Gateway cannot start: not configured", w)
      else (None, spawnGateway env w)
  end.

(** the [error] listener of the child *)
Definition onSpawnError (err : string) (w : World) : World :=
  set_gatewayProc None
    (set_lastGatewayError
       (Some ("[gateway] spawn error: " +:+ stringOfError err)) w).

(** the [exit] listener of the child *)
Definition onExit (exit : option Z) (signal : option string) (iso : string)
    (w : World) : World :=
  set_gatewayProc None
    (set_lastGatewayExit
       (Some {| exitCode := exit; exitSignal := signal; exitAt := iso |}) w).

(** *** Diagnostics after a failed start *)

(** [lastDoctorAt && now - lastDoctorAt < 5 * 60 * 1000] *)
Definition doctorRateLimited (now : Z) (w : World) : bool :=
  match lastDoctorAt w with
  | Some t => negb (t =? 0)%Z && (now - t <? 5 * 60 * 1000)%Z
  | None => false
  end.

Definition doctorArgs (env : Env) : list string := clawArgs env ["doctor"].

(** [runDoctorBestEffort()] up to [await runCmd(...)]: whether the doctor
    command was spawned *)
Definition runDoctor_begin (env : Env) (now : Z) (w : World) : bool * World :=
  if doctorRateLimited now w then (false, w)
  else (true, set_cliSpawns (doctorArgs env :: cliSpawns w)
                (set_lastDoctorAt (Some now) w)).

(** [runDoctorBestEffort()] after the doctor command resolved with [r] *)
Definition runDoctor_end (r : CmdResult) (w : World) : World :=
  set_lastDoctorOutput (Some (output r)) w.

(** the [catch] block of [runDoctorBestEffort()]: [runCmd] rejected with
    an error of text [text] *)
Definition runDoctor_failed (text : string) (w : World) : World :=
  set_lastDoctorOutput (Some ("doctor failed: " +:+ text)) w.

(** *** The start attempt behind [gatewayStarting] *)

Inductive Settled :=
| Fulfilled
| Rejected (err : string).

(** the attempt settles: [finally] clears [gatewayStarting] *)
Definition settle (st : Settled) (w : World) : option Settled * World :=
  (Some st, set_gatewayStarting NoAttempt w).

(** the [catch] block, up to its [await]; [None]: still pending *)
Definition attempt_catch (env : Env) (now : Z) (err : string) (w : World)
  : option Settled * World :=
  let w1 := set_lastGatewayError
              (Some ("[gateway] start failure: " +:+ stringOfError err)) w in
  match runDoctor_begin env now w1 with
  | (true, w2) => (None, set_gatewayStarting (Diagnosing err) w2)
  | (false, w2) => settle (Rejected err) w2
  end.

(** the [try] block, up to [await waitForGatewayReady(...)] *)
Definition attempt_begin (env : Env) (now : Z) (w : World)
  : option Settled * World :=
  let w1 := set_lastGatewayError None w in
  match startGateway env w1 with
  | (None, w2) => (None, set_gatewayStarting Probing w2)
  | (Some err, w2) => attempt_catch env now err w2
  end.

Definition notReadyError : string := "Gateway did not become ready in time".

(** [waitForGatewayReady] returned [ready] *)
Definition attempt_probed (env : Env) (now : Z) (ready : bool) (w : World)
  : option Settled * World :=
  if ready then settle Fulfilled w
  else attempt_catch env now notReadyError w.

(** the doctor command resolved with [r]: the error is rethrown *)
Definition attempt_diagnosed (err : string) (r : CmdResult) (w : World)
  : option Settled * World :=
  settle (Rejected err) (runDoctor_end r w).

(** the doctor command could not be spawned: the error of the attempt is
    rethrown all the same *)
Definition attempt_undiagnosed (err text : string) (w : World)
  : option Settled * World :=
  settle (Rejected err) (runDoctor_failed text w).

(** [runDoctorBestEffort()] from [await runCmd(...)] to its end, with the
    answers of the oracle *)
Definition doctorOver (env : Env) (o : Oracle) (w : World) : World :=
  match spawnThrows o (doctorArgs env) with
  | Some fault => runDoctor_failed (faultText fault) w
  | None => runDoctor_end (cli o (doctorArgs env)) w
  end.

(** *** [ensureGatewayRunning] *)

Record EnsureResult := {
  ok : bool;
  reason : option string
}.

Definition okTrue : EnsureResult := {| ok := true; reason := None |}.

Definition notConfigured : EnsureResult :=
  {| ok := false; reason := Some "not configured" |}.

(** How a call of [ensureGatewayRunning()] ends for its caller. *)
Inductive Outcome :=
| Resolved (r : EnsureResult)
| Thrown (err : string).

Definition outcomeOf (st : Settled) : Outcome :=
  match st with
  | Fulfilled => Resolved okTrue
  | Rejected err => Thrown err
  end.

(** Where the synchronous stretch of a call ends: at a [return], at
    [await gatewayStarting] with the attempt pending, or at that [await]
    with the attempt already rejected. *)
Inductive Entry :=
| Returned (r : EnsureResult)
| Awaiting
| Failed (err : string).

Definition ensure_enter (env : Env) (now : Z) (w : World) : Entry * World :=
  if negb (isConfigured env w) then (Returned notConfigured, w)
  else match gatewayProc w with
       | Some _ => (Returned okTrue, w)
       | None =>
           match gatewayStarting w with
           | NoAttempt =>
               match attempt_begin env now w with
               | (None, w') => (Awaiting, w')
               | (Some Fulfilled, w') => (Returned okTrue, w')
               | (Some (Rejected err), w') => (Failed err, w')
               end
           | _ => (Awaiting, w)
           end
       end.

(** [await gatewayStarting; return { ok: true }] with the answers of the
    oracle *)
Definition awaitAttempt (env : Env) (o : Oracle) (w : World)
  : Outcome * World :=
  let '(st, w1) :=
    match gatewayStarting w with
    | Probing =>
        attempt_probed env (now o) (waitForGatewayReady 20000 (probe o)) w
    | _ => (None, w)
    end in
  match st with
  | Some st => (outcomeOf st, w1)
  | None =>
      match gatewayStarting w1 with
      | Diagnosing err =>
          (Thrown err,
           match spawnThrows o (doctorArgs env) with
           | Some fault =>
               snd (attempt_undiagnosed err (faultText fault) w1)
           | None => snd (attempt_diagnosed err (cli o (doctorArgs env)) w1)
           end)
      | _ => (Resolved okTrue, w1)
      end
  end.

(** [ensureGatewayRunning()] awaited to its end by one handler *)
Definition ensureGatewayRunning (env : Env) (o : Oracle) (w : World)
  : Outcome * World :=
  match ensure_enter env (now o) w with
  | (Returned r, w') => (Resolved r, w')
  | (Failed err, w') => (Thrown err, w')
  | (Awaiting, w') => awaitAttempt env o w'
  end.

(** the world after a start attempt whose probe timed out *)
Definition afterTimeout (env : Env) (o : Oracle) (w : World) : World :=
  let w1 := set_lastGatewayError
              (Some ("[gateway] start failure: "
                     +:+ stringOfError notReadyError))
              (set_gatewayStarting Probing
                 (spawnGateway env (set_lastGatewayError None w))) in
  if doctorRateLimited (now o) w then set_gatewayStarting NoAttempt w1
  else set_gatewayStarting NoAttempt
         (doctorOver env o
            (set_gatewayStarting (Diagnosing notReadyError)
               (set_cliSpawns (doctorArgs env :: cliSpawns w)
                  (set_lastDoctorAt (Some (now o)) w1)))).

(** *** Stopping and restarting *)

(** the [exit] listener, for the exit recorded in [info] *)
Definition exitOf (info : ExitInfo) (w : World) : World :=
  onExit (exitCode info) (exitSignal info) (exitAt info) w.

Definition holdsChild (w : World) : bool :=
  match gatewayProc w with
  | Some _ => true
  | None => false
  end.

(** [if (gatewayProc) { kill("SIGTERM"); await sleep(750);
    gatewayProc = null; }], the stop used by restart, console and import.
    The [exit] listener of the child runs when the child has exited: here
    when that happens before the handler starts another child. *)
Definition killAndClear (o : Oracle) (w : World) : World :=
  match gatewayProc w with
  | Some h =>
      let w1 := set_signals (h :: signals w) w in
      set_gatewayProc None
        match signalledExit o with
        | ExitsBeforeStart info => exitOf info w1
        | _ => w1
        end
  | None => w
  end.

(** The [exit] listener of a child that the handler has signalled runs
    while the handler awaits the start attempt: the listener belongs to
    the old child, yet it clears [gatewayProc], which by then holds the
    handle of the new one. Nothing in the attempt reads [gatewayProc] after
    the spawn, so the listener is followed here at the end of the await. *)
Definition lateExit (o : Oracle) (signalled : bool) (w : World) : World :=
  if signalled
  then match signalledExit o with
       | ExitsDuringStart info => exitOf info w
       | _ => w
       end
  else w.

(** [restartGateway()]. On a configured server the call of
    [ensureGatewayRunning()] that ends it awaits a start attempt. *)
Definition restartGateway (env : Env) (o : Oracle) (w : World)
  : Outcome * World :=
  let '(out, w') := ensureGatewayRunning env o (killAndClear o w) in
  (out, if isConfigured env w then lateExit o (holdsChild w) w' else w').

(** *** Concurrent callers on the event loop *)

Inductive Event :=
| EvCall (caller : nat)
| EvProbe (ready : bool)
| EvDoctorDone (r : CmdResult)
| EvExit (exit : option Z) (signal : option string) (iso : string)
| EvSpawnError (err : string)
(** [runCmd] rejected in [runDoctorBestEffort()]: the spawn of the doctor
    command threw an error of text [text] *)
| EvDoctorFailed (text : string).

(** The server together with the calls of [ensureGatewayRunning()] that
    are suspended at [await gatewayStarting] and the calls that ended. *)
Record System := {
  world : World;
  waiters : list nat;
  outcomes : list (nat * Outcome)
}.

(** the attempt settled: every suspended call resumes with its outcome *)
Definition deliver (st : Settled) (w : World) (ws : list nat)
    (done : list (nat * Outcome)) : System :=
  {| world := w; waiters := [];
     outcomes := map (fun c => (c, outcomeOf st)) ws ++ done |}.

(** One turn of the event loop at clock reading [now]. *)
Definition step (env : Env) (now : Z) (ev : Event) (s : System) : System :=
  match ev with
  | EvCall c =>
      match ensure_enter env now (world s) with
      | (Returned r, w') =>
          {| world := w'; waiters := waiters s;
             outcomes := (c, Resolved r) :: outcomes s |}
      | (Awaiting, w') =>
          {| world := w'; waiters := c :: waiters s;
             outcomes := outcomes s |}
      | (Failed err, w') =>
          deliver (Rejected err) w' (c :: waiters s) (outcomes s)
      end
  | EvProbe ready =>
      match gatewayStarting (world s) with
      | Probing =>
          match attempt_probed env now ready (world s) with
          | (Some st, w') => deliver st w' (waiters s) (outcomes s)
          | (None, w') =>
              {| world := w'; waiters := waiters s; outcomes := outcomes s |}
          end
      | _ => s
      end
  | EvDoctorDone r =>
      match gatewayStarting (world s) with
      | Diagnosing err =>
          match attempt_diagnosed err r (world s) with
          | (Some st, w') => deliver st w' (waiters s) (outcomes s)
          | (None, w') =>
              {| world := w'; waiters := waiters s; outcomes := outcomes s |}
          end
      | _ => s
      end
  | EvExit exit signal iso =>
      {| world := onExit exit signal iso (world s);
         waiters := waiters s; outcomes := outcomes s |}
  | EvSpawnError err =>
      {| world := onSpawnError err (world s);
         waiters := waiters s; outcomes := outcomes s |}
  | EvDoctorFailed text =>
      match gatewayStarting (world s) with
      | Diagnosing err =>
          match attempt_undiagnosed err text (world s) with
          | (Some st, w') => deliver st w' (waiters s) (outcomes s)
          | (None, w') =>
              {| world := w'; waiters := waiters s; outcomes := outcomes s |}
          end
      | _ => s
      end
  end.

Definition run (env : Env) (trace : list (Z * Event)) (s : System) : System :=
  foldl (fun s te => step env (fst te) (snd te) s) s trace.

(** the calls of [callers], each at its clock reading *)
Definition callsOf (callers : list (Z * nat)) : list (Z * Event) :=
  map (fun tc => (fst tc, EvCall (snd tc))) callers.

Definition boot (w : World) : System :=
  {| world := w; waiters := []; outcomes := [] |}.

(** how the call of [caller] ended, if it did *)
Definition outcomeFor (caller : nat) (s : System) : option Outcome :=
  snd <$> List.find (fun co => Nat.eqb (fst co) caller) (outcomes s).

End Supervisor.

(** ** Responses of the HTTP handlers *)

Module Http.

Inductive Body :=
(** [{ ok: false, error }] *)
| JsonError (error : string)
(** [{ ok, output }] *)
| JsonOutput (okFlag : bool) (text : string)
(** [{ ok, output: redactSecrets(raw) }] *)
| JsonRedacted (okFlag : bool) (raw : string)
(** [{ ok: true, path }] *)
| JsonPath (path : string)
(** a [text/plain] body *)
| Plain (text : string)
(** [res.redirect(location)] *)
| Redirect (location : string).

Record Response := {
  status : nat;
  body : Body
}.

(** What becomes of a request that reached the catch-all middleware. *)
Inductive Reply :=
| Sent (r : Response)
| ProxiedWeb (target : string).

(** What becomes of the socket of an upgrade handshake. *)
Inductive SocketFate :=
| Destroyed
| ProxiedWs (target : string).

(** How an [async] handler that has no [try] of its own ends: it sends a
    response, or an error leaves it before anything was sent, and the
    promise of the handler is rejected with that error (of text [err]). *)
Inductive HandlerEnd :=
| Answered (r : Response)
| HandlerRejected (err : string).

(** What the client of a request gets: the response that the handler
    sends, or nothing, the socket of the request having been destroyed
    before the handler sends. *)
Inductive Delivery :=
| Received (r : Response)
| ConnectionDestroyed.

End Http.

(** ** The allowlisted debug console *)

Module Console.
Import JsString Sys ConfigStore Supervisor Http.

Definition ALLOWED_CONSOLE_COMMANDS : gset string :=
  list_to_set
    ["gateway.restart"; "gateway.stop"; "gateway.start";
     "openclaw.version"; "openclaw.status"; "openclaw.health";
     "openclaw.doctor"; "openclaw.logs.tail"; "openclaw.config.get";
     "openclaw.devices.list"; "openclaw.devices.approve";
     "openclaw.plugins.list"; "openclaw.plugins.enable"].

Definition reject (st : nat) (msg : string) (w : World) : Response * World :=
  ({| status := st; body := JsonError msg |}, w).

(** [const r = await runCmd(OPENCLAW_NODE, clawArgs(args))] followed by the
    response built from [r]; when [runCmd] rejects, the [catch] block of
    the handler answers with the text of the error *)
Definition runAndReport (env : Env) (o : Oracle) (args : list string)
    (w : World) : Response * World :=
  let w' := set_cliSpawns (clawArgs env args :: cliSpawns w) w in
  match spawnThrows o (clawArgs env args) with
  | Some fault =>
      ({| status := 500; body := JsonError (faultText fault) |}, w')
  | None =>
      let r := cli o (clawArgs env args) in
      let good := (code r =? 0)%Z in
      ({| status := if good then 200 else 500;
          body := JsonRedacted good (output r) |}, w')
  end.

(** [Math.max(50, Math.min(1000, Number.parseInt(arg || "200", 10) || 200))] *)
Definition tailLines (arg : string) : Z :=
  let parsed := parseInt10 (if String.eqb arg "" then "200" else arg) in
  let n := match parsed with
           | Some v => if (v =? 0)%Z then 200%Z else v
           | None => 200%Z
           end in
  Z.max 50 (Z.min 1000 n).

(** The handler of [POST /setup/api/console/run]; [cmd0] and [arg0] are
    [String(payload.cmd || "")] and [String(payload.arg || "")]. *)
Definition consoleRun (env : Env) (o : Oracle) (cmd0 arg0 : string)
    (w : World) : Response * World :=
  let cmd := trim cmd0 in
  let arg := trim arg0 in
  if negb (bool_decide (cmd ∈ ALLOWED_CONSOLE_COMMANDS))
  then reject 400 "Command not allowed" w
  else if String.eqb cmd "gateway.restart" then
    match restartGateway env o w with
    | (Resolved _, w') =>
        ({| status := 200;
            body := JsonOutput true
                      ("Gateway restarted (wrapper-managed)." +:+ nl) |}, w')
    | (Thrown err, w') => reject 500 (stringOfError err) w'
    end
  else if String.eqb cmd "gateway.stop" then
    ({| status := 200;
        body := JsonOutput true
                  ("Gateway stopped (wrapper-managed)." +:+ nl) |},
     killAndClear o w)
  else if String.eqb cmd "gateway.start" then
    match ensureGatewayRunning env o w with
    | (Resolved r, w') =>
        ({| status := 200;
            body := JsonOutput (ok r)
                      (if ok r then "Gateway started." +:+ nl
                       else "Gateway not started: "
                            +:+ default "undefined" (reason r) +:+ nl) |},
         w')
    | (Thrown err, w') => reject 500 (stringOfError err) w'
    end
  else if String.eqb cmd "openclaw.version" then
    runAndReport env o ["--version"] w
  else if String.eqb cmd "openclaw.status" then
    runAndReport env o ["status"] w
  else if String.eqb cmd "openclaw.health" then
    runAndReport env o ["health"] w
  else if String.eqb cmd "openclaw.doctor" then
    runAndReport env o ["doctor"] w
  else if String.eqb cmd "openclaw.logs.tail" then
    runAndReport env o ["logs"; "--tail"; pretty (tailLines arg)] w
  else if String.eqb cmd "openclaw.config.get" then
    if String.eqb arg "" then reject 400 "Missing config path" w
    else runAndReport env o ["config"; "get"; arg] w
  else if String.eqb cmd "openclaw.devices.list" then
    runAndReport env o ["devices"; "list"] w
  else if String.eqb cmd "openclaw.devices.approve" then
    let requestId := trim arg in
    if String.eqb requestId "" then reject 400 "Missing device request ID" w
    else if negb (testWordDash requestId)
    then reject 400 "Invalid device request ID" w
    else runAndReport env o ["devices"; "approve"; requestId] w
  else if String.eqb cmd "openclaw.plugins.list" then
    runAndReport env o ["plugins"; "list"] w
  else if String.eqb cmd "openclaw.plugins.enable" then
    let name := trim arg in
    if String.eqb name "" then reject 400 "Missing plugin name" w
    else if negb (testWordDash name) then reject 400 "Invalid plugin name" w
    else runAndReport env o ["plugins"; "enable"; name] w
  else reject 400 "Unhandled command" w.


(** the request started a child process *)
Definition spawnedSomething (w w' : World) : Prop :=
  cliSpawns w' <> cliSpawns w \/ gatewaySpawns w' <> gatewaySpawns w.

End Console.

(** ** The raw configuration editor *)

Module ConfigEditor.
Import JsString Sys ConfigStore Supervisor Http.

(** The handler of [POST /setup/api/config/raw]; [content] is
    [String((req.body && req.body.content) || "")]. *)
Definition postConfigRaw (env : Env) (o : Oracle) (content : string)
    (w : World) : Response * World :=
  if (500000 <? lengthN content)%N
  then ({| status := 413; body := JsonError "Config too large" |}, w)
  else
    let p := configPath env w in
    let w1 := writeRaw env (isoNow o) content w in
    if isConfigured env w1 then
      match restartGateway env o w1 with
      | (Resolved _, w2) => ({| status := 200; body := JsonPath p |}, w2)
      | (Thrown err, w2) =>
          ({| status := 500; body := JsonError (stringOfError err) |}, w2)
      end
    else ({| status := 200; body := JsonPath p |}, w1).

(** The shape of [new Date().toISOString()]: digits with the separators of
    [YYYY-MM-DDTHH:mm:ss.sssZ] at their places. *)
Inductive IsoSlot :=
| SlotDigit
| SlotChar (c : ascii).

Definition isoShape : list IsoSlot :=
  [SlotDigit; SlotDigit; SlotDigit; SlotDigit; SlotChar "-";
   SlotDigit; SlotDigit; SlotChar "-"; SlotDigit; SlotDigit; SlotChar "T";
   SlotDigit; SlotDigit; SlotChar ":"; SlotDigit; SlotDigit; SlotChar ":";
   SlotDigit; SlotDigit; SlotChar "."; SlotDigit; SlotDigit; SlotDigit;
   SlotChar "Z"].

Fixpoint hasShape (shape : list IsoSlot) (s : string) : bool :=
  match shape, s with
  | [], EmptyString => true
  | SlotDigit :: shape', String c rest => isDigit c && hasShape shape' rest
  | SlotChar k :: shape', String c rest =>
      Ascii.eqb c k && hasShape shape' rest
  | _, _ => false
  end.

Definition isIsoTimestamp (s : string) : bool := hasShape isoShape s.

End ConfigEditor.

(** ** The archive importer *)

Module Importer.
Import JsString Sys ConfigStore Supervisor Http TarPath.

Definition dataRoot : string := "/data".

(** [isUnderDir(p, root)] on resolved paths *)
Definition isUnderDir (p root : string) : bool :=
  String.eqb p root || startsWith p (root +:+ "/").

(** What [readBodyBuffer] settles with: the buffered chunks, or the error
    together with the number of chunks delivered before the request was
    destroyed. The listener that rejects calls [req.destroy()], which
    destroys the socket of the request: nothing written to the response
    afterwards reaches the client. *)
Inductive BodyRead :=
| BodyResolved (buffered : list N)
| BodyRejected (err : string) (delivered : nat).

(** the socket of the request is still there after the body was read *)
Definition socketOpen (r : BodyRead) : bool :=
  match r with
  | BodyResolved _ => true
  | BodyRejected _ _ => false
  end.

(** the [data] listener, chunk by chunk, then the [end] listener *)
Fixpoint readChunks (maxBytes total : N) (kept : list N) (delivered : nat)
    (rest : list N) : BodyRead :=
  match rest with
  | [] => BodyResolved (rev kept)
  | chunk :: rest' =>
      let total' := (total + chunk)%N in
      if (maxBytes <? total')%N
      then BodyRejected "payload too large" (S delivered)
      else readChunks maxBytes total' (chunk :: kept) (S delivered) rest'
  end.

Definition readBodyBuffer (body : list N) (maxBytes : N) : BodyRead :=
  readChunks maxBytes 0 [] 0 body.

Definition totalBytes (body : list N) : N := foldr N.add 0%N body.

(** the import ceiling: [250 * 1024 * 1024] *)
Definition importCeiling : N := 250 * 1024 * 1024.

(** The archive library unpacking one entry under [cwd]: [filter] decides
    whether the entry is unpacked or skipped. *)
Definition unpackEntry (cwd : string) (filter : string -> bool)
    (w : World) (e : ArchiveEntry) : World :=
  if filter (entryPath e)
  then writeFileSync (pathJoin cwd (entryPath e)) (Utf8 (payload e)) w
  else w.

(** [tar.x({ file, cwd, gzip, strict, onwarn, filter })]: the entries of the
    archive stored at [file] are unpacked in order; a skipped entry raises
    no warning, a decoding error rejects after the entries before it. The
    first component is the error of the rejection, if any. *)
Definition tarExtract (file cwd : string) (filter : string -> bool)
    (w : World) : option string * World :=
  match files w !! file with
  | Some (UploadedBytes up) =>
      (if malformed up then Some "TAR_BAD_ARCHIVE: Unrecognized archive format"
       else None,
       foldl (unpackEntry cwd filter) w (entries up))
  | Some (Utf8 _) => (Some "TAR_BAD_ARCHIVE: Unrecognized archive format", w)
  | None => (Some "ENOENT: no such file or directory", w)
  end.

Definition importTmpPath (env : Env) (o : Oracle) : string :=
  pathJoin (tmpdir env)
           ("openclaw-import-" +:+ pretty (now o) +:+ ".tar.gz").

Definition plain (st : nat) (text : string) : Response :=
  {| status := st; body := Plain text |}.

(** The handler of [POST /setup/import] for the request body [up]: what it
    hands to [res.send], and the server afterwards. The child that the
    handler signals at its start may exit while the handler awaits the
    restart at its end. *)
Definition importBackup (env : Env) (o : Oracle) (up : Upload) (w : World)
  : Response * World :=
  if negb (isUnderDir (STATE_DIR env) dataRoot)
     || negb (isUnderDir (WORKSPACE_DIR env) dataRoot)
  then (plain 400
          ("Import is only supported when OPENCLAW_STATE_DIR and "
           +:+ "OPENCLAW_WORKSPACE_DIR are under /data (Railway volume)."
           +:+ nl), w)
  else
    let w1 := killAndClear o w in
    match readBodyBuffer (chunks up) importCeiling with
    | BodyRejected err _ => (plain 500 (stringOfError err), w1)
    | BodyResolved buffered =>
        if (totalBytes buffered =? 0)%N
        then (plain 400 ("Empty body" +:+ nl), w1)
        else
          let tmpPath := importTmpPath env o in
          let w2 := writeFileSync tmpPath (UploadedBytes up) w1 in
          match tarExtract tmpPath dataRoot looksSafeTarPath w2 with
          | (Some err, w3) => (plain 500 (stringOfError err), w3)
          | (None, w3) =>
              let w4 := rmSync tmpPath w3 in
              if isConfigured env w4 then
                match restartGateway env o w4 with
                | (Resolved _, w5) =>
                    (plain 200
                       ("OK - imported backup into /data and restarted "
                        +:+ "gateway." +:+ nl),
                     lateExit o (holdsChild w) w5)
                | (Thrown err, w5) =>
                    (plain 500 (stringOfError err),
                     lateExit o (holdsChild w) w5)
                end
              else
                (plain 200
                   ("OK - imported backup into /data and restarted "
                    +:+ "gateway." +:+ nl), w4)
          end
    end.

(** What the client of [POST /setup/import] gets: the response of the
    handler, unless [readBodyBuffer] destroyed the request. *)
Definition importDelivery (env : Env) (o : Oracle) (up : Upload) (w : World)
  : Delivery :=
  if negb (isUnderDir (STATE_DIR env) dataRoot)
     || negb (isUnderDir (WORKSPACE_DIR env) dataRoot)
  then Received (fst (importBackup env o up w))
  else if socketOpen (readBodyBuffer (chunks up) importCeiling)
  then Received (fst (importBackup env o up w))
  else ConnectionDestroyed.

(** the world in which the archive is unpacked *)
Definition stagedWorld (env : Env) (o : Oracle) (up : Upload) (w : World)
  : World :=
  writeFileSync (importTmpPath env o) (UploadedBytes up) (killAndClear o w).

Definition unpackedWorld (env : Env) (o : Oracle) (up : Upload) (w : World)
  : World :=
  foldl (unpackEntry dataRoot looksSafeTarPath) (stagedWorld env o up w)
        (entries up).

(** the entry [e] is unpacked by the import: its path passes the predicate *)
Definition unpacked (e : ArchiveEntry) : Prop :=
  looksSafeTarPath (entryPath e) = true.

End Importer.

(** ** The reverse-proxy router *)

Module Router.
Import JsString Sys ConfigStore Supervisor Http.

(** the lines of the 503 hint, joined by line feeds *)
Definition notReadyHint (err : string) (w : World) : string :=
  "Gateway not ready." +:+ nl
  +:+ stringOfError err +:+ nl
  +:+ match lastGatewayError w with
      | Some e => if String.eqb e "" then "" else nl +:+ e
      | None => ""
      end +:+ nl
  +:+ nl +:+ "Troubleshooting:" +:+ nl
  +:+ "- Visit /setup and check the Debug Console" +:+ nl
  +:+ "- Visit /setup/api/debug for config + gateway diagnostics".

(** The catch-all middleware, for a request with path [reqPath] that no
    route registered before it has answered. *)
Definition catchAll (env : Env) (o : Oracle) (reqPath : string) (w : World)
  : Reply * World :=
  if negb (isConfigured env w) && negb (startsWith reqPath "/setup")
  then (Sent {| status := 302; body := Redirect "/setup" |}, w)
  else if isConfigured env w then
    match ensureGatewayRunning env o w with
    | (Thrown err, w') =>
        (Sent {| status := 503; body := Plain (notReadyHint err w') |}, w')
    | (Resolved _, w') => (ProxiedWeb (GATEWAY_TARGET env), w')
    end
  else (ProxiedWeb (GATEWAY_TARGET env), w).

(** The [upgrade] listener of the server. *)
Definition onUpgrade (env : Env) (o : Oracle) (w : World)
  : SocketFate * World :=
  if negb (isConfigured env w) then (Destroyed, w)
  else match ensureGatewayRunning env o w with
       | (Thrown _, w') => (Destroyed, w')
       | (Resolved _, w') => (ProxiedWs (GATEWAY_TARGET env), w')
       end.

End Router.

(** ** Boot: environment names, gateway token, legacy configuration file *)

Module Boot.
Import JsString Sys ConfigStore.

(** a JavaScript string used as a condition: present and not empty *)
Definition truthy (v : option string) : bool :=
  match v with
  | Some s => negb (String.eqb s "")
  | None => false
  end.

Definition migratedSuffixes : list string :=
  ["PUBLIC_PORT"; "STATE_DIR"; "WORKSPACE_DIR"; "GATEWAY_TOKEN";
   "CONFIG_PATH"].

Definition oldKey (suffix : string) : string := "CLAWDBOT_" +:+ suffix.
Definition newKey (suffix : string) : string := "OPENCLAW_" +:+ suffix.

(** one turn of the loop over the deprecated names, on [process.env] *)
Definition migrateOne (penv : gmap string string) (suffix : string)
  : gmap string string :=
  match penv !! oldKey suffix with
  | Some old =>
      if negb (String.eqb old "") && negb (truthy (penv !! newKey suffix))
      then <[newKey suffix := old]> penv
      else penv
  | None => penv
  end.

(** the loop that copies [CLAWDBOT_*] to [OPENCLAW_*] *)
Definition migrateEnvNames (penv : gmap string string) : gmap string string :=
  foldl migrateOne penv migratedSuffixes.

(** the value of the new name after the loop, read off the old environment *)
Definition migratedValue (penv : gmap string string) (suffix : string)
  : option string :=
  if truthy (penv !! newKey suffix) then penv !! newKey suffix
  else if truthy (penv !! oldKey suffix) then penv !! oldKey suffix
  else penv !! newKey suffix.

(** [fs.renameSync(src, dest)] of an existing file *)
Definition renameSync (src dest : string) (w : World) : World :=
  match files w !! src with
  | Some data => set_files (<[dest := data]> (delete src (files w))) w
  | None => w
  end.

Definition canonicalConfig (env : Env) : string :=
  pathJoin (STATE_DIR env) "openclaw.json".

(** the loop over the legacy names: the first one that exists is renamed *)
Fixpoint renameFirstLegacy (env : Env) (legacy : list string) (w : World)
  : World :=
  match legacy with
  | [] => w
  | name :: rest =>
      let legacyPath := pathJoin (STATE_DIR env) name in
      if existsSync legacyPath w
      then renameSync legacyPath (canonicalConfig env) w
      else renameFirstLegacy env rest w
  end.

Definition legacyNames : list string := ["clawdbot.json"; "moltbot.json"].

(** [migrateLegacyConfigFile()], run once at boot *)
Definition migrateLegacyConfigFile (env : Env) (w : World) : World :=
  if truthy (OPENCLAW_CONFIG_PATH env) then w
  else if existsSync (canonicalConfig env) w then w
  else renameFirstLegacy env legacyNames w.

(** the characters of [randomBytes(32).toString("hex")] *)
Definition isHexDigit (c : ascii) : bool :=
  let n := N_of_ascii c in
  isDigit c || ((97 <=? n)%N && (n <=? 102)%N).

Definition isHexToken (s : string) : bool :=
  negb (String.eqb s "") && forallb_string isHexDigit s.

Section TokenFile.

(** [fs.readFileSync(path, "utf8")] of the bytes of an upload: the model
    does not know these bytes, so their text is a parameter *)
Variable textOfUpload : Upload -> string.

Definition readUtf8 (data : FileData) : string :=
  match data with
  | Utf8 text => text
  | UploadedBytes up => textOfUpload up
  end.

(** [resolveGatewayToken()]: [envTok] is
    [process.env.OPENCLAW_GATEWAY_TOKEN?.trim()] and [generated] is what
    [crypto.randomBytes(32).toString("hex")] returns if it is asked *)
Definition resolveGatewayToken (env : Env) (envTok : option string)
    (generated : string) (w : World) : string * World :=
  match envTok with
  | Some tok =>
      if negb (String.eqb tok "") then (tok, w)
      else
        let tokenPath := pathJoin (STATE_DIR env) "gateway.token" in
        match files w !! tokenPath with
        | Some data =>
            let existing := trim (readUtf8 data) in
            if negb (String.eqb existing "") then (existing, w)
            else (generated, writeFileSync tokenPath (Utf8 generated) w)
        | None => (generated, writeFileSync tokenPath (Utf8 generated) w)
        end
  | None =>
      let tokenPath := pathJoin (STATE_DIR env) "gateway.token" in
      match files w !! tokenPath with
      | Some data =>
          let existing := trim (readUtf8 data) in
          if negb (String.eqb existing "") then (existing, w)
          else (generated, writeFileSync tokenPath (Utf8 generated) w)
      | None => (generated, writeFileSync tokenPath (Utf8 generated) w)
      end
  end.

End TokenFile.

End Boot.

(** ** The password check of the setup routes *)

Module SetupAuth.
Import JsString Sys Boot.

(** What the middleware does with a request. *)
Inductive AuthResult :=
(** [next()] *)
| AuthNext
(** a response; [challenge] tells whether [WWW-Authenticate] was set *)
| AuthRespond (status : nat) (text : string) (challenge : bool).

(** [decoded.indexOf(":")] followed by [decoded.slice(idx + 1)]: what
    follows the first colon, if there is one *)
Fixpoint afterFirstColon (s : string) : option string :=
  match s with
  | EmptyString => None
  | String c rest =>
      if Ascii.eqb c ":" then Some rest else afterFirstColon rest
  end.

Section Base64.

(** [Buffer.from(encoded, "base64").toString("utf8")] *)
Variable decodeBase64 : string -> string.

(** [requireSetupAuth]: [setupPassword] is
    [process.env.SETUP_PASSWORD?.trim()] and [authorization] the header of
    the request *)
Definition requireSetupAuth (setupPassword authorization : option string)
  : AuthResult :=
  match setupPassword with
  | None =>
      AuthRespond 500
        ("SETUP_PASSWORD is not set. Set it in Railway Variables before "
         +:+ "using /setup.") false
  | Some expected =>
      if String.eqb expected "" then
        AuthRespond 500
          ("SETUP_PASSWORD is not set. Set it in Railway Variables before "
           +:+ "using /setup.") false
      else
        let header := match authorization with
                      | Some h => h
                      | None => EmptyString
                      end in
        let pieces := split " " header in
        let scheme := nth_error pieces 0 in
        let encoded := nth_error pieces 1 in
        if negb (truthy encoded)
           || negb (String.eqb (default EmptyString scheme) "Basic")
        then AuthRespond 401 "Auth required" true
        else
          let decoded := decodeBase64 (default EmptyString encoded) in
          let password := default EmptyString (afterFirstColon decoded) in
          if String.eqb password expected then AuthNext
          else AuthRespond 401 "Invalid password" true
  end.

End Base64.

(** no colon occurs in the string *)
Definition noColon (s : string) : bool :=
  forallb_string (fun c => negb (Ascii.eqb c ":")) s.

(** no space occurs in the string *)
Definition noSpace (s : string) : bool :=
  forallb_string (fun c => negb (Ascii.eqb c " ")) s.

End SetupAuth.

(** ** The arguments of the onboarding command *)

Module Onboard.
Import JsString Sys Boot.

(** A field of the request body, which [express.json()] has parsed: any
    JSON value, or none. A value that is no string is known by what
    [buildOnboardArgs] can observe of it. *)
Inductive Field :=
(** the body has no such field: [undefined] *)
| Absent
(** a JSON string *)
| Text (s : string)
(** [null], a boolean, a number, an array or an object: whether it is
    truthy, and the string it converts to as a property key or in a
    template literal; [None] when that conversion throws, as it does for
    an object with a field [toString] *)
| NonText (isTruthy : bool) (asKey : option string).

(** the fields of the request body that [buildOnboardArgs] reads *)
Record OnboardPayload := {
  flow : Field;
  authChoice : Field;
  authSecret : Field
}.

(** the value as a condition *)
Definition truthyField (f : Field) : bool :=
  match f with
  | Absent => false
  | Text s => negb (String.eqb s "")
  | NonText t _ => t
  end.

(** the value as a property key, and as [${...}] in a template literal *)
Definition keyOf (f : Field) : option string :=
  match f with
  | Absent => Some "undefined"
  | Text s => Some s
  | NonText _ k => k
  end.

(** [(payload.authSecret || "").trim()]: a truthy value that is no string
    has no method [trim], and the call throws a [TypeError] *)
Definition secretOf (f : Field) : option string :=
  match f with
  | Absent => Some EmptyString
  | Text s => Some (trim s)
  | NonText true _ => None
  | NonText false _ => Some EmptyString
  end.

(** An element of the argument array: a string, a value of the body that
    was pushed as it is, or the value that [map] inherits from
    [Object.prototype] under the name of the auth choice. *)
Inductive Arg :=
| Word (s : string)
| Pushed (f : Field)
| Inherited.

Definition words (l : list string) : list Arg := map Word l.

(** a field of the body as an element of the array *)
Definition argOf (f : Field) : Arg :=
  match f with
  | Text s => Word s
  | other => Pushed other
  end.

(** the object literal [map]: auth choice to flag *)
Definition secretFlags : list (string * string) :=
  [("openai-api-key", "--openai-api-key");
   ("apiKey", "--anthropic-api-key");
   ("openrouter-api-key", "--openrouter-api-key");
   ("ai-gateway-api-key", "--ai-gateway-api-key");
   ("moonshot-api-key", "--moonshot-api-key");
   ("kimi-code-api-key", "--kimi-code-api-key");
   ("gemini-api-key", "--gemini-api-key");
   ("zai-api-key", "--zai-api-key");
   ("minimax-api", "--minimax-api-key");
   ("minimax-api-lightning", "--minimax-api-key");
   ("synthetic-api-key", "--synthetic-api-key");
   ("opencode-zen", "--opencode-zen-api-key")].

(** the names every object literal inherits from [Object.prototype]; a
    lookup of one of them gives a function or an object, not a string *)
Definition objectPrototypeNames : list string :=
  ["constructor"; "__defineGetter__"; "__defineSetter__"; "hasOwnProperty";
   "__lookupGetter__"; "__lookupSetter__"; "isPrototypeOf";
   "propertyIsEnumerable"; "toString"; "valueOf"; "__proto__";
   "toLocaleString"].

Inductive FlagLookup :=
| OwnFlag (flag : string)
| InheritedValue
| NoFlag.

Fixpoint assoc (key : string) (table : list (string * string))
  : option string :=
  match table with
  | [] => None
  | (k, v) :: rest => if String.eqb k key then Some v else assoc key rest
  end.

(** [map[payload.authChoice]] *)
Definition lookupFlag (choice : string) : FlagLookup :=
  match assoc choice secretFlags with
  | Some flag => OwnFlag flag
  | None =>
      if existsb (String.eqb choice) objectPrototypeNames
      then InheritedValue
      else NoFlag
  end.

(** What [buildOnboardArgs] produces: the array of arguments, the [Error]
    it throws, with its message, or a [TypeError] of the engine. *)
Inductive Built :=
| Args (args : list Arg)
| Throws (msg : string)
| ThrowsTypeError.

Definition baseArgs (env : Env) (p : OnboardPayload) : list Arg :=
  words
    ["onboard"; "--non-interactive"; "--accept-risk"; "--json";
     "--no-install-daemon"; "--skip-health"; "--workspace"; WORKSPACE_DIR env;
     "--gateway-bind"; "loopback"; "--gateway-port";
     INTERNAL_GATEWAY_PORT env; "--gateway-auth"; "token";
     "--gateway-token"; OPENCLAW_GATEWAY_TOKEN env; "--flow"]
  ++ [if truthyField (flow p) then argOf (flow p) else Word "quickstart"].

(** [payload.authChoice === "token"] *)
Definition isTokenChoice (f : Field) : bool :=
  match f with
  | Text s => String.eqb s "token"
  | _ => false
  end.

(** the branch for the Anthropic setup-token, after the flag was handled *)
Definition tokenBranch (choice : Field) (secret : string) (args : list Arg)
  : Built :=
  if isTokenChoice choice then
    if String.eqb secret "" then
      Throws "Missing auth secret for authChoice=token"
    else Args (args ++ words ["--token-provider"; "anthropic"; "--token";
                              secret])
  else Args args.

Definition buildOnboardArgs (env : Env) (p : OnboardPayload) : Built :=
  let args := baseArgs env p in
  if truthyField (authChoice p) then
    let args := args ++ [Word "--auth-choice"; argOf (authChoice p)] in
    match secretOf (authSecret p) with
    | None => ThrowsTypeError
    | Some secret =>
        match keyOf (authChoice p) with
        | None => ThrowsTypeError
        | Some key =>
            match lookupFlag key with
            | OwnFlag flag =>
                if String.eqb secret ""
                then Throws ("Missing auth secret for authChoice=" +:+ key)
                else tokenBranch (authChoice p) secret
                       (args ++ [Word flag; Word secret])
            | InheritedValue =>
                if String.eqb secret ""
                then Throws ("Missing auth secret for authChoice=" +:+ key)
                else tokenBranch (authChoice p) secret
                       (args ++ [Inherited; Word secret])
            | NoFlag => tokenBranch (authChoice p) secret args
            end
        end
    end
  else Args args.

(** the auth choice needs a secret: the key it converts to has a flag of
    its own or names an inherited property, or the choice is the string
    of the setup-token *)
Definition needsSecret (choice : Field) (key : string) : bool :=
  match lookupFlag key with
  | NoFlag => isTokenChoice choice
  | _ => true
  end.

End Onboard.

(** ** The other administrative routes *)

Module AdminApi.
Import JsString Sys ConfigStore Supervisor Http Console Boot.

(** [{ ok: true, path, exists, content }], the body of the answer of
    [GET /setup/api/config/raw] *)
Record RawConfig := {
  rawPath : string;
  rawExists : bool;
  rawContent : string
}.

(** The handler of [GET /setup/api/config/raw]; [textOfUpload] gives the
    text of a file that holds the bytes of an upload. *)
Definition getConfigRaw (textOfUpload : Upload -> string) (env : Env)
    (w : World) : RawConfig :=
  let p := configPath env w in
  match files w !! p with
  | Some data =>
      {| rawPath := p; rawExists := true;
         rawContent := readUtf8 textOfUpload data |}
  | None => {| rawPath := p; rawExists := false; rawContent := EmptyString |}
  end.

(** The handler of [POST /setup/api/reset]. *)
Definition postReset (env : Env) (w : World) : Response * World :=
  ({| status := 200;
      body := Plain "OK - deleted config file(s). You can rerun setup now." |},
   foldl (fun w p => rmSync p w) w (resolveConfigCandidates env)).

(** The handler of [POST /setup/api/devices/approve]; [requestId0] is
    [String((req.body && req.body.requestId) || "")]. The handler awaits
    [runCmd] outside any [try]: when [runCmd] rejects, so does the
    handler. *)
Definition postDevicesApprove (env : Env) (o : Oracle) (requestId0 : string)
    (w : World) : HandlerEnd * World :=
  let requestId := trim requestId0 in
  if String.eqb requestId ""
  then (Answered {| status := 400;
                    body := JsonError "Missing device request ID" |}, w)
  else if negb (testWordDash requestId)
  then (Answered {| status := 400;
                    body := JsonError "Invalid device request ID" |}, w)
  else
    let argv := clawArgs env ["devices"; "approve"; requestId] in
    let w' := set_cliSpawns (argv :: cliSpawns w) w in
    match spawnThrows o argv with
    | Some fault => (HandlerRejected (faultText fault), w')
    | None =>
        let r := cli o argv in
        let good := (code r =? 0)%Z in
        (Answered {| status := if good then 200 else 500;
                     body := JsonRedacted good (output r) |}, w')
    end.

(** the listener of [app.listen]: the gateway is started at boot when a
    configuration exists; a failure is logged and nothing more *)
Definition onListening (env : Env) (o : Oracle) (w : World) : World :=
  if isConfigured env w then snd (ensureGatewayRunning env o w) else w.

End AdminApi.

(** ** Notions used to state properties of the event loop *)

Module SupervisorViews.
Import JsString Sys ConfigStore Supervisor.

(** the callers whose calls occur in a trace *)
Fixpoint callersOf (trace : list (Z * Event)) : list nat :=
  match trace with
  | [] => []
  | (_, EvCall c) :: rest => c :: callersOf rest
  | _ :: rest => callersOf rest
  end.

(** the call of [c] has ended *)
Definition ended (c : nat) (s : System) : Prop :=
  exists out, outcomeFor c s = Some out.

(** every event of the trace happens in the five minutes from [t0] on *)
Definition withinFiveMinutes (t0 : Z) (trace : list (Z * Event)) : Prop :=
  Forall (fun te => (t0 <= fst te < t0 + 5 * 60 * 1000)%Z) trace.

(** the handle held, if any, is that of the child spawned last *)
Definition holdsLatestChild (w : World) : Prop :=
  forall h, gatewayProc w = Some h -> S h = length (gatewaySpawns w).

End SupervisorViews.

(** ** More concrete inputs *)

Module MoreScenarios.
Import JsString Sys Onboard.

(** a decoder that knows one credential: [user:hunter2] *)
Definition oneCredential (encoded : string) : string :=
  if String.eqb encoded "dXNlcjpodW50ZXIy" then "user:hunter2"
  else EmptyString.

Definition anthropicKeyPayload : OnboardPayload :=
  {| flow := Absent; authChoice := Text "apiKey";
     authSecret := Text "  sk-ant-123  " |}.

(** a body whose secret is the number 5 *)
Definition numericSecretPayload : OnboardPayload :=
  {| flow := Absent; authChoice := Text "apiKey";
     authSecret := NonText true (Some "5") |}.

End MoreScenarios.

(** ** Concrete deployments used to exercise the statements *)

Module Scenarios.
Import JsString Sys ConfigStore Supervisor.

(** the deployment of the template: state and workspace on the volume *)
Definition railwayEnv : Env :=
  {| STATE_DIR := "/data/.openclaw";
     WORKSPACE_DIR := "/data/workspace";
     OPENCLAW_CONFIG_PATH := None;
     OPENCLAW_ENTRY := "/openclaw/dist/entry.js";
     OPENCLAW_NODE := "node";
     INTERNAL_GATEWAY_PORT := "18789";
     OPENCLAW_GATEWAY_TOKEN := "s3cr3t";
     GATEWAY_TARGET := "http://127.0.0.1:18789";
     tmpdir := "/tmp" |}.

(** a fresh volume, nothing started *)
Definition freshWorld : World :=
  {| files := ∅; gatewayProc := None; gatewayStarting := NoAttempt;
     lastGatewayError := None; lastGatewayExit := None;
     lastDoctorOutput := None; lastDoctorAt := None;
     gatewaySpawns := []; signals := []; cliSpawns := [] |}.

(** onboarding has written the configuration file *)
Definition configuredWorld : World :=
  writeFileSync "/data/.openclaw/openclaw.json" (Utf8 "{}") freshWorld.

(** the gateway child is up *)
Definition runningWorld : World :=
  spawnGateway railwayEnv configuredWorld.

(** a gateway that never answers the probe *)
Definition silentProbe : ProbeEnv :=
  {| startedAt := 1000;
     clockAt := fun i => (1000 + 250 * Z.of_nat i)%Z;
     fetchAnswers := fun _ _ => false |}.

(** a gateway that answers on [/openclaw] in the third round *)
Definition promptProbe : ProbeEnv :=
  {| startedAt := 1000;
     clockAt := fun i => (1000 + 250 * Z.of_nat i)%Z;
     fetchAnswers := fun i p => Nat.eqb i 2 && String.eqb p "/openclaw" |}.

Definition quietCli (argv : list string) : CmdResult :=
  {| code := 0; output := "" |}.

Definition silentOracle : Oracle :=
  {| now := 1700000000000; isoNow := "2026-11-03T08:32:00.123Z";
     probe := silentProbe; cli := quietCli;
     spawnThrows := fun _ => None; signalledExit := ExitsLater |}.

Definition promptOracle : Oracle :=
  {| now := 1700000000000; isoNow := "2026-11-03T08:32:00.123Z";
     probe := promptProbe; cli := quietCli;
     spawnThrows := fun _ => None; signalledExit := ExitsLater |}.

(** the exit of a child that was sent SIGTERM *)
Definition sigtermExit : ExitInfo :=
  {| exitCode := None; exitSignal := Some "SIGTERM";
     exitAt := "2026-11-03T08:32:01.400Z" |}.

(** the signalled child is gone within the 750 ms *)
Definition tidyOracle : Oracle :=
  {| now := 1700000000000; isoNow := "2026-11-03T08:32:00.123Z";
     probe := promptProbe; cli := quietCli;
     spawnThrows := fun _ => None;
     signalledExit := ExitsBeforeStart sigtermExit |}.

(** the signalled child takes longer than the 750 ms to exit *)
Definition lingeringOracle : Oracle :=
  {| now := 1700000000000; isoNow := "2026-11-03T08:32:00.123Z";
     probe := promptProbe; cli := quietCli;
     spawnThrows := fun _ => None;
     signalledExit := ExitsDuringStart sigtermExit |}.

(** a machine on which the binary is missing: the spawn fails *)
Definition missingBinary : RunCmd.ChildBehaviour :=
  fun _ _ => RunCmd.Spawned [RunCmd.ProcError "spawn node ENOENT";
                             RunCmd.ProcClose (Some (-2)%Z)].

(** a child that prints on both streams and closes without an exit code *)
Definition versionPrinter : RunCmd.ChildBehaviour :=
  fun _ _ => RunCmd.Spawned [RunCmd.StdoutData "2026.1";
                             RunCmd.StderrData "!"; RunCmd.ProcClose None].

(** [childProcess.spawn] as it checks its arguments: a NUL byte in the
    command or in an argument makes it throw; otherwise the child runs
    and exits with code 0 *)
Definition nulChecking : RunCmd.ChildBehaviour :=
  fun cmd args =>
    if existsb RunCmd.hasNul (cmd :: args)
    then RunCmd.SpawnThrows
           (faultText
              (BadArgument
                 "The argument 'args' must be a string without null bytes"))
    else RunCmd.Spawned [RunCmd.ProcClose (Some 0%Z)].

(** a command of the console followed by a no-break space (U+00A0) *)
Definition stopWithNoBreakSpace : string :=
  "gateway.stop" +:+ String (ascii_of_nat 194) (String (ascii_of_nat 160) "").

(** the same check as the console sees it *)
Definition nulCheckingOracle : Oracle :=
  {| now := 1700000000000; isoNow := "2026-11-03T08:32:00.123Z";
     probe := promptProbe; cli := quietCli;
     spawnThrows := fun argv =>
       if existsb RunCmd.hasNul argv
       then Some (BadArgument
                    "The argument 'args' must be a string without null bytes")
       else None;
     signalledExit := ExitsLater |}.

(** a system that refuses an argument of 128 KiB or more, as Linux does *)
Definition argumentLimitOracle : Oracle :=
  {| now := 1700000000000; isoNow := "2026-11-03T08:32:00.123Z";
     probe := promptProbe; cli := quietCli;
     spawnThrows := fun argv =>
       if existsb (fun a => (131072 <=? N.of_nat (String.length a))%N) argv
       then Some (SystemRefusal "E2BIG")
       else None;
     signalledExit := ExitsLater |}.

Fixpoint repeatChar (n : nat) (c : ascii) : string :=
  match n with
  | O => EmptyString
  | S n' => String c (repeatChar n' c)
  end.

(** a request id of 128 KiB, all of it letters *)
Definition longRequestId : string := repeatChar (N.to_nat 131072) "a".

(** a pairing code with a NUL byte in it *)
Definition nulCode : string :=
  "12" +:+ String Ascii.zero "34".

(** an archive with a note and an entry that climbs out of the volume *)
Definition mixedArchive : Upload :=
  {| chunks := [2048%N];
     entries := [ {| entryPath := "notes.txt"; payload := "hello" |};
                  {| entryPath := "../../etc/passwd"; payload := "root::0:0" |} ];
     malformed := false |}.

(** four chunks of 100 MB *)
Definition hugeUpload : Upload :=
  {| chunks := [104857600%N; 104857600%N; 104857600%N; 104857600%N];
     entries := []; malformed := false |}.

End Scenarios.

(** * Properties *)

(** ** Strings *)

Module JsStringFacts.
Import JsString.

Lemma append_nil (t : string) : EmptyString +:+ t = t.
Proof. reflexivity. Qed.

Lemma append_cons (c : ascii) (s t : string) :
  String c s +:+ t = String c (s +:+ t).
Proof. reflexivity. Qed.

Lemma append_empty_r (s : string) : s +:+ EmptyString = s.
Proof.
  induction s as [|c s IH]; [reflexivity|].
  rewrite append_cons. now f_equal.
Qed.

Lemma append_assoc (s t u : string) : (s +:+ t) +:+ u = s +:+ (t +:+ u).
Proof.
  induction s as [|c s IH]; [reflexivity|].
  rewrite !append_cons. now f_equal.
Qed.

(** a string is not itself followed by something *)
Lemma append_ne_self (s : string) (c : ascii) (t : string) :
  s +:+ String c t <> s.
Proof.
  induction s as [|a s IH]; [discriminate|].
  rewrite append_cons. congruence.
Qed.

(** push the appends under the leading characters, everywhere *)
Ltac push_append :=
  rewrite ?append_cons, ?append_nil in *.

Lemma split_nonempty sep s : split sep s <> [].
Proof.
  destruct s as [|c rest]; simpl; [discriminate|].
  destruct (Ascii.eqb c sep); [discriminate|].
  destruct (split sep rest); discriminate.
Qed.

Lemma split_cons_sep sep rest :
  split sep (String sep rest) = EmptyString :: split sep rest.
Proof. simpl. now rewrite Ascii.eqb_refl. Qed.

Lemma split_cons_other sep c rest :
  c <> sep ->
  split sep (String c rest)
  = String c (hd EmptyString (split sep rest)) :: tl (split sep rest).
Proof.
  intros Hne. simpl.
  destruct (Ascii.eqb_spec c sep) as [->|_]; [congruence|].
  pose proof (split_nonempty sep rest) as Hn.
  destruct (split sep rest); [congruence|reflexivity].
Qed.

Lemma noSlash_cons c s :
  noSlash (String c s) = true <-> c <> "/"%char /\ noSlash s = true.
Proof.
  unfold noSlash. simpl. rewrite andb_true_iff, negb_true_iff.
  split; intros [H1 H2]; split; auto.
  - intros ->. now rewrite Ascii.eqb_refl in H1.
  - now apply Ascii.eqb_neq.
Qed.

(** *** Trimming *)

Lemma string_length_ind (P : string -> Prop) :
  (forall s, (forall r, String.length r < String.length s -> P r) -> P s) ->
  forall s, P s.
Proof.
  intros Hstep s.
  assert (H : forall n r, String.length r < n -> P r).
  { induction n as [|n IH]; intros r Hr; [lia|].
    apply Hstep. intros r' Hr'. apply IH. lia. }
  apply (H (S (String.length s))). lia.
Qed.

Lemma trimStart_drop s :
  trimStart s = match dropSpace s with
                | Some r => trimStart r
                | None => s
                end.
Proof.
  destruct s as [|c1 r1]; [reflexivity|]. cbn [trimStart dropSpace].
  destruct (isSpace c1); [reflexivity|].
  destruct r1 as [|c2 r2]; [reflexivity|].
  destruct (isSpace2 c1 c2); [reflexivity|].
  destruct r2 as [|c3 r3]; [reflexivity|].
  now destruct (isSpace3 c1 c2 c3).
Qed.

Lemma dropSpace_shorter s r :
  dropSpace s = Some r -> String.length r < String.length s.
Proof.
  destruct s as [|c1 r1]; [discriminate|]. cbn [dropSpace].
  destruct (isSpace c1); [intros [= <-]; cbn; lia|].
  destruct r1 as [|c2 r2]; [discriminate|].
  destruct (isSpace2 c1 c2); [intros [= <-]; cbn; lia|].
  destruct r2 as [|c3 r3]; [discriminate|].
  destruct (isSpace3 c1 c2 c3); [intros [= <-]; cbn; lia|discriminate].
Qed.

Lemma dropSpace_app s r t :
  dropSpace s = Some r -> dropSpace (s +:+ t) = Some (r +:+ t).
Proof.
  destruct s as [|c1 r1]; [discriminate|].
  rewrite append_cons. cbn [dropSpace].
  destruct (isSpace c1); [now intros [= <-]|].
  destruct r1 as [|c2 r2]; [discriminate|].
  rewrite append_cons.
  destruct (isSpace2 c1 c2); [now intros [= <-]|].
  destruct r2 as [|c3 r3]; [discriminate|].
  rewrite append_cons.
  destruct (isSpace3 c1 c2 c3); [now intros [= <-]|discriminate].
Qed.

(** what [trimStart] leaves does not begin with white space *)
Lemma trimStart_fixed s : dropSpace (trimStart s) = None.
Proof.
  induction s as [s IH] using string_length_ind.
  rewrite trimStart_drop. destruct (dropSpace s) as [r|] eqn:E.
  - apply IH. now apply dropSpace_shorter.
  - exact E.
Qed.

Lemma trimStart_of_fixed s : dropSpace s = None -> trimStart s = s.
Proof. intros H. now rewrite trimStart_drop, H. Qed.

Lemma trimStart_app_blank a b :
  blank a = true -> trimStart (a +:+ b) = trimStart b.
Proof.
  induction a as [a IH] using string_length_ind. intros Ha.
  destruct a as [|c rest]; [reflexivity|].
  unfold blank in Ha. rewrite trimStart_drop in Ha.
  destruct (dropSpace (String c rest)) as [r|] eqn:E; [|discriminate Ha].
  rewrite (trimStart_drop (String c rest +:+ b)), (dropSpace_app _ _ b E).
  apply IH; [now apply dropSpace_shorter|exact Ha].
Qed.

Lemma blank_app a b :
  blank a = true -> blank b = true -> blank (a +:+ b) = true.
Proof.
  intros Ha Hb. unfold blank. now rewrite trimStart_app_blank.
Qed.

Lemma trimEnd_cons c rest :
  trimEnd (String c rest)
  = if blank (String c rest) then EmptyString else String c (trimEnd rest).
Proof. reflexivity. Qed.

(** [trimEnd] cuts off a run of white space *)
Lemma trimEnd_split s :
  exists u, s = trimEnd s +:+ u /\ blank u = true.
Proof.
  induction s as [|c rest (u & Hu & Hb)].
  - now exists EmptyString.
  - rewrite trimEnd_cons. destruct (blank (String c rest)) eqn:B.
    + now exists (String c rest).
    + exists u. split; [|assumption]. rewrite append_cons. now rewrite <- Hu.
Qed.

Lemma trimEnd_idem s : trimEnd (trimEnd s) = trimEnd s.
Proof.
  induction s as [|c rest IH]; [reflexivity|].
  rewrite trimEnd_cons. destruct (blank (String c rest)) eqn:B;
    [reflexivity|].
  rewrite trimEnd_cons.
  destruct (blank (String c (trimEnd rest))) eqn:B'; [|now rewrite IH].
  destruct (trimEnd_split rest) as (u & Hu & Hb).
  pose proof (blank_app _ _ B' Hb) as Hall.
  rewrite append_cons, <- Hu in Hall. congruence.
Qed.

Lemma trimEnd_keeps_fixed s :
  dropSpace s = None -> dropSpace (trimEnd s) = None.
Proof.
  intros Hs. destruct (dropSpace (trimEnd s)) as [r|] eqn:E; [|reflexivity].
  destruct (trimEnd_split s) as (u & Hu & _).
  apply (dropSpace_app _ _ u) in E. rewrite <- Hu in E. congruence.
Qed.

Lemma trim_idem s : trim (trim s) = trim s.
Proof.
  unfold trim.
  rewrite (trimStart_of_fixed (trimEnd (trimStart s)))
    by apply trimEnd_keeps_fixed, trimStart_fixed.
  apply trimEnd_idem.
Qed.

Lemma dropSpace_plain c rest : plainLead c -> dropSpace (String c rest) = None.
Proof.
  intros (H1 & H2 & H3). cbn [dropSpace]. rewrite H1.
  destruct rest as [|c2 [|c3 r3]]; rewrite ?H2, ?H3; reflexivity.
Qed.

(** a string of such bytes is left alone by [trim] *)
Lemma trim_plain s :
  (forall before c after, s = before +:+ String c after -> plainLead c) ->
  trim s = s.
Proof.
  intros Hall.
  assert (Hend : forall t,
            (forall before c after, t = before +:+ String c after ->
                                    plainLead c) ->
            trimEnd t = t).
  { induction t as [|c rest IH]; intros Ht; [reflexivity|].
    rewrite trimEnd_cons. unfold blank.
    rewrite trimStart_of_fixed
      by (apply dropSpace_plain, (Ht EmptyString c rest); reflexivity).
    cbn [String.eqb]. f_equal. apply IH.
    intros before d after ->. apply (Ht (String c before) d after).
    now rewrite append_cons. }
  unfold trim. destruct s as [|c rest]; [reflexivity|].
  rewrite trimStart_of_fixed
    by (apply dropSpace_plain, (Hall EmptyString c rest); reflexivity).
  now apply Hend.
Qed.

End JsStringFacts.

(** ** The traversal-safety predicate *)

Module TarPathFacts.
Import JsString TarPath JsStringFacts.

Example safe_plain : looksSafeTarPath ".openclaw/openclaw.json" = true.
Proof. reflexivity. Qed.

Example unsafe_parent : looksSafeTarPath "../../etc/passwd" = false.
Proof. reflexivity. Qed.

Example unsafe_absolute : looksSafeTarPath "/etc/cron.d/x" = false.
Proof. reflexivity. Qed.

Example unsafe_drive : looksSafeTarPath "C:\Windows" = false.
Proof. reflexivity. Qed.

Example safe_dots_inside_a_name : looksSafeTarPath "a..b/c" = true.
Proof. reflexivity. Qed.

(** the head of the split is the first segment *)
Lemma split_head seg : forall s,
  noSlash seg = true ->
  hd EmptyString (split "/" s) = seg <-> firstSegment seg s.
Proof.
  unfold firstSegment.
  intros s; revert seg.
  induction s as [|c r IH]; intros seg Hseg.
  - simpl. split.
    + intros <-. now left.
    + intros [H|[rest H]]; [congruence|].
      destruct seg; push_append; discriminate.
  - destruct (Ascii.eqb_spec c "/") as [->|Hc].
    + rewrite split_cons_sep. simpl. split.
      * intros <-. right. now exists r.
      * intros [H|[rest H]].
        -- subst seg. apply noSlash_cons in Hseg. tauto.
        -- destruct seg as [|c' seg']; [reflexivity|].
           push_append. injection H as <- _.
           apply noSlash_cons in Hseg. tauto.
    + rewrite split_cons_other by assumption. simpl. split.
      * intros <-. apply noSlash_cons in Hseg as [_ Hh].
        destruct (proj1 (IH _ Hh) eq_refl) as [H|[rest H]].
        -- left. now f_equal.
        -- right. exists rest. push_append. now f_equal.
      * intros [H|[rest H]].
        -- subst seg. apply noSlash_cons in Hseg as [_ Hr].
           f_equal. apply IH; auto.
        -- destruct seg as [|c' seg']; push_append.
           ++ congruence.
           ++ injection H as <- H.
              apply noSlash_cons in Hseg as [_ Hs'].
              f_equal. apply IH; [assumption|]. right. now exists rest.
Qed.

(** the tail of the split holds the first segments of what follows a [/] *)
Lemma split_tail seg : forall s,
  noSlash seg = true ->
  In seg (tl (split "/" s))
  <-> exists before after,
        s = before +:+ String "/" after /\ firstSegment seg after.
Proof.
  intros s Hseg. induction s as [|c r IH].
  - simpl. split; [tauto|].
    intros (before & after & H & _).
    destruct before; push_append; discriminate.
  - destruct (Ascii.eqb_spec c "/") as [->|Hc].
    + rewrite split_cons_sep. simpl.
      pose proof (split_nonempty "/" r) as Hn.
      pose proof (split_head seg r Hseg) as Hh.
      destruct (split "/" r) as [|h t] eqn:E; [congruence|].
      simpl in *. split.
      * intros [H|H].
        -- exists EmptyString, r. split; [reflexivity|]. now apply Hh.
        -- apply IH in H as (before & after & -> & Hfs).
           exists (String "/" before), after. now split.
      * intros (before & after & H & Hfs).
        destruct before as [|b before']; push_append.
        -- injection H as ->. left. now apply Hh.
        -- injection H as _ ->. right. apply IH.
           now exists before', after.
    + rewrite split_cons_other by assumption. simpl.
      rewrite IH. split.
      * intros (before & after & -> & Hfs).
        exists (String c before), after. now split.
      * intros (before & after & H & Hfs).
        destruct before as [|b before']; push_append.
        -- congruence.
        -- injection H as _ ->. now exists before', after.
Qed.

Lemma includes_parent p :
  includes (split "/" p) ".." = true <-> hasParentSegment p.
Proof.
  unfold includes, hasParentSegment.
  rewrite existsb_exists.
  rewrite <- (split_head ".." p eq_refl), <- (split_tail ".." p eq_refl).
  pose proof (split_nonempty "/" p) as Hn.
  destruct (split "/" p) as [|h t]; [congruence|].
  cbn [hd tl]. split.
  - intros (y & Hin & Hy). apply String.eqb_eq in Hy. subst y.
    destruct Hin as [H|H]; auto.
  - intros [H|H]; exists ".."; (split; [|apply String.eqb_refl]).
    + left. exact H.
    + right. exact H.
Qed.

Lemma startsWith_char c p :
  startsWith p (String c EmptyString) = true
  <-> exists rest, p = String c rest.
Proof.
  unfold startsWith. destruct p as [|b rest]; simpl.
  - split; [discriminate|]. intros [? ?]; discriminate.
  - destruct (ascii_dec c b) as [->|Hne].
    + destruct rest; split; eauto.
    + split; [discriminate|]. intros [? H]. congruence.
Qed.

Lemma absolute_spec p :
  startsWith p "/" || startsWith p "\" = true <-> isAbsolute p.
Proof.
  unfold isAbsolute. rewrite orb_true_iff, !startsWith_char.
  split.
  - intros [[r ->]|[r ->]]; exists r; auto.
  - intros [r [->| ->]]; eauto.
Qed.

Lemma drive_spec p : testDriveLetter p = true <-> hasDrivePrefix p.
Proof.
  unfold hasDrivePrefix. split.
  - destruct p as [|c [|colon [|sep rest]]]; simpl; try discriminate.
    rewrite !andb_true_iff, orb_true_iff.
    intros [[Hc Hcolon] Hsep].
    apply Ascii.eqb_eq in Hcolon as ->.
    exists c, sep, rest. repeat split; [assumption|].
    destruct Hsep as [H|H]; apply Ascii.eqb_eq in H; auto.
  - intros (c & sep & rest & -> & Hc & Hsep). simpl.
    rewrite Hc. simpl. destruct Hsep as [-> | ->]; reflexivity.
Qed.

(** C4. The traversal-safety predicate accepts a path exactly when the path
    is not empty, does not start with a separator, has no [..] segment and
    has no drive-letter prefix; it rejects every other path. *)
Theorem looksSafeTarPath_exact (p : string) :
  looksSafeTarPath p = true
  <-> p <> "" /\ ~ isAbsolute p /\ ~ hasParentSegment p
      /\ ~ hasDrivePrefix p.
Proof.
  unfold looksSafeTarPath.
  rewrite <- absolute_spec, <- includes_parent, <- drive_spec.
  destruct (String.eqb_spec p "") as [->|Hne].
  - split; [discriminate|]. tauto.
  - destruct (startsWith p "/" || startsWith p "\");
      destruct (testDriveLetter p);
      destruct (includes (split "/" p) "..");
      (split;
       [ intros H; try discriminate H; repeat split; auto; discriminate
       | intros (_ & H1 & H2 & H3); try reflexivity; congruence ]).
Qed.

End TarPathFacts.

(** ** [runCmd] *)

Module RunCmdFacts.
Import JsString Sys RunCmd Scenarios JsStringFacts.

Lemma collected_from acc events :
  foldl (fun acc ev => acc +:+ dataOf ev) acc events
  = acc +:+ collected events.
Proof.
  unfold collected.
  induction events as [|ev events IH] using rev_ind.
  - simpl. now rewrite append_empty_r.
  - rewrite !foldl_snoc, IH. apply append_assoc.
Qed.

Lemma collected_cons ev events :
  collected (ev :: events) = dataOf ev +:+ collected events.
Proof. unfold collected. simpl. apply collected_from. Qed.

(** while only data arrives, the promise stays as it is and [out] grows *)
Lemma run_data events : forall r,
  forallb isData events = true ->
  foldl onEvent r events
  = {| out := out r +:+ collected events; promise := promise r |}.
Proof.
  induction events as [|ev events IH]; intros r Hd.
  - destruct r as [o p]. simpl. f_equal.
    unfold collected. simpl. now rewrite append_empty_r.
  - simpl in Hd. apply andb_true_iff in Hd as [Hev Hd].
    simpl. rewrite IH by assumption. rewrite collected_cons.
    destruct ev; try discriminate; simpl; f_equal; apply append_assoc.
Qed.

(** a settled promise is never settled again *)
Lemma run_settled events : forall r v,
  promise r = ResolvedWith v ->
  promise (foldl onEvent r events) = ResolvedWith v.
Proof.
  induction events as [|ev events IH]; intros r v Hr; [assumption|].
  simpl. apply IH. destruct ev; simpl; rewrite ?Hr; auto.
Qed.

Lemma run_never_rejects events : forall r,
  (forall err, promise r <> RejectedWith err) ->
  forall err, promise (foldl onEvent r events) <> RejectedWith err.
Proof.
  induction events as [|ev events IH]; intros r Hr; [assumption|].
  simpl. apply IH. intros err.
  destruct ev; simpl; auto; destruct (promise r) eqn:E;
    try discriminate; apply Hr.
Qed.

(** Once [childProcess.spawn] has returned a child, [runCmd] never rejects:
    at the first [error] or [close] event of the child its promise
    resolves, once and for all, with a record: code 127 and the spawn error
    appended to the output for [error], the exit code for [close], and 0
    when that code is [null]. *)
Lemma runCmd_resolves_once_spawned
    (os : ChildBehaviour) (cmd : string) (args : list string)
    (events : list ProcEvent) :
  os cmd args = Spawned events ->
  (forall err, promise (runCmd os cmd args) <> RejectedWith err)
  /\ (forall before err after,
        events = before ++ ProcError err :: after ->
        forallb isData before = true ->
        promise (runCmd os cmd args)
        = ResolvedWith
            {| code := 127;
               output := collected before +:+ nl +:+ "[spawn error] "
                         +:+ stringOfError err +:+ nl |})
  /\ (forall before exit after,
        events = before ++ ProcClose exit :: after ->
        forallb isData before = true ->
        promise (runCmd os cmd args)
        = ResolvedWith
            {| code := default 0%Z exit; output := collected before |}).
Proof.
  intros Hos. unfold runCmd. rewrite Hos. split; [|split].
  - apply run_never_rejects. discriminate.
  - intros before err after -> Hd.
    rewrite foldl_app. simpl. rewrite (run_data before) by assumption.
    apply run_settled. reflexivity.
  - intros before exit after -> Hd.
    rewrite foldl_app. simpl. rewrite (run_data before) by assumption.
    apply run_settled. reflexivity.
Qed.

(** a command that cannot be spawned, and one that prints and exits *)
Example runCmd_missing_binary :
  promise (runCmd missingBinary "node" ["/openclaw/dist/entry.js"; "doctor"])
  = ResolvedWith
      {| code := 127;
         output := nl +:+ "[spawn error] Error: spawn node ENOENT" +:+ nl |}
  /\ promise (runCmd versionPrinter "node"
                ["/openclaw/dist/entry.js"; "--version"])
     = ResolvedWith {| code := 0; output := "2026.1!" |}.
Proof. split; reflexivity. Qed.

Lemma runCmd_rejects_iff os cmd args err :
  promise (runCmd os cmd args) = RejectedWith err
  <-> os cmd args = SpawnThrows err.
Proof.
  unfold runCmd. destruct (os cmd args) as [thrown|events] eqn:E.
  - cbn [promise]. split; congruence.
  - split; [|discriminate]. intros H. exfalso.
    revert H. apply run_never_rejects. discriminate.
Qed.

(** C10 fails in the code. Once [childProcess.spawn] has returned a child
    the promise of [runCmd] behaves as the claim says: it is never
    rejected, resolves at the first [error] event with code 127 and the
    spawn error appended to the output, and at the first [close] event with
    the exit code, 0 when that is [null]. But [runCmd] rejects exactly when
    [childProcess.spawn] throws where it stands, and then with what it
    throws; and it does throw for an argument that holds a NUL byte. The
    pairing code of [POST /setup/api/pairing/approve] reaches [runCmd]
    unchecked: with a NUL byte in it the promise is rejected. *)
Theorem runCmd_rejects_when_spawn_throws :
  (forall os cmd args err,
     promise (runCmd os cmd args) = RejectedWith err
     <-> os cmd args = SpawnThrows err)
  /\ (forall os cmd args events,
        os cmd args = Spawned events ->
        (forall err, promise (runCmd os cmd args) <> RejectedWith err)
        /\ (forall before err after,
              events = before ++ ProcError err :: after ->
              forallb isData before = true ->
              promise (runCmd os cmd args)
              = ResolvedWith
                  {| code := 127;
                     output := collected before +:+ nl +:+ "[spawn error] "
                               +:+ stringOfError err +:+ nl |})
        /\ (forall before exit after,
              events = before ++ ProcClose exit :: after ->
              forallb isData before = true ->
              promise (runCmd os cmd args)
              = ResolvedWith
                  {| code := default 0%Z exit; output := collected before |}))
  /\ hasNul nulCode = true
  /\ promise (runCmd nulChecking "node"
                ["/openclaw/dist/entry.js"; "pairing"; "approve"; "telegram";
                 nulCode])
     = RejectedWith
         "TypeError [ERR_INVALID_ARG_VALUE]: The argument 'args' must be a string without null bytes".
Proof.
  split; [exact runCmd_rejects_iff|].
  split; [exact runCmd_resolves_once_spawned|].
  split; reflexivity.
Qed.

End RunCmdFacts.

(** ** The configuration store *)

Module ConfigStoreFacts.
Import JsString Sys ConfigStore JsStringFacts.

(** whether the system is configured depends on the files only *)
Lemma isConfigured_files env w w' :
  files w' = files w -> isConfigured env w' = isConfigured env w.
Proof.
  intros H. unfold isConfigured, existsSync. now rewrite H.
Qed.

Lemma pathJoin_not_empty dir name : String.eqb (pathJoin dir name) "" = false.
Proof. unfold pathJoin. now destruct dir. Qed.

(** one path is authoritative, whatever the files are *)
Lemma configPath_fixed env w w' : configPath env w' = configPath env w.
Proof.
  unfold configPath, resolveConfigCandidates.
  destruct (OPENCLAW_CONFIG_PATH env) as [explicit|].
  - destruct (String.eqb explicit "") eqn:E; simpl.
    + rewrite pathJoin_not_empty.
      now destruct (existsSync _ w'), (existsSync _ w).
    + rewrite E. now destruct (existsSync _ w'), (existsSync _ w).
  - simpl. rewrite pathJoin_not_empty.
    now destruct (existsSync _ w'), (existsSync _ w).
Qed.

(** the system is configured exactly when the authoritative file exists *)
Lemma isConfigured_configPath env w :
  isConfigured env w = existsSync (configPath env w) w.
Proof.
  unfold isConfigured, configPath, resolveConfigCandidates.
  destruct (OPENCLAW_CONFIG_PATH env) as [explicit|].
  - destruct (String.eqb explicit "") eqn:E; simpl.
    + rewrite pathJoin_not_empty.
      destruct (existsSync _ w) eqn:Ex; simpl; now rewrite ?Ex.
    + rewrite E. destruct (existsSync _ w) eqn:Ex; simpl; now rewrite ?Ex.
  - simpl. rewrite pathJoin_not_empty.
    destruct (existsSync _ w) eqn:Ex; simpl; now rewrite ?Ex.
Qed.

End ConfigStoreFacts.

(** ** The process supervisor *)

Module SupervisorFacts.
Import JsString Sys ConfigStore Supervisor Scenarios ConfigStoreFacts.

(** *** The readiness probe *)



(** with a clock that advances, the loop decides before its fuel ends *)
Lemma waitLoop_decides timeoutMs pe :
  clockAdvances pe ->
  forall fuel i,
    (timeoutMs - (clockAt pe i - startedAt pe) <= 250 * Z.of_nat fuel)%Z ->
    waitLoop (S fuel) timeoutMs pe i <> None.
Proof.
  intros [H0 Hstep].
  induction fuel as [|fuel IH]; intros i Hfuel;
    cbn [waitLoop];
    destruct (Z.ltb_spec (clockAt pe i - startedAt pe) timeoutMs)
      as [Hlt|Hge]; try discriminate.
  - lia.
  - destruct (roundResponds (fetchAnswers pe i)); [discriminate|].
    apply IH. specialize (Hstep i). lia.
Qed.

Lemma waitForGatewayReady_decides timeoutMs pe :
  (0 <= timeoutMs)%Z -> clockAdvances pe ->
  waitLoop (probeFuel timeoutMs) timeoutMs pe 0
  = Some (waitForGatewayReady timeoutMs pe).
Proof.
  intros Ht Hadv. unfold waitForGatewayReady.
  assert (Hf : probeFuel timeoutMs = S (Z.to_nat (timeoutMs / 250) + 1))
    by (unfold probeFuel; lia).
  pose proof (waitLoop_decides timeoutMs pe Hadv
                (Z.to_nat (timeoutMs / 250) + 1) 0) as Hd.
  rewrite Hf.
  destruct (waitLoop (S (Z.to_nat (timeoutMs / 250) + 1)) timeoutMs pe 0);
    [reflexivity|].
  exfalso. apply Hd; [|reflexivity].
  destruct Hadv as [H0 _].
  rewrite Nat2Z.inj_add, Z2Nat.id by (apply Z.div_pos; lia).
  pose proof (Z.mul_succ_div_gt timeoutMs 250 ltac:(lia)). lia.
Qed.

(** *** Files are left alone *)

Ltac unfold_supervisor :=
  unfold restartGateway, ensureGatewayRunning, awaitAttempt, ensure_enter,
    attempt_begin, attempt_probed, attempt_diagnosed, attempt_undiagnosed,
    attempt_catch, settle, runDoctor_begin, runDoctor_end, runDoctor_failed,
    doctorOver, startGateway, spawnGateway, killAndClear, lateExit, exitOf,
    onExit, onSpawnError in *.

Lemma killAndClear_files o w : files (killAndClear o w) = files w.
Proof.
  unfold killAndClear. destruct (gatewayProc w); [|reflexivity].
  now destruct (signalledExit o).
Qed.

Lemma exitOf_records info w :
  lastGatewayExit (exitOf info w) = Some info
  /\ gatewayProc (exitOf info w) = None
  /\ gatewaySpawns (exitOf info w) = gatewaySpawns w
  /\ signals (exitOf info w) = signals w
  /\ gatewayStarting (exitOf info w) = gatewayStarting w
  /\ files (exitOf info w) = files w.
Proof. destruct info. repeat split. Qed.

(** the exit of the signalled child spawns and signals nothing *)
Lemma lateExit_rest o signalled w :
  gatewaySpawns (lateExit o signalled w) = gatewaySpawns w
  /\ signals (lateExit o signalled w) = signals w.
Proof.
  unfold lateExit. destruct signalled; [|now split].
  destruct (signalledExit o) as [info|info|]; [now split| |now split].
  destruct (exitOf_records info w) as (_ & _ & H1 & H2 & _). now split.
Qed.

Lemma lateExit_files o signalled w : files (lateExit o signalled w) = files w.
Proof.
  unfold lateExit. destruct signalled; [|reflexivity].
  now destruct (signalledExit o).
Qed.

Lemma ensure_enter_files env now w :
  files (snd (ensure_enter env now w)) = files w.
Proof.
  unfold_supervisor.
  repeat (case_match; simpl in *; simplify_eq); reflexivity.
Qed.

Lemma ensureGatewayRunning_files env o w :
  files (snd (ensureGatewayRunning env o w)) = files w.
Proof.
  unfold_supervisor.
  repeat (case_match; simpl in *; simplify_eq); reflexivity.
Qed.

Lemma restartGateway_files env o w :
  files (snd (restartGateway env o w)) = files w.
Proof.
  unfold restartGateway.
  pose proof (ensureGatewayRunning_files env o (killAndClear o w)) as Hf.
  destruct (ensureGatewayRunning env o (killAndClear o w)) as [out w'].
  cbn [snd] in *. rewrite killAndClear_files in Hf.
  destruct (isConfigured env w); [now rewrite lateExit_files|assumption].
Qed.

(** *** [ensureGatewayRunning], case by case *)

Lemma ensure_when_unconfigured env o w :
  isConfigured env w = false ->
  ensureGatewayRunning env o w = (Resolved notConfigured, w).
Proof.
  intros Hc. unfold ensureGatewayRunning, ensure_enter. now rewrite Hc.
Qed.

Lemma ensure_when_child_present env o w h :
  isConfigured env w = true -> gatewayProc w = Some h ->
  ensureGatewayRunning env o w = (Resolved okTrue, w).
Proof.
  intros Hc Hp. unfold ensureGatewayRunning, ensure_enter.
  now rewrite Hc, Hp.
Qed.

Lemma ensure_when_probe_times_out env o w :
  isConfigured env w = true -> gatewayProc w = None ->
  gatewayStarting w = NoAttempt ->
  waitForGatewayReady 20000 (probe o) = false ->
  ensureGatewayRunning env o w = (Thrown notReadyError, afterTimeout env o w).
Proof.
  intros Hc Hp Hs Hr.
  unfold ensureGatewayRunning, ensure_enter, attempt_begin, startGateway.
  rewrite Hc, Hp, Hs. cbn [gatewayProc set_lastGatewayError].
  rewrite Hp.
  rewrite (isConfigured_files env w (set_lastGatewayError None w) eq_refl), Hc.
  cbn [negb]. unfold awaitAttempt. cbn [gatewayStarting set_gatewayStarting].
  rewrite Hr. unfold attempt_probed, attempt_catch, runDoctor_begin.
  unfold afterTimeout.
  change (doctorRateLimited (now o) (set_lastGatewayError _ _))
    with (doctorRateLimited (now o) w).
  destruct (doctorRateLimited (now o) w); [reflexivity|].
  cbn [fst snd gatewayStarting set_gatewayStarting]. unfold doctorOver.
  destruct (spawnThrows o (doctorArgs env)); reflexivity.
Qed.

Lemma ensure_when_probe_answers env o w :
  isConfigured env w = true -> gatewayProc w = None ->
  gatewayStarting w = NoAttempt ->
  waitForGatewayReady 20000 (probe o) = true ->
  ensureGatewayRunning env o w
  = (Resolved okTrue,
     set_gatewayStarting NoAttempt
       (set_gatewayStarting Probing
          (spawnGateway env (set_lastGatewayError None w)))).
Proof.
  intros Hc Hp Hs Hr.
  unfold ensureGatewayRunning, ensure_enter, attempt_begin, startGateway.
  rewrite Hc, Hp, Hs. cbn [gatewayProc set_lastGatewayError].
  rewrite Hp.
  rewrite (isConfigured_files env w (set_lastGatewayError None w) eq_refl), Hc.
  cbn [negb]. unfold awaitAttempt. cbn [gatewayStarting set_gatewayStarting].
  rewrite Hr. reflexivity.
Qed.

(** a child that answers the probe in its third round is reported ready,
    and the next call finds it running *)
Example start_succeeds_when_probe_answers :
  let r := ensureGatewayRunning railwayEnv promptOracle configuredWorld in
  fst r = Resolved okTrue
  /\ gatewayProc (snd r) = Some 0
  /\ gatewayStarting (snd r) = NoAttempt
  /\ lastGatewayError (snd r) = None
  /\ ensureGatewayRunning railwayEnv promptOracle (snd r)
     = (Resolved okTrue, snd r).
Proof. vm_compute. repeat split. Qed.

(** the probe of the template gives up after its deadline of 20 s *)
Example silent_probe_gives_up :
  waitLoop (probeFuel 20000) 20000 silentProbe 0 = Some false.
Proof. vm_compute. reflexivity. Qed.

(** *** Claims about the supervisor *)

(** C8. When no gateway child is running and no configuration file exists,
    [ensureGatewayRunning()] ends with the failure record
    [{ ok: false, reason: "not configured" }] and [startGateway()] throws
    its not-configured error; in both cases the world is left as it was, so
    no child is spawned. *)
Theorem ensureRunning_not_configured (env : Env) (o : Oracle) (w : World) :
  gatewayProc w = None ->
  isConfigured env w = false ->
  ensureGatewayRunning env o w = (Resolved notConfigured, w)
  /\ ok notConfigured = false
  /\ reason notConfigured = Some "not configured"
  /\ startGateway env w = (Some "Gateway cannot start: not configured", w)
  /\ gatewaySpawns (snd (ensureGatewayRunning env o w)) = gatewaySpawns w.
Proof.
  intros Hp Hc.
  rewrite (ensure_when_unconfigured env o w Hc).
  repeat split.
  unfold startGateway. now rewrite Hp, Hc.
Qed.

Lemma ensureRunning_not_configured_witness :
  ensureGatewayRunning railwayEnv silentOracle freshWorld
  = (Resolved notConfigured, freshWorld)
  /\ ok notConfigured = false
  /\ reason notConfigured = Some "not configured"
  /\ startGateway railwayEnv freshWorld
     = (Some "Gateway cannot start: not configured", freshWorld)
  /\ gatewaySpawns
       (snd (ensureGatewayRunning railwayEnv silentOracle freshWorld))
     = gatewaySpawns freshWorld.
Proof.
  apply (ensureRunning_not_configured railwayEnv silentOracle freshWorld);
    reflexivity.
Defined.




(** *** Concurrent callers *)

(** the first call into a stopped, configured system spawns the child and
    waits for the attempt *)
Lemma first_call_spawns env t c w :
  isConfigured env w = true -> gatewayProc w = None ->
  gatewayStarting w = NoAttempt ->
  step env t (EvCall c) (boot w)
  = {| world := set_gatewayStarting Probing
                  (spawnGateway env (set_lastGatewayError None w));
       waiters := [c]; outcomes := [] |}.
Proof.
  intros Hc Hp Hs.
  unfold step, boot, ensure_enter, attempt_begin, startGateway.
  cbn [world waiters outcomes].
  rewrite Hc, Hp, Hs. cbn [gatewayProc set_lastGatewayError]. rewrite Hp.
  now rewrite (isConfigured_files env w (set_lastGatewayError None w) eq_refl),
    Hc.
Qed.

(** a call that finds a child handle returns at once and changes nothing *)
Lemma call_with_child_present env t c s h :
  isConfigured env (world s) = true -> gatewayProc (world s) = Some h ->
  step env t (EvCall c) s
  = {| world := world s; waiters := waiters s;
       outcomes := (c, Resolved okTrue) :: outcomes s |}.
Proof.
  intros Hc Hp. unfold step, ensure_enter. now rewrite Hc, Hp.
Qed.

Lemma calls_with_child_present env h : forall callers s,
  isConfigured env (world s) = true -> gatewayProc (world s) = Some h ->
  run env (callsOf callers) s
  = {| world := world s; waiters := waiters s;
       outcomes := map (fun tc => (snd tc, Resolved okTrue)) (rev callers)
                   ++ outcomes s |}.
Proof.
  induction callers as [|[t c] callers IH]; intros s Hc Hp.
  - now destruct s.
  - unfold run, callsOf in *. cbn [map foldl fst snd].
    rewrite (call_with_child_present env t c s h Hc Hp).
    rewrite IH by assumption. cbn [world waiters outcomes rev].
    f_equal. rewrite map_app. cbn [map]. now rewrite <- app_assoc.
Qed.

(** Any number of calls into a stopped, configured system spawn one child;
    the first call waits for the start attempt, every later one is told at
    once that the gateway runs. *)
Lemma concurrent_calls_spawn_once env w t c callers :
  isConfigured env w = true -> gatewayProc w = None ->
  gatewayStarting w = NoAttempt ->
  let s := run env (callsOf ((t, c) :: callers)) (boot w) in
  gatewaySpawns (world s) = clawArgs env (gatewayArgs env) :: gatewaySpawns w
  /\ waiters s = [c]
  /\ outcomes s = map (fun tc => (snd tc, Resolved okTrue)) (rev callers).
Proof.
  intros Hc Hp Hs. cbv zeta.
  unfold run, callsOf. cbn [map foldl fst snd].
  rewrite (first_call_spawns env t c w Hc Hp Hs).
  fold (callsOf callers).
  change (foldl _ ?s (callsOf callers)) with (run env (callsOf callers) s).
  rewrite (calls_with_child_present env (length (gatewaySpawns w)));
    [|now rewrite <- Hc|reflexivity].
  cbn [world waiters outcomes]. rewrite app_nil_r. repeat split.
Qed.

(** C2, where the code parts from it. Two calls of
    [ensureGatewayRunning()] reach a stopped, configured server in the same
    turn and the child never answers the probe: one child is spawned, the
    first caller gets the readiness error, and the second caller was told
    [{ ok: true }] as soon as it called. *)
Theorem concurrent_callers_disagree :
  let s := run railwayEnv
             [(1000%Z, EvCall 1); (1000%Z, EvCall 2);
              (21000%Z, EvProbe false);
              (21700%Z, EvDoctorDone (quietCli (doctorArgs railwayEnv)))]
             (boot configuredWorld) in
  length (gatewaySpawns (world s)) = 1
  /\ outcomeFor 1 s = Some (Thrown notReadyError)
  /\ outcomeFor 2 s = Some (Resolved okTrue).
Proof. vm_compute. repeat split. Qed.

End SupervisorFacts.

(** ** The router *)

Module RouterFacts.
Import JsString Sys ConfigStore Supervisor Http Router Scenarios.

(** C7. While the system is not configured, the catch-all answers a request
    whose path is not under [/setup] with a redirect to [/setup], and the
    upgrade listener destroys the socket; neither touches the supervisor. *)
Theorem unconfigured_requests_turned_away
    (env : Env) (o : Oracle) (w : World) (reqPath : string) :
  isConfigured env w = false ->
  (startsWith reqPath "/setup" = false ->
   catchAll env o reqPath w
   = (Sent {| status := 302; body := Redirect "/setup" |}, w))
  /\ onUpgrade env o w = (Destroyed, w).
Proof.
  intros Hc. split.
  - intros Hp. unfold catchAll. now rewrite Hc, Hp.
  - unfold onUpgrade. now rewrite Hc.
Qed.

Lemma unconfigured_requests_turned_away_witness :
  catchAll railwayEnv silentOracle "/" freshWorld
  = (Sent {| status := 302; body := Redirect "/setup" |}, freshWorld)
  /\ onUpgrade railwayEnv silentOracle freshWorld = (Destroyed, freshWorld).
Proof.
  destruct (unconfigured_requests_turned_away railwayEnv silentOracle
              freshWorld "/" eq_refl) as [Hweb Hws].
  split; [apply Hweb; reflexivity|exact Hws].
Defined.

End RouterFacts.

(** ** The debug console *)

Module ConsoleFacts.
Import JsString Sys ConfigStore Supervisor Http Console Scenarios.
Import JsStringFacts.



Lemma approve_allowed :
  bool_decide ("openclaw.devices.approve" ∈ ALLOWED_CONSOLE_COMMANDS) = true.
Proof. vm_compute. reflexivity. Qed.


(** a request that leaves the world as it was has spawned nothing *)
Lemma unchanged_world_spawned_nothing w : ~ spawnedSomething w w.
Proof. intros [H|H]; now apply H. Qed.

Lemma allowed_cases cmd :
  cmd ∈ ALLOWED_CONSOLE_COMMANDS ->
  In cmd ["gateway.restart"; "gateway.stop"; "gateway.start";
          "openclaw.version"; "openclaw.status"; "openclaw.health";
          "openclaw.doctor"; "openclaw.logs.tail"; "openclaw.config.get";
          "openclaw.devices.list"; "openclaw.devices.approve";
          "openclaw.plugins.list"; "openclaw.plugins.enable"].
Proof.
  unfold ALLOWED_CONSOLE_COMMANDS. rewrite elem_of_list_to_set.
  apply list_elem_of_In.
Qed.

(** the world after [runAndReport]: one spawn of the CLI more *)
Lemma runAndReport_world env o args w :
  snd (runAndReport env o args w)
  = set_cliSpawns (clawArgs env args :: cliSpawns w) w.
Proof. unfold runAndReport. destruct (spawnThrows o _); reflexivity. Qed.


Lemma logs_tail_allowed :
  bool_decide ("openclaw.logs.tail" ∈ ALLOWED_CONSOLE_COMMANDS) = true.
Proof. vm_compute. reflexivity. Qed.



(** the command is trimmed of every white space of the language, not only
    of the ASCII ones, before it is looked up *)
Example console_trims_no_break_space :
  trim stopWithNoBreakSpace = "gateway.stop"
  /\ fst (consoleRun railwayEnv silentOracle stopWithNoBreakSpace ""
            runningWorld)
     = {| status := 200;
          body := JsonOutput true
                    ("Gateway stopped (wrapper-managed)." +:+ nl) |}
  /\ signals (snd (consoleRun railwayEnv silentOracle stopWithNoBreakSpace ""
                     runningWorld))
     = [0].
Proof. vm_compute. repeat split. Qed.

(** a spawn that throws is answered by the [catch] block of the handler *)
Example console_reports_spawn_fault :
  fst (consoleRun railwayEnv nulCheckingOracle "openclaw.config.get" nulCode
         freshWorld)
  = {| status := 500;
       body := JsonError
                 "TypeError [ERR_INVALID_ARG_VALUE]: The argument 'args' must be a string without null bytes" |}.
Proof. vm_compute. reflexivity. Qed.


End ConsoleFacts.

(** ** The raw configuration editor *)

Module ConfigEditorFacts.
Import JsString Sys ConfigStore Supervisor Http ConfigEditor Scenarios.
Import JsStringFacts ConfigStoreFacts SupervisorFacts.

Lemma digit_not_replaced c :
  isDigit c = true -> Ascii.eqb c ":" || Ascii.eqb c "." = false.
Proof.
  intros Hd.
  destruct (Ascii.eqb_spec c ":") as [->|_]; [discriminate|].
  destruct (Ascii.eqb_spec c ".") as [->|_]; [discriminate|].
  reflexivity.
Qed.

(** on strings of one shape the replacement loses nothing *)
Lemma replaceColonDot_inj_on_shape : forall shape s1 s2,
  hasShape shape s1 = true -> hasShape shape s2 = true ->
  replaceColonDot s1 = replaceColonDot s2 -> s1 = s2.
Proof.
  induction shape as [|slot shape IH]; intros s1 s2 H1 H2 Heq.
  - destruct s1, s2; simpl in *; congruence.
  - destruct slot as [|k]; destruct s1 as [|c1 r1], s2 as [|c2 r2];
      simpl in H1, H2; try discriminate;
      apply andb_true_iff in H1 as [Hc1 Hr1];
      apply andb_true_iff in H2 as [Hc2 Hr2];
      simpl in Heq; injection Heq as Hc Hr;
      f_equal; try (eapply IH; eassumption).
    + now rewrite (digit_not_replaced c1 Hc1), (digit_not_replaced c2 Hc2)
        in Hc.
    + apply Ascii.eqb_eq in Hc1, Hc2. congruence.
Qed.

(** two clock readings name two backups *)
Lemma backupPath_inj p iso1 iso2 :
  isIsoTimestamp iso1 = true -> isIsoTimestamp iso2 = true ->
  backupPath p iso1 = backupPath p iso2 -> iso1 = iso2.
Proof.
  intros H1 H2 Heq. unfold backupPath in Heq.
  apply String.app_inj in Heq. apply String.app_inj in Heq.
  eapply replaceColonDot_inj_on_shape; eassumption.
Qed.

(** a backup never has the name of the file it copies *)
Lemma backupPath_fresh p iso : backupPath p iso <> p.
Proof. unfold backupPath. rewrite append_cons. apply append_ne_self. Qed.

(** what one write does to the files when a configuration file exists *)
Lemma writeRaw_files env iso content w old :
  files w !! configPath env w = Some old ->
  files (writeRaw env iso content w)
  = <[configPath env w := Utf8 content]>
      (<[backupPath (configPath env w) iso := old]> (files w)).
Proof.
  intros Hold. unfold writeRaw, existsSync, copyFileSync, writeFileSync.
  rewrite Hold. reflexivity.
Qed.

(** the handler changes the files as [writeRaw] does *)
Lemma postConfigRaw_files env o content w :
  (lengthN content <= 500000)%N ->
  files (snd (postConfigRaw env o content w))
  = files (writeRaw env (isoNow o) content w).
Proof.
  intros Hlen. unfold postConfigRaw.
  destruct (N.ltb_spec 500000 (lengthN content)) as [Hgt|_]; [lia|].
  destruct (isConfigured env _); [|reflexivity].
  pose proof (restartGateway_files env o
                (writeRaw env (isoNow o) content w)) as Hf.
  destruct (restartGateway env o _) as [[r|err] w2]; exact Hf.
Qed.

(** C9, as the code has it. A write over an existing configuration file
    first copies the file to the backup named after the clock reading;
    when no file has that name yet this is exactly one new file, equal to
    the content before the write, and nothing else but the configuration
    file changes. Two writes at two different clock readings leave two
    different backups, each with the content its write found. The handler
    changes the files in this way and in no other. *)
Theorem writeRaw_backs_up (env : Env) (w : World) (old : FileData) :
  let p := configPath env w in
  files w !! p = Some old ->
  (forall iso content,
     files w !! backupPath p iso = None ->
     let w' := writeRaw env iso content w in
     files w' !! backupPath p iso = Some old
     /\ files w' !! p = Some (Utf8 content)
     /\ forall q, q <> p -> q <> backupPath p iso ->
                  files w' !! q = files w !! q)
  /\ (forall iso1 iso2 content1 content2,
        isIsoTimestamp iso1 = true -> isIsoTimestamp iso2 = true ->
        iso1 <> iso2 ->
        files w !! backupPath p iso1 = None ->
        files w !! backupPath p iso2 = None ->
        let w2 := writeRaw env iso2 content2 (writeRaw env iso1 content1 w) in
        backupPath p iso1 <> backupPath p iso2
        /\ files w2 !! backupPath p iso1 = Some old
        /\ files w2 !! backupPath p iso2 = Some (Utf8 content1)
        /\ files w2 !! p = Some (Utf8 content2))
  /\ (forall o content,
        (lengthN content <= 500000)%N ->
        files (snd (postConfigRaw env o content w))
        = files (writeRaw env (isoNow o) content w)).
Proof.
  intros p Hold. split; [|split].
  - intros iso content Hfree w'. subst w'.
    rewrite (writeRaw_files env iso content w old Hold). fold p.
    pose proof (backupPath_fresh p iso) as Hne.
    repeat split.
    + rewrite lookup_insert_ne by congruence. apply lookup_insert_eq.
    + apply lookup_insert_eq.
    + intros q Hq1 Hq2. now rewrite !lookup_insert_ne by congruence.
  - intros iso1 iso2 content1 content2 Hs1 Hs2 Hdiff Hfree1 Hfree2 w2.
    subst w2.
    assert (Hne : backupPath p iso1 <> backupPath p iso2).
    { intros Heq. apply Hdiff. eapply backupPath_inj; eassumption. }
    pose proof (backupPath_fresh p iso1) as Hne1.
    pose proof (backupPath_fresh p iso2) as Hne2.
    set (w1 := writeRaw env iso1 content1 w).
    assert (Hp1 : configPath env w1 = p) by apply configPath_fixed.
    assert (Hf1 : files w1
                  = <[p := Utf8 content1]>
                      (<[backupPath p iso1 := old]> (files w)))
      by apply (writeRaw_files env iso1 content1 w old Hold).
    assert (Hold1 : files w1 !! configPath env w1 = Some (Utf8 content1)).
    { rewrite Hp1, Hf1. apply lookup_insert_eq. }
    rewrite (writeRaw_files env iso2 content2 w1 _ Hold1), Hp1, Hf1.
    repeat split; [assumption| | |].
    + do 3 (rewrite lookup_insert_ne by congruence). apply lookup_insert_eq.
    + rewrite lookup_insert_ne by congruence. apply lookup_insert_eq.
    + apply lookup_insert_eq.
  - intros o content. apply postConfigRaw_files.
Qed.

Lemma writeRaw_backs_up_witness :
  let p := "/data/.openclaw/openclaw.json" in
  let w2 := writeRaw railwayEnv "2026-11-03T08:32:00.900Z" "{b:2}"
              (writeRaw railwayEnv "2026-11-03T08:32:00.123Z" "{a:1}"
                 configuredWorld) in
  files w2 !! backupPath p "2026-11-03T08:32:00.123Z" = Some (Utf8 "{}")
  /\ files w2 !! backupPath p "2026-11-03T08:32:00.900Z"
     = Some (Utf8 "{a:1}")
  /\ files w2 !! p = Some (Utf8 "{b:2}").
Proof.
  destruct (writeRaw_backs_up railwayEnv configuredWorld (Utf8 "{}") eq_refl)
    as (_ & Htwo & _).
  destruct (Htwo "2026-11-03T08:32:00.123Z" "2026-11-03T08:32:00.900Z"
              "{a:1}" "{b:2}" eq_refl eq_refl ltac:(discriminate)
              eq_refl eq_refl) as (_ & H1 & H2 & H3).
  cbv zeta. split; [exact H1|split; [exact H2|exact H3]].
Defined.

(** C9 as the specification words it fails: two writes within one
    millisecond name the same backup, so the second copy replaces the first
    and the content found by the first write is kept nowhere. *)
Lemma same_millisecond_one_backup :
  let p := "/data/.openclaw/openclaw.json" in
  let iso := "2026-11-03T08:32:00.123Z" in
  let w2 := writeRaw railwayEnv iso "{b:2}"
              (writeRaw railwayEnv iso "{a:1}" configuredWorld) in
  files configuredWorld !! p = Some (Utf8 "{}")
  /\ size (files w2) = 2
  /\ files w2 !! p = Some (Utf8 "{b:2}")
  /\ files w2 !! backupPath p iso = Some (Utf8 "{a:1}").
Proof. vm_compute. repeat split. Qed.

End ConfigEditorFacts.

(** ** The archive importer *)

Module ImporterFacts.
Import JsString Sys ConfigStore Supervisor Http TarPath Importer Scenarios.
Import JsStringFacts ConfigStoreFacts SupervisorFacts.

(** *** Reading the body *)

Lemma totalBytes_cons chunk body :
  totalBytes (chunk :: body) = (chunk + totalBytes body)%N.
Proof. reflexivity. Qed.

(** a body over the ceiling is refused at the first chunk that crosses it *)
Lemma readChunks_rejects maxBytes : forall rest total kept delivered,
  (total <= maxBytes)%N ->
  (maxBytes < total + totalBytes rest)%N ->
  exists k,
    1 <= k <= length rest
    /\ readChunks maxBytes total kept delivered rest
       = BodyRejected "payload too large" (delivered + k)
    /\ (total + totalBytes (take (k - 1) rest) <= maxBytes)%N
    /\ (maxBytes < total + totalBytes (take k rest))%N.
Proof.
  induction rest as [|chunk rest IH]; intros total kept delivered Hle Hgt.
  - unfold totalBytes in Hgt. simpl in Hgt. lia.
  - rewrite totalBytes_cons in Hgt. cbn [readChunks].
    destruct (N.ltb_spec maxBytes (total + chunk)) as [Hcross|Hfits].
    + exists 1. cbn [length take Nat.sub]. rewrite totalBytes_cons.
      unfold totalBytes at 1 2. cbn [foldr].
      repeat split; try lia. f_equal. lia.
    + destruct (IH (total + chunk)%N (chunk :: kept) (S delivered))
        as (k & Hk & Hread & Hbefore & Hafter); [lia|lia|].
      exists (S k). cbn [length].
      replace (S k - 1) with (S (k - 1)) by lia.
      cbn [take]. rewrite !totalBytes_cons.
      repeat split; try lia.
      rewrite Hread. f_equal. lia.
Qed.

(** a body within the ceiling is buffered whole *)
Lemma readChunks_resolves maxBytes : forall rest total kept delivered,
  (total + totalBytes rest <= maxBytes)%N ->
  readChunks maxBytes total kept delivered rest
  = BodyResolved (rev kept ++ rest).
Proof.
  induction rest as [|chunk rest IH]; intros total kept delivered Hle.
  - cbn [readChunks]. now rewrite app_nil_r.
  - rewrite totalBytes_cons in Hle. cbn [readChunks].
    destruct (N.ltb_spec maxBytes (total + chunk)) as [Hcross|Hfits]; [lia|].
    rewrite IH by lia. cbn [rev]. now rewrite <- app_assoc.
Qed.

(** *** Unpacking *)

Lemma pathJoin_inj dir a b : pathJoin dir a = pathJoin dir b -> a = b.
Proof.
  unfold pathJoin. intros H.
  apply String.app_inj in H. now apply String.app_inj in H.
Qed.

(** unpacking touches the files only *)
Lemma unpackEntry_rest cwd filter w e :
  let w' := unpackEntry cwd filter w e in
  gatewayProc w' = gatewayProc w
  /\ gatewayStarting w' = gatewayStarting w
  /\ gatewaySpawns w' = gatewaySpawns w
  /\ cliSpawns w' = cliSpawns w.
Proof.
  unfold unpackEntry. destruct (filter (entryPath e)); repeat split.
Qed.

(** a file changed by the unpacking is the target of an entry that passed
    the filter *)
Lemma unpack_changes_only_passed cwd filter q : forall es w,
  files (foldl (unpackEntry cwd filter) w es) !! q <> files w !! q ->
  exists e, In e es /\ filter (entryPath e) = true
            /\ q = pathJoin cwd (entryPath e).
Proof.
  induction es as [|e es IH]; intros w Hch; [now contradict Hch|].
  cbn [foldl] in Hch.
  destruct (filter (entryPath e)) eqn:Hf.
  - destruct (decide (q = pathJoin cwd (entryPath e))) as [->|Hq].
    + exists e. repeat split; [now left|assumption].
    + destruct (IH (unpackEntry cwd filter w e)) as (e' & Hin & Hf' & Hq').
      * intros Heq. apply Hch. rewrite Heq.
        unfold unpackEntry, writeFileSync. rewrite Hf. cbn [files set_files].
        now rewrite lookup_insert_ne by congruence.
      * exists e'. repeat split; [now right|assumption|assumption].
  - destruct (IH (unpackEntry cwd filter w e)) as (e' & Hin & Hf' & Hq').
    + intros Heq. apply Hch. rewrite Heq.
      unfold unpackEntry. now rewrite Hf.
    + exists e'. repeat split; [now right|assumption|assumption].
Qed.

(** every entry that passed the filter is on disk afterwards, with the
    payload of the last entry unpacked at its path *)
Lemma unpack_writes_passed cwd filter : forall es w e,
  In e es -> filter (entryPath e) = true ->
  exists e', In e' es /\ entryPath e' = entryPath e
             /\ files (foldl (unpackEntry cwd filter) w es)
                  !! pathJoin cwd (entryPath e)
                = Some (Utf8 (payload e')).
Proof.
  induction es as [|x es IH] using rev_ind; intros w e Hin Hf;
    [now destruct Hin|].
  rewrite foldl_snoc.
  destruct (decide (entryPath x = entryPath e)) as [Hsame|Hdiff].
  - exists x. repeat split; [apply in_or_app; right; now left|assumption|].
    unfold unpackEntry, writeFileSync. rewrite Hsame, Hf.
    cbn [files set_files]. apply lookup_insert_eq.
  - apply in_app_or in Hin as [Hin|[->|[]]]; [|congruence].
    destruct (IH w e Hin Hf) as (e' & Hin' & Hp' & Hl').
    exists e'. repeat split; [apply in_or_app; now left|assumption|].
    unfold unpackEntry, writeFileSync.
    destruct (filter (entryPath x)); [|assumption].
    cbn [files set_files]. rewrite lookup_insert_ne; [assumption|].
    intros Heq. apply Hdiff. eapply pathJoin_inj. eassumption.
Qed.

(** *** The handler *)

Lemma tarExtract_staged env o up w :
  tarExtract (importTmpPath env o) dataRoot looksSafeTarPath
             (stagedWorld env o up w)
  = (if malformed up
     then Some "TAR_BAD_ARCHIVE: Unrecognized archive format" else None,
     unpackedWorld env o up w).
Proof.
  unfold tarExtract, stagedWorld, writeFileSync. cbn [files set_files].
  now rewrite lookup_insert_eq.
Qed.

(** the files after an import: untouched, or unpacked with the temporary
    copy still there, or unpacked with the temporary copy removed *)
Lemma importBackup_files env o up w :
  let after := files (snd (importBackup env o up w)) in
  after = files w
  \/ after = files (unpackedWorld env o up w)
  \/ after = delete (importTmpPath env o) (files (unpackedWorld env o up w)).
Proof.
  cbv zeta. unfold importBackup.
  destruct (negb (isUnderDir (STATE_DIR env) dataRoot)
            || negb (isUnderDir (WORKSPACE_DIR env) dataRoot));
    [now left|].
  destruct (readBodyBuffer (chunks up) importCeiling) as [buffered|err k];
    [|left; apply killAndClear_files].
  destruct (totalBytes buffered =? 0)%N; [left; apply killAndClear_files|].
  fold (stagedWorld env o up w). rewrite tarExtract_staged.
  destruct (malformed up); [right; now left|].
  right; right.
  destruct (isConfigured env _); [|reflexivity].
  pose proof (restartGateway_files env o
                (rmSync (importTmpPath env o) (unpackedWorld env o up w)))
    as Hf.
  destruct (restartGateway env o _) as [[r|err] w5]; cbn [snd] in *;
    rewrite lateExit_files; exact Hf.
Qed.

(** the files after an import that runs to its end *)
Lemma importBackup_files_done env o up w :
  isUnderDir (STATE_DIR env) dataRoot = true ->
  isUnderDir (WORKSPACE_DIR env) dataRoot = true ->
  (0 < totalBytes (chunks up) <= importCeiling)%N ->
  malformed up = false ->
  files (snd (importBackup env o up w))
  = delete (importTmpPath env o) (files (unpackedWorld env o up w)).
Proof.
  intros Hs Hw [Hpos Hfit] Hm. unfold importBackup.
  rewrite Hs, Hw. cbn [negb orb].
  unfold readBodyBuffer. rewrite readChunks_resolves by (simpl; lia).
  cbn [rev app].
  destruct (N.eqb_spec (totalBytes (chunks up)) 0) as [H0|_]; [lia|].
  fold (stagedWorld env o up w). rewrite tarExtract_staged, Hm.
  destruct (isConfigured env _); [|reflexivity].
  pose proof (restartGateway_files env o
                (rmSync (importTmpPath env o) (unpackedWorld env o up w)))
    as Hf.
  destruct (restartGateway env o _) as [[r|err] w5]; cbn [snd] in *;
    rewrite lateExit_files; exact Hf.
Qed.

(** *** Claims about the importer *)

(** C1, as the code has it. The import skips the entries whose path fails
    the predicate and unpacks the others. A file that differs after the
    import is the temporary copy of the upload or the target of an entry
    whose path passes the predicate, so no byte of an entry that fails it
    is written. When the import runs to its end, every entry that passes
    the predicate is on disk, whatever other entries the archive holds. *)
Theorem import_skips_unsafe_entries
    (env : Env) (o : Oracle) (up : Upload) (w : World) :
  let w' := snd (importBackup env o up w) in
  (forall q,
     files w' !! q <> files w !! q ->
     q = importTmpPath env o
     \/ exists e, In e (entries up) /\ unpacked e
                  /\ q = pathJoin dataRoot (entryPath e))
  /\ (isUnderDir (STATE_DIR env) dataRoot = true ->
      isUnderDir (WORKSPACE_DIR env) dataRoot = true ->
      (0 < totalBytes (chunks up) <= importCeiling)%N ->
      malformed up = false ->
      forall e,
        In e (entries up) -> unpacked e ->
        pathJoin dataRoot (entryPath e) <> importTmpPath env o ->
        exists e', In e' (entries up) /\ entryPath e' = entryPath e
                   /\ files w' !! pathJoin dataRoot (entryPath e)
                      = Some (Utf8 (payload e'))).
Proof.
  cbv zeta. split.
  - intros q Hch.
    destruct (decide (q = importTmpPath env o)) as [Htmp|Hq]; [now left|].
    right. apply (unpack_changes_only_passed dataRoot looksSafeTarPath q
                    (entries up) (stagedWorld env o up w)).
    fold (unpackedWorld env o up w).
    assert (Hstaged : files (stagedWorld env o up w) !! q = files w !! q).
    { unfold stagedWorld, writeFileSync. cbn [files set_files].
      rewrite lookup_insert_ne by congruence.
      now rewrite killAndClear_files. }
    rewrite Hstaged. intros Heq. apply Hch.
    destruct (importBackup_files env o up w) as [H|[H|H]]; rewrite H.
    + reflexivity.
    + exact Heq.
    + now rewrite lookup_delete_ne by congruence.
  - intros Hs Hw Hsize Hm e Hin Hsafe Hq.
    rewrite (importBackup_files_done env o up w Hs Hw Hsize Hm).
    rewrite lookup_delete_ne by congruence.
    apply unpack_writes_passed; assumption.
Qed.

Lemma import_skips_unsafe_entries_witness :
  exists e', In e' (entries mixedArchive) /\ entryPath e' = "notes.txt"
             /\ files (snd (importBackup railwayEnv silentOracle mixedArchive
                              freshWorld))
                  !! "/data/notes.txt"
                = Some (Utf8 (payload e')).
Proof.
  destruct (import_skips_unsafe_entries railwayEnv silentOracle mixedArchive
              freshWorld) as [_ Hdone].
  apply (Hdone eq_refl eq_refl ltac:(vm_compute; split; [reflexivity|discriminate])
           eq_refl {| entryPath := "notes.txt"; payload := "hello" |}).
  - now left.
  - reflexivity.
  - vm_compute. discriminate.
Defined.

(** C1 as the specification words it fails: the import of an archive that
    holds [../../etc/passwd] next to a harmless note is not aborted; it
    answers 200 and the note is on the volume afterwards. *)
Lemma unsafe_entry_does_not_abort_import :
  (exists e, In e (entries mixedArchive)
             /\ looksSafeTarPath (entryPath e) = false)
  /\ status (fst (importBackup railwayEnv silentOracle mixedArchive
                    freshWorld)) = 200
  /\ files freshWorld !! "/data/notes.txt" = None
  /\ files (snd (importBackup railwayEnv silentOracle mixedArchive
                   freshWorld)) !! "/data/notes.txt"
     = Some (Utf8 "hello")
  /\ files (snd (importBackup railwayEnv silentOracle mixedArchive
                   freshWorld))
     <> files freshWorld.
Proof.
  assert (Hnote :
    files (snd (importBackup railwayEnv silentOracle mixedArchive freshWorld))
      !! "/data/notes.txt" = Some (Utf8 "hello"))
    by (vm_compute; reflexivity).
  split; [|split; [|split; [|split]]].
  - exists {| entryPath := "../../etc/passwd"; payload := "root::0:0" |}.
    split; [right; now left|reflexivity].
  - vm_compute. reflexivity.
  - reflexivity.
  - exact Hnote.
  - intros Heq. rewrite Heq in Hnote. discriminate Hnote.
Qed.

(** C5, as the code has it. When both directories are under [/data] and
    the body is larger than the ceiling, the upload is cut off at the first
    chunk that crosses the ceiling: the request and its socket are
    destroyed, so the client gets no response; the status 500 with the text
    of the error, which the [catch] block of the handler sends afterwards,
    reaches nobody. No file is written and no child is spawned. The
    gateway child, if there was one, has been sent SIGTERM and forgotten
    before the body was read. *)
Theorem import_oversized_refused
    (env : Env) (o : Oracle) (up : Upload) (w : World) :
  isUnderDir (STATE_DIR env) dataRoot = true ->
  isUnderDir (WORKSPACE_DIR env) dataRoot = true ->
  (importCeiling < totalBytes (chunks up))%N ->
  importDelivery env o up w = ConnectionDestroyed
  /\ importBackup env o up w
     = (plain 500 "Error: payload too large", killAndClear o w)
  /\ files (killAndClear o w) = files w
  /\ gatewaySpawns (killAndClear o w) = gatewaySpawns w
  /\ cliSpawns (killAndClear o w) = cliSpawns w
  /\ gatewayProc (killAndClear o w) = None
  /\ signals (killAndClear o w)
     = match gatewayProc w with
       | Some h => h :: signals w
       | None => signals w
       end
  /\ exists k,
       readBodyBuffer (chunks up) importCeiling
       = BodyRejected "payload too large" k
       /\ 1 <= k <= length (chunks up)
       /\ (totalBytes (take (k - 1) (chunks up)) <= importCeiling)%N
       /\ (importCeiling < totalBytes (take k (chunks up)))%N.
Proof.
  intros Hs Hw Hbig.
  destruct (readChunks_rejects importCeiling (chunks up) 0%N [] 0)
    as (k & Hk & Hread & Hbefore & Hafter); [lia|lia|].
  rewrite N.add_0_l in Hbefore, Hafter. cbn [Nat.add] in Hread.
  split; [|split; [|split; [|split; [|split; [|split; [|split]]]]]].
  - unfold importDelivery. rewrite Hs, Hw. cbn [negb orb].
    unfold readBodyBuffer. rewrite Hread. reflexivity.
  - unfold importBackup. rewrite Hs, Hw. cbn [negb orb].
    unfold readBodyBuffer. rewrite Hread. reflexivity.
  - apply killAndClear_files.
  - unfold killAndClear, exitOf, onExit.
    destruct (gatewayProc w); [destruct (signalledExit o)|]; reflexivity.
  - unfold killAndClear, exitOf, onExit.
    destruct (gatewayProc w); [destruct (signalledExit o)|]; reflexivity.
  - unfold killAndClear. now destruct (gatewayProc w) eqn:E.
  - unfold killAndClear, exitOf, onExit.
    destruct (gatewayProc w); [destruct (signalledExit o)|]; reflexivity.
  - exists k. repeat split; try assumption; lia.
Qed.

Lemma import_oversized_refused_witness :
  importDelivery railwayEnv silentOracle hugeUpload runningWorld
  = ConnectionDestroyed
  /\ signals (killAndClear silentOracle runningWorld) = [0].
Proof.
  destruct (import_oversized_refused railwayEnv silentOracle hugeUpload
              runningWorld eq_refl eq_refl ltac:(vm_compute; reflexivity))
    as (H1 & _ & _ & _ & _ & _ & H2 & _).
  split; [exact H1|exact H2].
Defined.

(** C5 as the specification words it fails: an upload of 400 MB sent while
    the gateway runs gets no response at all, the connection being
    destroyed when the third chunk arrives; what the handler sends then is
    a status 500, not a client error; and the gateway child has been
    stopped by then. *)
Lemma oversized_upload_stops_gateway :
  (importCeiling < totalBytes (chunks hugeUpload))%N
  /\ importDelivery railwayEnv silentOracle hugeUpload runningWorld
     = ConnectionDestroyed
  /\ status (fst (importBackup railwayEnv silentOracle hugeUpload
                    runningWorld)) = 500
  /\ gatewayProc runningWorld = Some 0
  /\ gatewayProc
       (snd (importBackup railwayEnv silentOracle hugeUpload runningWorld))
     = None
  /\ signals
       (snd (importBackup railwayEnv silentOracle hugeUpload runningWorld))
     = [0]
  /\ readBodyBuffer (chunks hugeUpload) importCeiling
     = BodyRejected "payload too large" 3.
Proof. vm_compute. repeat split. Qed.

End ImporterFacts.

(** ** Boot *)

Module BootFacts.
Import JsString Sys ConfigStore Boot Scenarios.
Import JsStringFacts ConfigStoreFacts.

(** *** Deprecated environment names *)

Lemma oldKey_not_newKey s s' : oldKey s <> newKey s'.
Proof. unfold oldKey, newKey. rewrite !append_cons. congruence. Qed.

Lemma newKey_inj s s' : newKey s = newKey s' -> s = s'.
Proof. unfold newKey. apply String.app_inj. Qed.

Lemma migrateOne_new penv s :
  migrateOne penv s !! newKey s = migratedValue penv s.
Proof.
  unfold migrateOne, migratedValue.
  destruct (penv !! oldKey s) as [old|] eqn:Eold; cbn [truthy].
  - destruct (String.eqb old "") eqn:E; cbn [negb andb].
    + now destruct (truthy (penv !! newKey s)).
    + destruct (truthy (penv !! newKey s)); cbn [negb];
        [reflexivity|apply lookup_insert_eq].
  - now destruct (truthy (penv !! newKey s)).
Qed.

Lemma migrateOne_other penv s k :
  k <> newKey s -> migrateOne penv s !! k = penv !! k.
Proof.
  intros Hk. unfold migrateOne.
  destruct (penv !! oldKey s) as [old|]; [|reflexivity].
  destruct (_ && _); [|reflexivity].
  now rewrite lookup_insert_ne by congruence.
Qed.

Lemma migratedValue_ext penv penv' s :
  penv' !! newKey s = penv !! newKey s ->
  penv' !! oldKey s = penv !! oldKey s ->
  migratedValue penv' s = migratedValue penv s.
Proof. intros Hn Ho. unfold migratedValue. now rewrite Hn, Ho. Qed.

Lemma migrate_fold_other : forall l penv k,
  (forall s, In s l -> k <> newKey s) ->
  foldl migrateOne penv l !! k = penv !! k.
Proof.
  induction l as [|s l IH]; intros penv k Hk; [reflexivity|].
  cbn [foldl]. rewrite IH by (intros s' Hs'; apply Hk; now right).
  apply migrateOne_other. apply Hk. now left.
Qed.

Lemma migrate_fold_new : forall l penv s,
  NoDup l -> In s l ->
  foldl migrateOne penv l !! newKey s = migratedValue penv s.
Proof.
  induction l as [|x l IH]; intros penv s Hnd Hin; [now destruct Hin|].
  apply NoDup_cons in Hnd as [Hx Hnd]. rewrite list_elem_of_In in Hx.
  cbn [foldl].
  destruct Hin as [->|Hin].
  - rewrite migrate_fold_other.
    + apply migrateOne_new.
    + intros s' Hs' Heq. apply newKey_inj in Heq. now subst.
  - rewrite IH by assumption.
    assert (Hne : s <> x) by (intros ->; contradiction).
    apply migratedValue_ext; apply migrateOne_other.
    + intros Heq. apply newKey_inj in Heq. contradiction.
    + apply oldKey_not_newKey.
Qed.

Lemma migratedSuffixes_NoDup : NoDup migratedSuffixes.
Proof. refine (bool_decide_unpack _ _). vm_compute. exact I. Qed.

(** the loop settles every name at a value the next run leaves alone *)
Lemma migratedValue_settled penv penv' s :
  penv' !! newKey s = migratedValue penv s ->
  penv' !! oldKey s = penv !! oldKey s ->
  migratedValue penv' s = penv' !! newKey s.
Proof.
  intros Hn Ho. unfold migratedValue at 1. rewrite Ho, Hn.
  unfold migratedValue.
  destruct (truthy (penv !! newKey s)) eqn:E1;
    destruct (truthy (penv !! oldKey s)) eqn:E2;
    now rewrite ?E1, ?E2.
Qed.

(** The loop over the deprecated names gives each [OPENCLAW_*] name that
    is unset or empty the value of its non-empty [CLAWDBOT_*] name and
    leaves a set one alone; no other name changes, and running the loop a
    second time changes nothing. *)
Theorem migrateEnvNames_fills_unset_only (penv : gmap string string) :
  (forall suffix, In suffix migratedSuffixes ->
     migrateEnvNames penv !! newKey suffix = migratedValue penv suffix)
  /\ (forall k, (forall suffix, In suffix migratedSuffixes ->
                                k <> newKey suffix) ->
                migrateEnvNames penv !! k = penv !! k)
  /\ migrateEnvNames (migrateEnvNames penv) = migrateEnvNames penv.
Proof.
  assert (Hnew : forall penv0 suffix, In suffix migratedSuffixes ->
            migrateEnvNames penv0 !! newKey suffix
            = migratedValue penv0 suffix).
  { intros penv0 suffix Hin. apply migrate_fold_new;
      [apply migratedSuffixes_NoDup|assumption]. }
  assert (Hother : forall penv0 k,
            (forall suffix, In suffix migratedSuffixes ->
                            k <> newKey suffix) ->
            migrateEnvNames penv0 !! k = penv0 !! k).
  { intros penv0 k Hk. now apply migrate_fold_other. }
  split; [apply Hnew|split; [apply Hother|]].
  apply map_eq. intros k.
  destruct (decide (k ∈ newKey <$> migratedSuffixes)) as [Hin|Hno].
  - apply list_elem_of_fmap in Hin as (s & -> & Hin).
    apply list_elem_of_In in Hin.
    rewrite Hnew by assumption.
    apply (migratedValue_settled penv); [now apply Hnew|].
    apply Hother. intros s' _. apply oldKey_not_newKey.
  - apply Hother. intros s Hin Heq. apply Hno.
    apply list_elem_of_fmap. exists s. split; [assumption|].
    now apply list_elem_of_In.
Qed.

Lemma migrateEnvNames_fills_unset_only_witness :
  migrateEnvNames {[ "CLAWDBOT_STATE_DIR" := "/data/.clawdbot" ]}
    !! "OPENCLAW_STATE_DIR"
  = Some "/data/.clawdbot"
  /\ migrateEnvNames {[ "CLAWDBOT_STATE_DIR" := "/data/.clawdbot" ]}
       !! "SETUP_PASSWORD"
     = None.
Proof.
  destruct (migrateEnvNames_fills_unset_only
              {[ "CLAWDBOT_STATE_DIR" := "/data/.clawdbot" ]})
    as (Hnew & Hother & _).
  split.
  - apply (Hnew "STATE_DIR"). cbn. tauto.
  - apply (Hother "SETUP_PASSWORD").
    intros suffix Hin. cbn in Hin.
    repeat (destruct Hin as [<-|Hin]; [discriminate|]). destruct Hin.
Defined.

(** *** The legacy configuration file *)

Lemma legacy_paths_distinct env :
  pathJoin (STATE_DIR env) "clawdbot.json" <> canonicalConfig env
  /\ pathJoin (STATE_DIR env) "moltbot.json" <> canonicalConfig env
  /\ pathJoin (STATE_DIR env) "clawdbot.json"
     <> pathJoin (STATE_DIR env) "moltbot.json".
Proof.
  unfold canonicalConfig, pathJoin.
  repeat split; intros H; apply String.app_inj in H; discriminate H.
Qed.

Lemma isConfigured_canonical env w :
  truthy (OPENCLAW_CONFIG_PATH env) = false ->
  isConfigured env w = existsSync (canonicalConfig env) w.
Proof.
  intros Hov. unfold isConfigured, resolveConfigCandidates, canonicalConfig.
  destruct (OPENCLAW_CONFIG_PATH env) as [explicit|]; cbn [truthy] in Hov.
  - apply negb_false_iff in Hov. rewrite Hov. cbn [existsb].
    apply orb_false_r.
  - cbn [existsb]. apply orb_false_r.
Qed.

Lemma migrateLegacy_cases (env : Env) (w : World) :
  let canonical := canonicalConfig env in
  let claw := pathJoin (STATE_DIR env) "clawdbot.json" in
  let molt := pathJoin (STATE_DIR env) "moltbot.json" in
  let w' := migrateLegacyConfigFile env w in
  (truthy (OPENCLAW_CONFIG_PATH env) = true
   \/ existsSync canonical w = true -> w' = w)
  /\ (truthy (OPENCLAW_CONFIG_PATH env) = false ->
      files w' !! canonical
      = match files w !! canonical, files w !! claw with
        | Some data, _ => Some data
        | None, Some data => Some data
        | None, None => files w !! molt
        end
      /\ isConfigured env w'
         = existsSync canonical w || existsSync claw w || existsSync molt w
      /\ (files w !! canonical = None -> is_Some (files w !! claw) ->
          files w' !! claw = None /\ files w' !! molt = files w !! molt)
      /\ (forall q, q <> canonical -> q <> claw -> q <> molt ->
                    files w' !! q = files w !! q)).
Proof.
  cbv zeta.
  destruct (legacy_paths_distinct env) as (Hcc & Hmc & Hcm).
  split.
  - unfold migrateLegacyConfigFile. intros [Hov|Hex].
    + now rewrite Hov.
    + rewrite Hex. now destruct (truthy _).
  - intros Hov. rewrite (isConfigured_canonical env _ Hov).
    unfold migrateLegacyConfigFile, legacyNames. rewrite Hov.
    cbn [renameFirstLegacy]. unfold renameSync, existsSync.
    destruct (files w !! canonicalConfig env) as [d0|] eqn:E0.
    { rewrite E0. split; [reflexivity|split; [reflexivity|split]].
      - intros H. discriminate H.
      - reflexivity. }
    destruct (files w !! pathJoin (STATE_DIR env) "clawdbot.json")
      as [d1|] eqn:E1.
    { cbn [files set_files]. rewrite lookup_insert_eq.
      split; [reflexivity|split; [reflexivity|split]].
      - intros _ _. split.
        + rewrite lookup_insert_ne by congruence. apply lookup_delete_eq.
        + rewrite lookup_insert_ne by congruence.
          now rewrite lookup_delete_ne by congruence.
      - intros q Hq1 Hq2 _. rewrite lookup_insert_ne by congruence.
        now rewrite lookup_delete_ne by congruence. }
    destruct (files w !! pathJoin (STATE_DIR env) "moltbot.json")
      as [d2|] eqn:E2.
    { cbn [files set_files]. rewrite lookup_insert_eq.
      split; [reflexivity|split; [reflexivity|split]].
      - intros _ [x Hx]. discriminate Hx.
      - intros q Hq1 _ Hq3. rewrite lookup_insert_ne by congruence.
        now rewrite lookup_delete_ne by congruence. }
    rewrite E0. split; [reflexivity|split; [reflexivity|split]].
    + intros _ [x Hx]. discriminate Hx.
    + reflexivity.
Qed.

(** what the migration does when no override is set and the canonical
    file is missing: a rename of the first legacy file, or nothing *)
Lemma migrateLegacy_renames (env : Env) (w : World) :
  truthy (OPENCLAW_CONFIG_PATH env) = false ->
  files w !! canonicalConfig env = None ->
  migrateLegacyConfigFile env w
  = match files w !! pathJoin (STATE_DIR env) "clawdbot.json" with
    | Some data =>
        set_files (<[canonicalConfig env := data]>
                     (delete (pathJoin (STATE_DIR env) "clawdbot.json")
                        (files w))) w
    | None =>
        match files w !! pathJoin (STATE_DIR env) "moltbot.json" with
        | Some data =>
            set_files (<[canonicalConfig env := data]>
                         (delete (pathJoin (STATE_DIR env) "moltbot.json")
                            (files w))) w
        | None => w
        end
    end.
Proof.
  intros Hov Hcanon.
  unfold migrateLegacyConfigFile, legacyNames. rewrite Hov.
  unfold existsSync at 1. rewrite Hcanon.
  cbn [renameFirstLegacy]. unfold renameSync, existsSync.
  destruct (files w !! pathJoin (STATE_DIR env) "clawdbot.json") as [d1|];
    [reflexivity|].
  now destruct (files w !! pathJoin (STATE_DIR env) "moltbot.json") as [d2|].
Qed.

(** The migration at boot does nothing when an override path is set or the
    canonical file exists. Otherwise the first legacy file that exists, in
    the order [clawdbot.json], [moltbot.json], is moved to the canonical
    name with its content: afterwards the canonical name holds that
    content and the legacy name holds nothing. At most one file is moved,
    no other file changes, nothing but the files changes, and the system
    is configured afterwards exactly when one of the three files existed. *)
Theorem migrateLegacy_moves_first_legacy (env : Env) (w : World) :
  let canonical := canonicalConfig env in
  let claw := pathJoin (STATE_DIR env) "clawdbot.json" in
  let molt := pathJoin (STATE_DIR env) "moltbot.json" in
  let w' := migrateLegacyConfigFile env w in
  (truthy (OPENCLAW_CONFIG_PATH env) = true
   \/ existsSync canonical w = true -> w' = w)
  /\ (truthy (OPENCLAW_CONFIG_PATH env) = false ->
      files w' !! canonical
      = match files w !! canonical, files w !! claw with
        | Some data, _ => Some data
        | None, Some data => Some data
        | None, None => files w !! molt
        end
      /\ isConfigured env w'
         = existsSync canonical w || existsSync claw w || existsSync molt w
      /\ (files w !! canonical = None -> is_Some (files w !! claw) ->
          files w' !! claw = None /\ files w' !! molt = files w !! molt)
      /\ (forall q, q <> canonical -> q <> claw -> q <> molt ->
                    files w' !! q = files w !! q))
  /\ (truthy (OPENCLAW_CONFIG_PATH env) = false ->
      files w !! canonical = None ->
      (forall data, files w !! claw = Some data ->
         w' = set_files (<[canonical := data]> (delete claw (files w))) w)
      /\ (forall data, files w !! claw = None ->
            files w !! molt = Some data ->
            w' = set_files (<[canonical := data]> (delete molt (files w))) w
            /\ files w' !! molt = None /\ files w' !! claw = None)
      /\ (files w !! claw = None -> files w !! molt = None -> w' = w)).
Proof.
  cbv zeta.
  destruct (migrateLegacy_cases env w) as [Hsame Hmove]. cbv zeta in *.
  destruct (legacy_paths_distinct env) as (Hcc & Hmc & Hcm).
  split; [exact Hsame|split; [exact Hmove|]].
  intros Hov Hcanon. rewrite (migrateLegacy_renames env w Hov Hcanon).
  split; [|split].
  - intros data ->. reflexivity.
  - intros data Hc Hm. rewrite Hc, Hm. cbn [files set_files].
    split; [reflexivity|split].
    + rewrite lookup_insert_ne by congruence. apply lookup_delete_eq.
    + rewrite lookup_insert_ne by congruence.
      now rewrite lookup_delete_ne by congruence.
  - now intros -> ->.
Qed.

Lemma migrateLegacy_moves_first_legacy_witness :
  files (migrateLegacyConfigFile railwayEnv
           (writeFileSync "/data/.openclaw/moltbot.json" (Utf8 "{}")
              freshWorld))
    !! "/data/.openclaw/openclaw.json"
  = Some (Utf8 "{}")
  /\ files (migrateLegacyConfigFile railwayEnv
              (writeFileSync "/data/.openclaw/moltbot.json" (Utf8 "{}")
                 freshWorld))
       !! "/data/.openclaw/moltbot.json"
     = None.
Proof.
  destruct (migrateLegacy_moves_first_legacy railwayEnv
              (writeFileSync "/data/.openclaw/moltbot.json" (Utf8 "{}")
                 freshWorld))
    as (_ & Hmove & Hexact).
  destruct (Hmove eq_refl) as (Hcanon & _).
  destruct (Hexact eq_refl eq_refl) as (_ & Hmolt & _).
  destruct (Hmolt (Utf8 "{}") eq_refl eq_refl) as (_ & Hgone & _).
  split; [exact Hcanon|exact Hgone].
Defined.

(** *** The gateway token *)

Lemma hex_plainLead c : isHexDigit c = true -> plainLead c.
Proof.
  destruct c as [[] [] [] [] [] [] [] []]; intros H;
    try (vm_compute in H; discriminate H);
    repeat split; intros; reflexivity.
Qed.

Lemma forallb_string_at f s before c after :
  forallb_string f s = true -> s = before +:+ String c after -> f c = true.
Proof.
  revert s. induction before as [|b before IH]; intros s Hall ->.
  - rewrite append_nil in Hall. cbn [forallb_string] in Hall.
    now apply andb_true_iff in Hall as [Hc _].
  - rewrite append_cons in Hall. cbn [forallb_string] in Hall.
    apply andb_true_iff in Hall as [_ Hrest]. now apply (IH _ Hrest).
Qed.

Lemma trim_hex_token s : isHexToken s = true -> trim s = s /\ s <> "".
Proof.
  unfold isHexToken. intros H. apply andb_true_iff in H as [Hne Hhex].
  apply negb_true_iff in Hne. apply String.eqb_neq in Hne.
  split; [|assumption].
  apply trim_plain. intros before c after Hs.
  apply hex_plainLead. eapply forallb_string_at; eassumption.
Qed.

(** what [resolveGatewayToken] does when the environment gives no token *)
Lemma resolveGatewayToken_file textOfUpload env envTok generated w :
  truthy envTok = false ->
  resolveGatewayToken textOfUpload env envTok generated w
  = match files w !! pathJoin (STATE_DIR env) "gateway.token" with
    | Some data =>
        if String.eqb (trim (readUtf8 textOfUpload data)) ""
        then (generated,
              writeFileSync (pathJoin (STATE_DIR env) "gateway.token")
                (Utf8 generated) w)
        else (trim (readUtf8 textOfUpload data), w)
    | None =>
        (generated,
         writeFileSync (pathJoin (STATE_DIR env) "gateway.token")
           (Utf8 generated) w)
    end.
Proof.
  intros Hno. unfold resolveGatewayToken.
  destruct envTok as [tok|]; cbn [truthy] in Hno.
  - apply negb_false_iff in Hno. rewrite Hno. cbn [negb].
    destruct (files w !! _) as [data|]; [|reflexivity].
    cbv zeta.
    destruct (String.eqb (trim (readUtf8 textOfUpload data)) "");
      reflexivity.
  - destruct (files w !! _) as [data|]; [|reflexivity].
    cbv zeta.
    destruct (String.eqb (trim (readUtf8 textOfUpload data)) "");
      reflexivity.
Qed.

(** The gateway token is stable. When the environment gives a token, the
    first call of [resolveGatewayToken()] returns it and touches nothing.
    Otherwise it returns the text of the token file, trimmed, when that is
    not empty, and touches nothing; and when there is no such file or it
    holds white space only, it returns the fresh token and writes it to
    the file. In every case the token is not empty, and every later call
    returns the same token and writes nothing, whatever the random
    generator would give. *)
Theorem gateway_token_stable
    (textOfUpload : Upload -> string) (env : Env) (envTok : option string)
    (generated : string) (w : World) :
  isHexToken generated = true ->
  let tokenPath := pathJoin (STATE_DIR env) "gateway.token" in
  let tok := fst (resolveGatewayToken textOfUpload env envTok generated w) in
  let w1 := snd (resolveGatewayToken textOfUpload env envTok generated w) in
  tok <> ""
  /\ (truthy envTok = true -> envTok = Some tok /\ w1 = w)
  /\ (truthy envTok = false ->
      forall data, files w !! tokenPath = Some data ->
                   trim (readUtf8 textOfUpload data) <> "" ->
                   tok = trim (readUtf8 textOfUpload data) /\ w1 = w)
  /\ (truthy envTok = false ->
      (forall data, files w !! tokenPath = Some data ->
                    trim (readUtf8 textOfUpload data) = "") ->
      tok = generated
      /\ w1 = writeFileSync tokenPath (Utf8 generated) w
      /\ files w1 !! tokenPath = Some (Utf8 generated))
  /\ forall generated',
       resolveGatewayToken textOfUpload env envTok generated' w1 = (tok, w1).
Proof.
  intros Hhex. destruct (trim_hex_token generated Hhex) as [Htrim Hne].
  cbv zeta.
  destruct (truthy envTok) eqn:Henv.
  - (* the environment gives the token *)
    assert (Hret : forall g w0,
              resolveGatewayToken textOfUpload env envTok g w0
              = (default EmptyString envTok, w0)
              /\ envTok = Some (default EmptyString envTok)
              /\ default EmptyString envTok <> "").
    { intros g w0. unfold resolveGatewayToken.
      destruct envTok as [tok|]; [|discriminate Henv].
      cbn [truthy] in Henv. rewrite Henv. cbn [default id].
      repeat split. apply negb_true_iff, String.eqb_neq in Henv.
      exact Henv. }
    destruct (Hret generated w) as (-> & Hsome & Hfull). cbn [fst snd].
    split; [exact Hfull|split; [now split|split; [discriminate|split]]].
    + discriminate.
    + intros g. apply Hret.
  - (* the token comes from the file, or is made *)
    rewrite (resolveGatewayToken_file textOfUpload env envTok generated w
               Henv).
    assert (Hagain : forall tok w1 data,
              files w1 !! pathJoin (STATE_DIR env) "gateway.token"
              = Some data ->
              trim (readUtf8 textOfUpload data) = tok -> tok <> "" ->
              forall g,
                resolveGatewayToken textOfUpload env envTok g w1
                = (tok, w1)).
    { intros tok w1 data Hl Ht Hn g.
      rewrite (resolveGatewayToken_file textOfUpload env envTok g w1 Henv).
      rewrite Hl, Ht. apply String.eqb_neq in Hn. now rewrite Hn. }
    assert (Hmade :
      files (writeFileSync (pathJoin (STATE_DIR env) "gateway.token")
               (Utf8 generated) w)
        !! pathJoin (STATE_DIR env) "gateway.token"
      = Some (Utf8 generated)).
    { unfold writeFileSync. cbn [files set_files]. apply lookup_insert_eq. }
    destruct (files w !! pathJoin (STATE_DIR env) "gateway.token")
      as [data|] eqn:E.
    + destruct (String.eqb_spec (trim (readUtf8 textOfUpload data)) "")
        as [Hempty|Hfull]; cbn [fst snd].
      * split; [exact Hne|split; [discriminate|split; [|split]]].
        -- intros _ d [= <-] Hd. contradiction.
        -- intros _ _. repeat split. exact Hmade.
        -- apply (Hagain generated _ (Utf8 generated) Hmade Htrim Hne).
      * split; [exact Hfull|split; [discriminate|split; [|split]]].
        -- intros _ d [= <-] _. now split.
        -- intros _ Hall. now destruct (Hfull (Hall data eq_refl)).
        -- apply (Hagain _ w data E eq_refl Hfull).
    + cbn [fst snd].
      split; [exact Hne|split; [discriminate|split; [|split]]].
      * intros _ d Hd. discriminate Hd.
      * intros _ _. repeat split. exact Hmade.
      * apply (Hagain generated _ (Utf8 generated) Hmade Htrim Hne).
Qed.

Lemma gateway_token_stable_witness :
  resolveGatewayToken (fun _ => EmptyString) railwayEnv None
    "00ff00ff00ff00ff00ff00ff00ff00ff00ff00ff00ff00ff00ff00ff00ff00ff"
    (snd (resolveGatewayToken (fun _ => EmptyString) railwayEnv None
            "a1b2c3d4e5f60718293a4b5c6d7e8f90a1b2c3d4e5f60718293a4b5c6d7e8f90"
            freshWorld))
  = ("a1b2c3d4e5f60718293a4b5c6d7e8f90a1b2c3d4e5f60718293a4b5c6d7e8f90",
     snd (resolveGatewayToken (fun _ => EmptyString) railwayEnv None
            "a1b2c3d4e5f60718293a4b5c6d7e8f90a1b2c3d4e5f60718293a4b5c6d7e8f90"
            freshWorld)).
Proof.
  destruct (gateway_token_stable (fun _ => EmptyString) railwayEnv None
              "a1b2c3d4e5f60718293a4b5c6d7e8f90a1b2c3d4e5f60718293a4b5c6d7e8f90"
              freshWorld eq_refl) as (_ & _ & _ & _ & Hagain).
  apply Hagain.
Defined.

End BootFacts.

(** ** More on the supervisor *)

Module SupervisorMoreFacts.
Import JsString Sys ConfigStore Supervisor SupervisorViews Scenarios.
Import ConfigStoreFacts SupervisorFacts.

(** *** The readiness probe *)

Lemma clock_monotone pe :
  clockAdvances pe -> forall i k, i <= k -> (clockAt pe i <= clockAt pe k)%Z.
Proof.
  intros [_ Hstep] i k Hik. induction Hik as [|k Hik IH]; [lia|].
  specialize (Hstep k). lia.
Qed.

Lemma waitLoop_true_found timeoutMs pe : forall fuel i,
  waitLoop fuel timeoutMs pe i = Some true ->
  exists k, i <= k
            /\ (clockAt pe k - startedAt pe < timeoutMs)%Z
            /\ roundResponds (fetchAnswers pe k) = true.
Proof.
  induction fuel as [|fuel IH]; intros i H; cbn [waitLoop] in H;
    [discriminate|].
  destruct (Z.ltb_spec (clockAt pe i - startedAt pe) timeoutMs)
    as [Hlt|Hge]; [|discriminate].
  destruct (roundResponds (fetchAnswers pe i)) eqn:Hr.
  - exists i. repeat split; [lia|assumption|assumption].
  - destruct (IH (S i) H) as (k & Hk & Hin & Hresp).
    exists k. repeat split; [lia|assumption|assumption].
Qed.

Lemma waitLoop_finds timeoutMs pe :
  clockAdvances pe ->
  forall fuel i k,
    i <= k ->
    (clockAt pe k - startedAt pe < timeoutMs)%Z ->
    roundResponds (fetchAnswers pe k) = true ->
    (timeoutMs - (clockAt pe i - startedAt pe) <= 250 * Z.of_nat fuel)%Z ->
    waitLoop (S fuel) timeoutMs pe i = Some true.
Proof.
  intros Hadv. pose proof (clock_monotone pe Hadv) as Hmono.
  destruct Hadv as [H0 Hstep].
  induction fuel as [|fuel IH]; intros i k Hik Hin Hresp Hfuel;
    cbn [waitLoop];
    pose proof (Hmono i k Hik) as Hle;
    destruct (Z.ltb_spec (clockAt pe i - startedAt pe) timeoutMs)
      as [Hlt|Hge]; try lia.
  destruct (roundResponds (fetchAnswers pe i)) eqn:Hr; [reflexivity|].
  assert (Hne : i <> k) by (intros ->; congruence).
  apply (IH (S i) k); try assumption; [lia|].
  specialize (Hstep i). lia.
Qed.

(** With a clock that advances by the sleep of each round, the readiness
    probe always ends within its fuel, and it reports success exactly when
    some round that starts before the deadline gets a response from one of
    the two paths. *)
Theorem probe_reports_first_answer (timeoutMs : Z) (pe : ProbeEnv) :
  (0 <= timeoutMs)%Z ->
  clockAdvances pe ->
  waitLoop (probeFuel timeoutMs) timeoutMs pe 0
  = Some (waitForGatewayReady timeoutMs pe)
  /\ (waitForGatewayReady timeoutMs pe = true
      <-> exists i, (clockAt pe i - startedAt pe < timeoutMs)%Z
                    /\ roundResponds (fetchAnswers pe i) = true).
Proof.
  intros Ht Hadv.
  pose proof (waitForGatewayReady_decides timeoutMs pe Ht Hadv) as Hdec.
  split; [assumption|]. split.
  - intros Htrue. rewrite Htrue in Hdec.
    destruct (waitLoop_true_found _ _ _ _ Hdec) as (k & _ & Hin & Hr).
    now exists k.
  - intros (k & Hin & Hr).
    assert (Hf : probeFuel timeoutMs = S (Z.to_nat (timeoutMs / 250) + 1))
      by (unfold probeFuel; lia).
    rewrite Hf in Hdec.
    rewrite (waitLoop_finds timeoutMs pe Hadv _ 0 k) in Hdec;
      [congruence|lia|assumption|assumption|].
    destruct Hadv as [H0 _].
    rewrite Nat2Z.inj_add, Z2Nat.id by (apply Z.div_pos; lia).
    pose proof (Z.mul_succ_div_gt timeoutMs 250 ltac:(lia)). lia.
Qed.

Lemma probe_reports_first_answer_witness :
  waitForGatewayReady 20000 promptProbe = true
  <-> exists i, (clockAt promptProbe i - startedAt promptProbe < 20000)%Z
                /\ roundResponds (fetchAnswers promptProbe i) = true.
Proof.
  apply (probe_reports_first_answer 20000 promptProbe); [lia|].
  split; [reflexivity|]. intros i. simpl. lia.
Defined.

(** *** One start attempt at a time *)

(** the first call into a stopped, configured system, whoever waits *)
Lemma first_call_spawns_from env t c w ws outs :
  isConfigured env w = true -> gatewayProc w = None ->
  gatewayStarting w = NoAttempt ->
  step env t (EvCall c) {| world := w; waiters := ws; outcomes := outs |}
  = {| world := set_gatewayStarting Probing
                  (spawnGateway env (set_lastGatewayError None w));
       waiters := c :: ws; outcomes := outs |}.
Proof.
  intros Hc Hp Hs.
  unfold step, ensure_enter, attempt_begin, startGateway.
  cbn [world waiters outcomes].
  rewrite Hc, Hp, Hs. cbn [gatewayProc set_lastGatewayError]. rewrite Hp.
  now rewrite (isConfigured_files env w (set_lastGatewayError None w) eq_refl),
    Hc.
Qed.


Ltac unfold_step :=
  unfold step, deliver, ensure_enter, attempt_begin, attempt_probed,
    attempt_diagnosed, attempt_undiagnosed, attempt_catch, settle,
    runDoctor_begin, runDoctor_end, runDoctor_failed, startGateway,
    spawnGateway, onExit, onSpawnError in *.

(** the configuration is looked up in the files only, whatever else the
    world holds *)
Ltac same_files :=
  repeat match goal with
         | |- context [isConfigured ?env (set_lastGatewayError ?v ?w)] =>
             rewrite (isConfigured_files env w (set_lastGatewayError v w)
                        eq_refl)
         | H : context [isConfigured ?env (set_lastGatewayError ?v ?w)] |- _ =>
             rewrite (isConfigured_files env w (set_lastGatewayError v w)
                        eq_refl) in H
         end.

(** A gateway child is spawned by nothing but a call of
    [ensureGatewayRunning()] that finds the system configured, no child
    handle and no start attempt in flight; that call spawns one child and
    leaves an attempt in flight. So no event spawns a child while an
    attempt is in flight or while a handle is held. *)
Theorem gateway_spawned_only_when_stopped
    (env : Env) (now : Z) (ev : Event) (s : System) :
  let s' := step env now ev s in
  (gatewaySpawns (world s') = gatewaySpawns (world s)
   \/ (exists c, ev = EvCall c)
      /\ isConfigured env (world s) = true
      /\ gatewayProc (world s) = None
      /\ gatewayStarting (world s) = NoAttempt
      /\ gatewaySpawns (world s')
         = clawArgs env (gatewayArgs env) :: gatewaySpawns (world s)
      /\ gatewayStarting (world s') = Probing)
  /\ (gatewayStarting (world s) <> NoAttempt ->
      gatewaySpawns (world s') = gatewaySpawns (world s))
  /\ (gatewayProc (world s) <> None ->
      gatewaySpawns (world s') = gatewaySpawns (world s)).
Proof.
  cbv zeta.
  assert (Hmain :
    gatewaySpawns (world (step env now ev s)) = gatewaySpawns (world s)
    \/ (exists c, ev = EvCall c)
       /\ isConfigured env (world s) = true
       /\ gatewayProc (world s) = None
       /\ gatewayStarting (world s) = NoAttempt
       /\ gatewaySpawns (world (step env now ev s))
          = clawArgs env (gatewayArgs env) :: gatewaySpawns (world s)
       /\ gatewayStarting (world (step env now ev s)) = Probing).
  { destruct ev as [c|ready|r|exit signal iso|err|text].
    - destruct (isConfigured env (world s)) eqn:Hc;
        [|left; unfold step, ensure_enter; now rewrite Hc].
      destruct (gatewayProc (world s)) as [h|] eqn:Hp;
        [left; unfold step, ensure_enter; now rewrite Hc, Hp|].
      destruct (gatewayStarting (world s)) eqn:Hs;
        [|left; unfold step, ensure_enter; now rewrite Hc, Hp, Hs..].
      right. split; [now exists c|].
      destruct s as [w ws outs]. cbn [world] in *.
      rewrite (first_call_spawns_from env now c w ws outs Hc Hp Hs).
      repeat split.
    - left. unfold_step.
      repeat (case_match; simpl in *; simplify_eq); reflexivity.
    - left. unfold_step.
      repeat (case_match; simpl in *; simplify_eq); reflexivity.
    - left. reflexivity.
    - left. reflexivity.
    - left. unfold_step.
      repeat (case_match; simpl in *; simplify_eq); reflexivity. }
  split; [exact Hmain|split].
  - intros Hs. destruct Hmain as [H|(_ & _ & _ & Hs' & _)];
      [assumption|contradiction].
  - intros Hp. destruct Hmain as [H|(_ & _ & Hp' & _)];
      [assumption|contradiction].
Qed.

Lemma gateway_spawned_only_when_stopped_witness :
  gatewaySpawns (world (step railwayEnv 2000 (EvCall 2) (boot runningWorld)))
  = gatewaySpawns runningWorld.
Proof.
  destruct (gateway_spawned_only_when_stopped railwayEnv 2000 (EvCall 2)
              (boot runningWorld)) as (_ & _ & Hheld).
  apply Hheld. discriminate.
Defined.

(** *** What one turn of the event loop can do *)

(** The five kinds of turn: a quiet one, a call that returns at once, a
    call that joins the attempt in flight, a call that starts an attempt,
    and the end of an attempt. *)
Lemma step_cases (env : Env) (now : Z) (ev : Event) (s : System) :
  let s' := step env now ev s in
  (waiters s' = waiters s /\ outcomes s' = outcomes s
   /\ gatewaySpawns (world s') = gatewaySpawns (world s)
   /\ (gatewayProc (world s') = gatewayProc (world s)
       \/ gatewayProc (world s') = None)
   /\ (gatewayStarting (world s') = NoAttempt ->
       gatewayStarting (world s) = NoAttempt)
   /\ (forall c, ev <> EvCall c))
  \/ (exists c r, ev = EvCall c /\ world s' = world s
                  /\ waiters s' = waiters s
                  /\ outcomes s' = (c, Resolved r) :: outcomes s)
  \/ (exists c, ev = EvCall c /\ world s' = world s
                /\ waiters s' = c :: waiters s
                /\ outcomes s' = outcomes s
                /\ gatewayStarting (world s) <> NoAttempt)
  \/ (exists c, ev = EvCall c
                /\ gatewayProc (world s) = None
                /\ gatewayStarting (world s) = NoAttempt
                /\ world s'
                   = set_gatewayStarting Probing
                       (spawnGateway env
                          (set_lastGatewayError None (world s)))
                /\ waiters s' = c :: waiters s
                /\ outcomes s' = outcomes s)
  \/ (exists st, (forall c, ev <> EvCall c)
                 /\ gatewayStarting (world s) <> NoAttempt
                 /\ gatewayStarting (world s') = NoAttempt
                 /\ waiters s' = []
                 /\ outcomes s'
                    = map (fun c => (c, outcomeOf st)) (waiters s)
                      ++ outcomes s
                 /\ gatewaySpawns (world s') = gatewaySpawns (world s)
                 /\ gatewayProc (world s') = gatewayProc (world s)).
Proof.
  cbv zeta. destruct s as [w ws outs]. cbn [world waiters outcomes].
  destruct ev as [c|ready|r|exit signal iso|err|text].
  - right. destruct (isConfigured env w) eqn:Hc.
    2:{ left. exists c, notConfigured.
        unfold step, ensure_enter. cbn [world]. rewrite Hc.
        repeat split. }
    destruct (gatewayProc w) as [h|] eqn:Hp.
    { left. exists c, okTrue.
      unfold step, ensure_enter. cbn [world]. rewrite Hc, Hp.
      repeat split. }
    right. destruct (gatewayStarting w) eqn:Hs.
    + right. left. exists c.
      rewrite (first_call_spawns_from env now c w ws outs Hc Hp Hs).
      repeat split; assumption.
    + left. exists c. unfold step, ensure_enter. cbn [world].
      rewrite Hc, Hp, Hs. cbn [world waiters outcomes].
      repeat split. discriminate.
    + left. exists c. unfold step, ensure_enter. cbn [world].
      rewrite Hc, Hp, Hs. cbn [world waiters outcomes].
      repeat split. discriminate.
  - unfold step. cbn [world waiters outcomes].
    destruct (gatewayStarting w) eqn:Hs.
    + left. cbn. repeat split; auto; try discriminate; intros; congruence.
    + destruct ready.
      * do 4 right. exists Fulfilled. cbn.
        repeat split; try discriminate; intros; congruence.
      * unfold attempt_probed, attempt_catch, runDoctor_begin.
        destruct (doctorRateLimited now _) eqn:Hd.
        -- do 4 right. exists (Rejected notReadyError). cbn.
           repeat split; try discriminate; intros; congruence.
        -- left. cbn. repeat split; auto; try discriminate; intros; congruence.
    + left. cbn. repeat split; auto; try discriminate; intros; congruence.
  - unfold step. cbn [world waiters outcomes].
    destruct (gatewayStarting w) eqn:Hs.
    + left. cbn. repeat split; auto; try discriminate; intros; congruence.
    + left. cbn. repeat split; auto; try discriminate; intros; congruence.
    + do 4 right. exists (Rejected err). cbn.
      repeat split; try discriminate; intros; congruence.
  - left. cbn. repeat split; auto; try discriminate; intros; congruence.
  - left. cbn. repeat split; auto; try discriminate; intros; congruence.
  - unfold step. cbn [world waiters outcomes].
    destruct (gatewayStarting w) eqn:Hs.
    + left. cbn. repeat split; auto; try discriminate; intros; congruence.
    + left. cbn. repeat split; auto; try discriminate; intros; congruence.
    + do 4 right. exists (Rejected err). cbn.
      repeat split; try discriminate; intros; congruence.
Qed.

(** *** No call is left behind *)

Lemma ended_in c s : ended c s <-> In c (map fst (outcomes s)).
Proof.
  unfold ended, outcomeFor. split.
  - intros [out H].
    destruct (List.find _ (outcomes s)) as [[c' o]|] eqn:E; [|discriminate].
    apply find_some in E as [Hin Hc]. cbn [fst] in Hc.
    apply Nat.eqb_eq in Hc. subst c'.
    apply in_map_iff. now exists (c, o).
  - intros Hin. apply in_map_iff in Hin as ([c' o] & Hc & Hin).
    cbn [fst] in Hc. subst c'.
    destruct (List.find (fun co => Nat.eqb (fst co) c) (outcomes s))
      as [[c' o']|] eqn:E.
    + now exists o'.
    + pose proof (find_none _ _ E (c, o) Hin) as Hf. cbn [fst] in Hf.
      now rewrite Nat.eqb_refl in Hf.
Qed.

Lemma callersOf_snoc trace t ev :
  callersOf (trace ++ [(t, ev)])
  = callersOf trace ++ match ev with
                       | EvCall c => [c]
                       | _ => []
                       end.
Proof.
  induction trace as [|[t' ev'] trace IH].
  - now destruct ev.
  - cbn [app callersOf]. rewrite IH. now destruct ev'.
Qed.

Lemma run_snoc env trace t ev s :
  run env (trace ++ [(t, ev)]) s = step env t ev (run env trace s).
Proof. unfold run. now rewrite foldl_snoc. Qed.

(** a call that waits or has ended still waits or has ended after a turn *)
Lemma accounted_step env t ev s c :
  In c (waiters s) \/ In c (map fst (outcomes s)) ->
  In c (waiters (step env t ev s))
  \/ In c (map fst (outcomes (step env t ev s))).
Proof.
  intros Hacc.
  destruct (step_cases env t ev s)
    as [(Hw & Ho & _)
       |[(c0 & r & _ & _ & Hw & Ho)
        |[(c0 & _ & _ & Hw & Ho & _)
         |[(c0 & _ & _ & _ & _ & Hw & Ho)
          |(st & _ & _ & _ & Hw & Ho & _)]]]];
    rewrite Hw, Ho.
  - assumption.
  - destruct Hacc; [now left|right; now right].
  - destruct Hacc; [left; now right|now right].
  - destruct Hacc; [left; now right|now right].
  - right. rewrite map_app. apply in_or_app.
    destruct Hacc as [H|H]; [left|now right].
    rewrite map_map. cbn [fst]. now rewrite map_id.
Qed.

(** the caller of a turn waits or has ended after it *)
Lemma accounted_caller env t c s :
  In c (waiters (step env t (EvCall c) s))
  \/ In c (map fst (outcomes (step env t (EvCall c) s))).
Proof.
  destruct (step_cases env t (EvCall c) s)
    as [(_ & _ & _ & _ & _ & Hnc)
       |[(c0 & r & Hev & _ & Hw & Ho)
        |[(c0 & Hev & _ & Hw & Ho & _)
         |[(c0 & Hev & _ & _ & _ & Hw & Ho)
          |(st & Hnc & _)]]]].
  - now destruct (Hnc c).
  - injection Hev as <-. right. rewrite Ho. now left.
  - injection Hev as <-. left. rewrite Hw. now left.
  - injection Hev as <-. left. rewrite Hw. now left.
  - now destruct (Hnc c).
Qed.

(** From boot on, whatever events arrive: when no start attempt is in
    flight no call is waiting, every call made so far is either waiting or
    has ended, and the handle held is that of the child spawned last. So
    each time the server is between attempts, every call has got its
    outcome. *)
Theorem no_call_left_behind
    (env : Env) (trace : list (Z * Event)) (w : World) :
  gatewayProc w = None ->
  gatewayStarting w = NoAttempt ->
  let s := run env trace (boot w) in
  (gatewayStarting (world s) = NoAttempt -> waiters s = [])
  /\ (forall c, In c (callersOf trace) -> In c (waiters s) \/ ended c s)
  /\ holdsLatestChild (world s).
Proof.
  intros Hp Hs. cbv zeta.
  assert (H : (gatewayStarting (world (run env trace (boot w))) = NoAttempt
               -> waiters (run env trace (boot w)) = [])
              /\ (forall c, In c (callersOf trace) ->
                    In c (waiters (run env trace (boot w)))
                    \/ In c (map fst (outcomes (run env trace (boot w)))))
              /\ holdsLatestChild (world (run env trace (boot w)))).
  { induction trace as [|[t ev] trace IH] using rev_ind.
    - cbn. repeat split; [tauto|]. intros h Hh. cbn in Hh. congruence.
    - rewrite run_snoc, callersOf_snoc.
      set (s := run env trace (boot w)) in *.
      destruct IH as (Hidle & Hacc & Hlatest).
      split; [|split].
      + destruct (step_cases env t ev s)
          as [(Hw & _ & _ & _ & Hback & _)
             |[(c & r & _ & Hwd & Hw & _)
              |[(c & _ & Hwd & _ & _ & Hfl)
               |[(c & _ & _ & _ & Hwd & _)
                |(st & _ & _ & _ & Hw & _)]]]].
        * intros Hn. rewrite Hw. auto.
        * rewrite Hwd, Hw. exact Hidle.
        * rewrite Hwd. intros Hn. contradiction.
        * rewrite Hwd. intros Hn. discriminate Hn.
        * intros _. exact Hw.
      + intros c Hc. apply in_app_or in Hc as [Hc|Hc].
        * apply accounted_step. now apply Hacc.
        * destruct ev; try now destruct Hc.
          destruct Hc as [<-|[]]. apply accounted_caller.
      + intros h. 
        destruct (step_cases env t ev s)
          as [(_ & _ & Hsp & Hproc & _)
             |[(c & r & _ & Hwd & _)
              |[(c & _ & Hwd & _)
               |[(c & _ & _ & _ & Hwd & _)
                |(st & _ & _ & _ & _ & _ & Hsp & Hproc)]]]].
        * rewrite Hsp. destruct Hproc as [-> | ->];
            [apply Hlatest|discriminate].
        * rewrite Hwd. apply Hlatest.
        * rewrite Hwd. apply Hlatest.
        * rewrite Hwd. cbn. intros Hh. injection Hh as <-. reflexivity.
        * rewrite Hsp, Hproc. apply Hlatest. }
  destruct H as (H1 & H2 & H3). split; [exact H1|split; [|exact H3]].
  intros c Hc. destruct (H2 c Hc) as [Hw|Ho]; [now left|].
  right. now apply ended_in.
Qed.

Lemma no_call_left_behind_witness :
  In 2 (waiters (run railwayEnv
                   [(1000%Z, EvCall 1);
                    (1500%Z, EvExit (Some 1%Z) None
                               "2026-11-03T08:32:00.123Z");
                    (1600%Z, EvCall 2)]
                   (boot configuredWorld)))
  \/ ended 2 (run railwayEnv
                [(1000%Z, EvCall 1);
                 (1500%Z, EvExit (Some 1%Z) None "2026-11-03T08:32:00.123Z");
                 (1600%Z, EvCall 2)]
                (boot configuredWorld)).
Proof.
  destruct (no_call_left_behind railwayEnv
              [(1000%Z, EvCall 1);
               (1500%Z, EvExit (Some 1%Z) None "2026-11-03T08:32:00.123Z");
               (1600%Z, EvCall 2)]
              configuredWorld eq_refl eq_refl) as (_ & Hacc & _).
  apply Hacc. cbn. right. now left.
Defined.

(** *** The doctor is rate-limited *)

(** a turn runs the doctor at most once, and only when it is not
    rate-limited; then it records the time *)
Lemma step_doctor env now ev s :
  (lastDoctorAt (world (step env now ev s)) = lastDoctorAt (world s)
   /\ cliSpawns (world (step env now ev s)) = cliSpawns (world s))
  \/ (doctorRateLimited now (world s) = false
      /\ lastDoctorAt (world (step env now ev s)) = Some now
      /\ cliSpawns (world (step env now ev s))
         = doctorArgs env :: cliSpawns (world s)).
Proof.
  destruct ev as [c|ready|r|exit signal iso|err|text].
  - left.
    destruct (step_cases env now (EvCall c) s)
      as [(_ & _ & _ & _ & _ & Hnc)
         |[(c0 & r & _ & Hwd & _)
          |[(c0 & _ & Hwd & _)
           |[(c0 & _ & _ & _ & Hwd & _)
            |(st & Hnc & _)]]]].
    + now destruct (Hnc c).
    + now rewrite Hwd.
    + now rewrite Hwd.
    + now rewrite Hwd.
    + now destruct (Hnc c).
  - destruct s as [w ws outs]. unfold step. cbn [world waiters outcomes].
    destruct (gatewayStarting w) eqn:Hs; [now left| |now left].
    destruct ready; [now left|].
    unfold attempt_probed, attempt_catch, runDoctor_begin.
    change (doctorRateLimited now (set_lastGatewayError _ w))
      with (doctorRateLimited now w).
    destruct (doctorRateLimited now w) eqn:Hd; [now left|].
    right. repeat split.
  - destruct s as [w ws outs]. unfold step. cbn [world waiters outcomes].
    destruct (gatewayStarting w) eqn:Hs; now left.
  - now left.
  - now left.
  - destruct s as [w ws outs]. unfold step. cbn [world waiters outcomes].
    destruct (gatewayStarting w) eqn:Hs; now left.
Qed.

(** However often the gateway fails to start, the doctor command runs at
    most once in any five minutes: over a trace whose events all fall
    within five minutes, starting with no doctor run on record, at most
    one command is spawned by the supervisor. *)
Theorem one_doctor_per_five_minutes
    (env : Env) (t0 : Z) (trace : list (Z * Event)) (s : System) :
  (0 < t0)%Z ->
  lastDoctorAt (world s) = None ->
  withinFiveMinutes t0 trace ->
  length (cliSpawns (world (run env trace s)))
  <= S (length (cliSpawns (world s))).
Proof.
  intros Ht0 Hnone Hwin.
  assert (H : (lastDoctorAt (world (run env trace s)) = None
               /\ cliSpawns (world (run env trace s)) = cliSpawns (world s))
              \/ (exists t, lastDoctorAt (world (run env trace s)) = Some t
                            /\ (t0 <= t)%Z
                            /\ length (cliSpawns (world (run env trace s)))
                               = S (length (cliSpawns (world s))))).
  { induction trace as [|[t ev] trace IH] using rev_ind; [now left|].
    unfold withinFiveMinutes in Hwin.
    apply Forall_app in Hwin as [Hwin Hlast].
    apply Forall_cons in Hlast as [Ht _]. cbn [fst] in Ht.
    specialize (IH Hwin). rewrite run_snoc.
    set (s1 := run env trace s) in *.
    destruct (step_doctor env t ev s1)
      as [(Hat & Hcli)|(Hlim & Hat & Hcli)].
    - rewrite Hat, Hcli. exact IH.
    - right. exists t. rewrite Hat, Hcli. cbn [length].
      destruct IH as [(Hn & Hc)|(t1 & Hn & Ht1 & Hc)].
      + rewrite Hc. repeat split; lia.
      + exfalso. unfold doctorRateLimited in Hlim. rewrite Hn in Hlim.
        apply andb_false_iff in Hlim as [Hz|Hlate].
        * apply negb_false_iff, Z.eqb_eq in Hz. lia.
        * apply Z.ltb_ge in Hlate. lia. }
  destruct H as [(_ & ->)|(t & _ & _ & ->)]; lia.
Qed.

Lemma one_doctor_per_five_minutes_witness :
  length (cliSpawns
            (world (run railwayEnv
                      [(1000%Z, EvCall 1); (21000%Z, EvProbe false);
                       (22000%Z, EvDoctorDone (quietCli []));
                       (23000%Z, EvExit (Some 1%Z) None
                                   "2026-11-03T08:32:00.123Z");
                       (24000%Z, EvCall 2); (44000%Z, EvProbe false)]
                      (boot configuredWorld))))
  <= S (length (cliSpawns (world (boot configuredWorld)))).
Proof.
  apply (one_doctor_per_five_minutes railwayEnv 1000); [lia|reflexivity|].
  unfold withinFiveMinutes. repeat constructor; cbn; lia.
Defined.

(** *** A crash is not restarted; the next call starts a new child *)

(** When the [exit] event of a gateway child arrives, nothing is spawned:
    the handle is dropped and the exit is recorded. The next call of
    [ensureGatewayRunning()] on the configured system waits for a start
    attempt. With no attempt in flight it spawns one new child, which gets
    the next handle; with an attempt in flight (the child exited while it
    was being started) the call joins that attempt, nothing is spawned and
    no handle is held. *)
Theorem crash_waits_for_next_call
    (env : Env) (t1 t2 : Z) (exit : option Z) (signal : option string)
    (iso : string) (c h : nat) (s : System) :
  isConfigured env (world s) = true ->
  gatewayProc (world s) = Some h ->
  holdsLatestChild (world s) ->
  let s1 := step env t1 (EvExit exit signal iso) s in
  let s2 := step env t2 (EvCall c) s1 in
  gatewaySpawns (world s1) = gatewaySpawns (world s)
  /\ gatewayProc (world s1) = None
  /\ lastGatewayExit (world s1)
     = Some {| exitCode := exit; exitSignal := signal; exitAt := iso |}
  /\ waiters s2 = c :: waiters s
  /\ (gatewayStarting (world s) = NoAttempt ->
      gatewaySpawns (world s2)
      = clawArgs env (gatewayArgs env) :: gatewaySpawns (world s)
      /\ gatewayProc (world s2) = Some (S h))
  /\ (gatewayStarting (world s) <> NoAttempt ->
      world s2 = world s1).
Proof.
  intros Hc Hp Hlatest. cbv zeta.
  destruct s as [w ws outs]. cbn [world waiters] in *.
  change (step env t1 (EvExit exit signal iso)
            {| world := w; waiters := ws; outcomes := outs |})
    with {| world := onExit exit signal iso w; waiters := ws;
            outcomes := outs |}.
  destruct (gatewayStarting w) eqn:Hs.
  - rewrite (first_call_spawns_from env t2 c (onExit exit signal iso w) ws
               outs); [|now rewrite <- Hc|reflexivity|exact Hs].
    cbn. repeat split; try contradiction.
    f_equal. symmetry. now apply Hlatest.
  - unfold step, ensure_enter. cbn [world waiters outcomes].
    rewrite (isConfigured_files env w (onExit exit signal iso w) eq_refl), Hc.
    cbn. rewrite Hs. cbn. repeat split; intros; congruence.
  - unfold step, ensure_enter. cbn [world waiters outcomes].
    rewrite (isConfigured_files env w (onExit exit signal iso w) eq_refl), Hc.
    cbn. rewrite Hs. cbn. repeat split; intros; congruence.
Qed.

Lemma crash_waits_for_next_call_witness :
  gatewayProc
    (world (step railwayEnv 2000 (EvCall 7)
              (step railwayEnv 1000
                 (EvExit (Some 1%Z) None "2026-11-03T08:32:00.123Z")
                 (boot runningWorld))))
  = Some 1.
Proof.
  destruct (crash_waits_for_next_call railwayEnv 1000 2000 (Some 1%Z) None
              "2026-11-03T08:32:00.123Z" 7 0 (boot runningWorld)
              eq_refl eq_refl)
    as (_ & _ & _ & _ & H & _).
  - intros h Hh. cbn in Hh. injection Hh as <-. reflexivity.
  - apply H. reflexivity.
Defined.

(** *** Restart *)

(** A restart of a running gateway on a configured system sends SIGTERM to
    the child it holds, forgets it and starts one new child; when that
    child answers the probe the restart reports success. Whether the
    server then holds the handle of the new child depends on when the old
    child exits: its [exit] listener clears [gatewayProc] whatever that
    holds. When the old child exits within the 750 ms, or after the
    handler has ended, the handle held at the end is the new one; when it
    exits while the handler awaits the new child, the server holds no
    handle although the new child runs. *)
Theorem restart_replaces_child (env : Env) (o : Oracle) (w : World) (h : nat) :
  isConfigured env w = true ->
  gatewayProc w = Some h ->
  gatewayStarting w = NoAttempt ->
  waitForGatewayReady 20000 (probe o) = true ->
  let w' := snd (restartGateway env o w) in
  fst (restartGateway env o w) = Resolved okTrue
  /\ signals w' = h :: signals w
  /\ gatewaySpawns w' = clawArgs env (gatewayArgs env) :: gatewaySpawns w
  /\ gatewayStarting w' = NoAttempt
  /\ files w' = files w
  /\ gatewayProc w'
     = match signalledExit o with
       | ExitsDuringStart _ => None
       | _ => Some (length (gatewaySpawns w))
       end
  /\ lastGatewayExit w'
     = match signalledExit o with
       | ExitsBeforeStart info | ExitsDuringStart info => Some info
       | ExitsLater => lastGatewayExit w
       end.
Proof.
  intros Hc Hp Hs Hr. cbv zeta. unfold restartGateway.
  assert (Hk : gatewayProc (killAndClear o w) = None
               /\ gatewayStarting (killAndClear o w) = NoAttempt
               /\ signals (killAndClear o w) = h :: signals w
               /\ gatewaySpawns (killAndClear o w) = gatewaySpawns w
               /\ lastGatewayExit (killAndClear o w)
                  = match signalledExit o with
                    | ExitsBeforeStart info => Some info
                    | _ => lastGatewayExit w
                    end).
  { unfold killAndClear. rewrite Hp.
    destruct (signalledExit o) as [info|info|];
      try destruct info; cbn; auto. }
  destruct Hk as (Hkp & Hks & Hksig & Hksp & Hkexit).
  rewrite (ensure_when_probe_answers env o (killAndClear o w));
    [|now rewrite (isConfigured_files env w _ (killAndClear_files o w))
     |assumption|assumption|assumption].
  rewrite Hc. unfold holdsChild, lateExit. rewrite Hp. cbn [fst snd].
  destruct (signalledExit o) as [info|info|] eqn:Hexit.
  - cbn. rewrite Hksig, Hksp, Hkexit, killAndClear_files. repeat split.
  - destruct (exitOf_records info
                (set_gatewayStarting NoAttempt
                   (set_gatewayStarting Probing
                      (spawnGateway env
                         (set_lastGatewayError None (killAndClear o w))))))
      as (He & Hep & Hesp & Hesig & Hest & Hef).
    rewrite He, Hep, Hesp, Hesig, Hest, Hef. cbn.
    rewrite Hksig, Hksp, killAndClear_files. repeat split.
  - cbn. rewrite Hksig, Hksp, Hkexit, killAndClear_files. repeat split.
Qed.

Lemma restart_replaces_child_witness :
  fst (restartGateway railwayEnv lingeringOracle runningWorld)
  = Resolved okTrue
  /\ length (gatewaySpawns
               (snd (restartGateway railwayEnv lingeringOracle runningWorld)))
     = 2
  /\ gatewayProc (snd (restartGateway railwayEnv lingeringOracle runningWorld))
     = None
  /\ gatewayProc (snd (restartGateway railwayEnv tidyOracle runningWorld))
     = Some 1.
Proof.
  destruct (restart_replaces_child railwayEnv lingeringOracle runningWorld 0
              eq_refl eq_refl eq_refl ltac:(vm_compute; reflexivity))
    as (H1 & _ & H3 & _ & _ & H6 & _).
  destruct (restart_replaces_child railwayEnv tidyOracle runningWorld 0
              eq_refl eq_refl eq_refl ltac:(vm_compute; reflexivity))
    as (_ & _ & _ & _ & _ & H6' & _).
  split; [exact H1|split; [now rewrite H3|split; [exact H6|exact H6']]].
Defined.

End SupervisorMoreFacts.

(** ** The password check *)

Module SetupAuthFacts.
Import JsString Sys Boot SetupAuth MoreScenarios JsStringFacts.

Lemma split_no_sep sep s :
  forallb_string (fun c => negb (Ascii.eqb c sep)) s = true ->
  split sep s = [s].
Proof.
  induction s as [|c rest IH]; [reflexivity|].
  cbn [forallb_string]. intros H. apply andb_true_iff in H as [Hc Hrest].
  cbn [split]. apply negb_true_iff in Hc. rewrite Hc, (IH Hrest). reflexivity.
Qed.

Lemma split_basic encoded :
  noSpace encoded = true ->
  split " " ("Basic " +:+ encoded) = ["Basic"; encoded].
Proof.
  intros H. rewrite !append_cons, append_nil.
  cbn [split]. rewrite (split_no_sep " " encoded H). reflexivity.
Qed.

Lemma afterFirstColon_app user password :
  noColon user = true ->
  afterFirstColon (user +:+ ":" +:+ password) = Some password.
Proof.
  induction user as [|c rest IH]; intros H.
  - reflexivity.
  - cbn [noColon forallb_string] in H.
    apply andb_true_iff in H as [Hc Hrest].
    rewrite append_cons. cbn [afterFirstColon].
    apply negb_true_iff in Hc. rewrite Hc. now apply IH.
Qed.

(** The check fails closed. A request passes only when a password is
    configured and not empty, the header has the scheme [Basic] and a
    credential after the first space, and the decoded credential holds a
    colon followed by exactly the configured password. *)
Theorem setup_auth_fails_closed
    (decodeBase64 : string -> string)
    (setupPassword authorization : option string) :
  requireSetupAuth decodeBase64 setupPassword authorization = AuthNext ->
  exists expected header encoded,
    setupPassword = Some expected /\ expected <> EmptyString
    /\ authorization = Some header
    /\ nth_error (split " " header) 0 = Some "Basic"
    /\ nth_error (split " " header) 1 = Some encoded
    /\ encoded <> EmptyString
    /\ afterFirstColon (decodeBase64 encoded) = Some expected.
Proof.
  unfold requireSetupAuth.
  destruct setupPassword as [expected|]; [|discriminate].
  destruct (String.eqb_spec expected "") as [|Hne]; [discriminate|].
  destruct authorization as [header|]; [|discriminate].
  destruct (nth_error (split " " header) 1) as [encoded|] eqn:He;
    [|discriminate].
  cbn [truthy default id].
  destruct (String.eqb_spec encoded "") as [|Hene]; [discriminate|].
  cbn [negb orb].
  destruct (nth_error (split " " header) 0) as [scheme|] eqn:Hs;
    cbn [default id]; [|discriminate].
  destruct (String.eqb_spec scheme "Basic") as [->|]; cbn [negb];
    [|discriminate].
  destruct (afterFirstColon (decodeBase64 encoded)) as [password|] eqn:Hp;
    cbn [default id].
  - destruct (String.eqb_spec password expected) as [->|]; [|discriminate].
    intros _. exists expected, header, encoded. repeat split; assumption.
  - destruct (String.eqb_spec "" expected) as [Heq|]; [|discriminate].
    now destruct Hne.
Qed.

Lemma setup_auth_fails_closed_witness :
  exists expected header encoded,
    Some "hunter2" = Some expected /\ expected <> EmptyString
    /\ Some "Basic dXNlcjpodW50ZXIy" = Some header
    /\ nth_error (split " " header) 0 = Some "Basic"
    /\ nth_error (split " " header) 1 = Some encoded
    /\ encoded <> EmptyString
    /\ afterFirstColon (oneCredential encoded) = Some expected.
Proof.
  apply (setup_auth_fails_closed oneCredential (Some "hunter2")
           (Some "Basic dXNlcjpodW50ZXIy")).
  reflexivity.
Defined.

(** Only the password counts. For a well-formed Basic header whose
    credential decodes to [user:password], the request passes exactly when
    [password] is the configured one: the user name is ignored, and a
    password that holds colons is compared whole. *)
Theorem setup_auth_ignores_user_name
    (decodeBase64 : string -> string)
    (expected user password encoded : string) :
  expected <> EmptyString ->
  encoded <> EmptyString ->
  noSpace encoded = true ->
  noColon user = true ->
  decodeBase64 encoded = user +:+ ":" +:+ password ->
  requireSetupAuth decodeBase64 (Some expected) (Some ("Basic " +:+ encoded))
  = if String.eqb password expected then AuthNext
    else AuthRespond 401 "Invalid password" true.
Proof.
  intros Hexp Henc Hsp Hcol Hdec. unfold requireSetupAuth.
  destruct (String.eqb_spec expected "") as [|_]; [contradiction|].
  rewrite (split_basic encoded Hsp). cbn [nth_error truthy default id].
  destruct (String.eqb_spec encoded "") as [|_]; [contradiction|].
  cbn [negb orb].
  change (String.eqb "Basic" "Basic") with true. cbn [negb].
  rewrite Hdec, (afterFirstColon_app user password Hcol). reflexivity.
Qed.

Lemma setup_auth_ignores_user_name_witness :
  requireSetupAuth oneCredential (Some "hunter2")
    (Some "Basic dXNlcjpodW50ZXIy")
  = AuthNext.
Proof.
  apply (setup_auth_ignores_user_name oneCredential "hunter2" "user"
           "hunter2" "dXNlcjpodW50ZXIy");
    [discriminate|discriminate|reflexivity|reflexivity|reflexivity].
Defined.

End SetupAuthFacts.

(** ** The onboarding arguments *)

Module OnboardFacts.
Import JsString Sys Boot Onboard MoreScenarios Scenarios JsStringFacts.

(** the secret reaches the command line trimmed, after the flag of its
    auth choice *)
Example anthropic_key_is_trimmed :
  buildOnboardArgs railwayEnv anthropicKeyPayload
  = Args (baseArgs railwayEnv anthropicKeyPayload
          ++ words ["--auth-choice"; "apiKey"; "--anthropic-api-key";
                    "sk-ant-123"]).
Proof. reflexivity. Qed.

(** a secret that is a number makes the function throw a [TypeError] *)
Example numeric_secret_is_a_type_error :
  buildOnboardArgs railwayEnv numericSecretPayload = ThrowsTypeError.
Proof. reflexivity. Qed.

Lemma token_choice_key choice :
  isTokenChoice choice = true -> keyOf choice = Some "token".
Proof.
  destruct choice as [|s|t k]; try discriminate. cbn.
  intros H. apply String.eqb_eq in H. now subst.
Qed.

Lemma tokenBranch_throws choice secret args msg :
  tokenBranch choice secret args = Throws msg
  <-> isTokenChoice choice = true /\ secret = EmptyString
      /\ msg = "Missing auth secret for authChoice=token".
Proof.
  unfold tokenBranch. destruct (isTokenChoice choice).
  - destruct (String.eqb_spec secret "") as [->|Hne].
    + split; [intros [= <-]; now repeat split|].
      intros (_ & _ & ->). reflexivity.
    + split; [discriminate|]. intros (_ & Hs & _). contradiction.
  - split; [discriminate|]. intros (H & _). discriminate H.
Qed.

Lemma tokenBranch_no_type_error choice secret args :
  tokenBranch choice secret args <> ThrowsTypeError.
Proof.
  unfold tokenBranch. destruct (isTokenChoice choice);
    [destruct (String.eqb secret "")|]; discriminate.
Qed.

(** [buildOnboardArgs] throws its own error exactly when an auth choice is
    given that needs a secret and the secret, once trimmed, is empty; the
    message names the choice. It throws a [TypeError] exactly when an auth
    choice is given and the secret is a truthy value that is no string, or
    the choice cannot be turned into a property key. *)
Theorem onboard_throws_iff_secret_missing
    (env : Env) (p : OnboardPayload) :
  (forall msg,
     buildOnboardArgs env p = Throws msg
     <-> truthyField (authChoice p) = true
         /\ secretOf (authSecret p) = Some EmptyString
         /\ exists key,
              keyOf (authChoice p) = Some key
              /\ needsSecret (authChoice p) key = true
              /\ msg = "Missing auth secret for authChoice=" +:+ key)
  /\ (buildOnboardArgs env p = ThrowsTypeError
      <-> truthyField (authChoice p) = true
          /\ (secretOf (authSecret p) = None
              \/ keyOf (authChoice p) = None)).
Proof.
  split.
  - intros msg. unfold buildOnboardArgs, needsSecret.
    destruct (truthyField (authChoice p)) eqn:Ht.
    2:{ split; [discriminate|]. intros (H & _). discriminate H. }
    destruct (secretOf (authSecret p)) as [secret|] eqn:Hsec.
    2:{ split; [discriminate|]. intros (_ & H & _). discriminate H. }
    destruct (keyOf (authChoice p)) as [key|] eqn:Hkey.
    2:{ split; [discriminate|]. intros (_ & _ & k & H & _). discriminate H. }
    destruct (lookupFlag key) as [flag| |] eqn:Hl.
    + destruct (String.eqb_spec secret "") as [->|Hne].
      * split.
        -- intros [= <-]. repeat split. exists key. rewrite Hl. now repeat split.
        -- intros (_ & _ & k & [= <-] & _ & ->). reflexivity.
      * rewrite tokenBranch_throws. split.
        -- intros (_ & Hs & _). contradiction.
        -- intros (_ & [= Hs] & _). contradiction.
    + destruct (String.eqb_spec secret "") as [->|Hne].
      * split.
        -- intros [= <-]. repeat split. exists key. rewrite Hl. now repeat split.
        -- intros (_ & _ & k & [= <-] & _ & ->). reflexivity.
      * rewrite tokenBranch_throws. split.
        -- intros (_ & Hs & _). contradiction.
        -- intros (_ & [= Hs] & _). contradiction.
    + rewrite tokenBranch_throws. split.
      * intros (Htok & -> & ->). repeat split. exists key. rewrite Hl.
        pose proof (token_choice_key _ Htok) as Hk. rewrite Hkey in Hk.
        injection Hk as ->. now repeat split.
      * intros (_ & [= ->] & k & [= <-] & Hn & ->). rewrite Hl in Hn.
        pose proof (token_choice_key _ Hn) as Hk. rewrite Hkey in Hk.
        injection Hk as ->. now repeat split.
  - unfold buildOnboardArgs.
    destruct (truthyField (authChoice p)) eqn:Ht.
    2:{ split; [discriminate|]. intros (H & _). discriminate H. }
    destruct (secretOf (authSecret p)) as [secret|] eqn:Hsec.
    2:{ split; [|reflexivity]. intros _. split; [reflexivity|now left]. }
    destruct (keyOf (authChoice p)) as [key|] eqn:Hkey.
    2:{ split; [|reflexivity]. intros _. split; [reflexivity|now right]. }
    split; [|intros (_ & [H|H]); discriminate H].
    intros H. exfalso. revert H.
    destruct (lookupFlag key); try destruct (String.eqb secret "");
      try discriminate; apply tokenBranch_no_type_error.
Qed.

Lemma onboard_throws_iff_secret_missing_witness :
  buildOnboardArgs railwayEnv
    {| flow := Absent; authChoice := Text "token";
       authSecret := Text "   " |}
  = Throws "Missing auth secret for authChoice=token".
Proof.
  apply (proj1 (onboard_throws_iff_secret_missing railwayEnv
                  {| flow := Absent; authChoice := Text "token";
                     authSecret := Text "   " |})
           "Missing auth secret for authChoice=token").
  repeat split. exists "token". repeat split.
Defined.

End OnboardFacts.

(** ** More on the debug console *)

Module ConsoleMoreFacts.
Import JsString Sys ConfigStore Supervisor Http Console AdminApi Scenarios.
Import JsStringFacts ConsoleFacts.

Lemma error_text_not_unhandled err :
  JsonError (stringOfError err) <> JsonError "Unhandled command".
Proof. unfold stringOfError. rewrite append_cons. discriminate. Qed.

Lemma fault_text_not_unhandled fault :
  JsonError (faultText fault) <> JsonError "Unhandled command".
Proof. destruct fault; cbn [faultText]; rewrite append_cons; discriminate. Qed.

(** The dispatcher knows every command of the allowlist: whatever the
    request, the console never answers [Unhandled command]. *)
Theorem console_handles_every_allowed_command
    (env : Env) (o : Oracle) (cmd0 arg0 : string) (w : World) :
  body (fst (consoleRun env o cmd0 arg0 w)) <> JsonError "Unhandled command".
Proof.
  unfold consoleRun.
  destruct (bool_decide (trim cmd0 ∈ ALLOWED_CONSOLE_COMMANDS)) eqn:Hin;
    cbn [negb]; [|discriminate].
  apply bool_decide_eq_true, allowed_cases in Hin.
  cbn [In] in Hin.
  repeat (destruct Hin as [<-|Hin]); [..|destruct Hin].
  all: cbn [String.eqb Ascii.eqb Bool.eqb fst snd body reject].
  all: try discriminate.
  all: try (destruct (restartGateway env o w) as [[r|err] w'];
            cbn [fst body reject];
            [discriminate|apply error_text_not_unhandled]).
  all: try (destruct (ensureGatewayRunning env o w) as [[r|err] w'];
            cbn [fst body reject];
            [discriminate|apply error_text_not_unhandled]).
  all: unfold runAndReport;
    repeat case_match; cbn [fst body reject];
    try discriminate; apply fault_text_not_unhandled.
Qed.

Lemma tailLines_bounds arg : (50 <= tailLines arg <= 1000)%Z.
Proof. unfold tailLines. lia. Qed.

(** Whatever argument the request carries (none, text, zero, a negative or
    a huge number), [openclaw.logs.tail] runs [logs --tail n] with
    [50 <= n <= 1000], and that is the only command it spawns. *)
Theorem logs_tail_is_clamped
    (env : Env) (o : Oracle) (cmd0 arg0 : string) (w : World) :
  trim cmd0 = "openclaw.logs.tail" ->
  exists n : Z,
    (50 <= n <= 1000)%Z
    /\ snd (consoleRun env o cmd0 arg0 w)
       = set_cliSpawns
           (clawArgs env ["logs"; "--tail"; pretty n] :: cliSpawns w) w.
Proof.
  intros Hcmd. exists (tailLines (trim arg0)).
  split; [apply tailLines_bounds|].
  unfold consoleRun. rewrite Hcmd, logs_tail_allowed.
  cbn [negb String.eqb Ascii.eqb Bool.eqb].
  apply runAndReport_world.
Qed.

Lemma logs_tail_is_clamped_witness :
  exists n : Z,
    (50 <= n <= 1000)%Z
    /\ snd (consoleRun railwayEnv silentOracle " openclaw.logs.tail "
              "999999" freshWorld)
       = set_cliSpawns
           (clawArgs railwayEnv ["logs"; "--tail"; pretty n]
              :: cliSpawns freshWorld) freshWorld.
Proof.
  apply (logs_tail_is_clamped railwayEnv silentOracle " openclaw.logs.tail "
           "999999" freshWorld).
  reflexivity.
Defined.

(** The route [POST /setup/api/devices/approve] and the console command
    [openclaw.devices.approve] run the same checks and the same command,
    and leave the same state. They answer alike whenever the route
    answers. They differ when the command cannot be spawned: the console
    answers 500 with the text of the error, while the handler of the route
    is rejected with that error and sends nothing; this happens exactly
    when the request id passes both checks and the spawn throws. *)
Theorem devices_approve_route_and_console
    (env : Env) (o : Oracle) (requestId0 : string) (w : World) :
  let route := postDevicesApprove env o requestId0 w in
  let console := consoleRun env o "openclaw.devices.approve" requestId0 w in
  snd route = snd console
  /\ (forall r, fst route = Answered r -> fst console = r)
  /\ (forall err,
        fst route = HandlerRejected err ->
        fst console = {| status := 500; body := JsonError err |})
  /\ (forall err,
        fst route = HandlerRejected err
        <-> trim requestId0 <> EmptyString
            /\ testWordDash (trim requestId0) = true
            /\ exists fault,
                 spawnThrows o
                   (clawArgs env ["devices"; "approve"; trim requestId0])
                 = Some fault
                 /\ err = faultText fault).
Proof.
  cbv zeta. unfold postDevicesApprove, consoleRun.
  change (trim "openclaw.devices.approve") with "openclaw.devices.approve".
  rewrite approve_allowed. cbn [negb].
  cbn [String.eqb Ascii.eqb Bool.eqb].
  rewrite trim_idem. unfold runAndReport, reject.
  destruct (String.eqb_spec (trim requestId0) "") as [Hempty|Hfull].
  { cbn [fst snd]. repeat split; try discriminate.
    - now intros r [= <-].
    - intros (H & _). contradiction. }
  destruct (testWordDash (trim requestId0)) eqn:Htest; cbn [negb].
  2:{ cbn [fst snd]. repeat split; try discriminate.
      - now intros r [= <-].
      - intros (_ & H & _). discriminate H. }
  destruct (spawnThrows o _) as [fault|] eqn:Hspawn; cbn [fst snd].
  - repeat split; try discriminate; try assumption.
    + now intros err [= <-].
    + exists fault. injection H as <-. now split.
    + intros (_ & _ & f & [= <-] & ->). reflexivity.
  - repeat split; try discriminate.
    + now intros r [= <-].
    + intros (_ & _ & f & Hf & _). discriminate Hf.
Qed.

(** a request id of 128 KiB passes both checks; the system refuses to spawn
    the command with it: the console reports the error, the route ends
    without an answer *)
Example long_request_id_not_answered :
  fst (postDevicesApprove railwayEnv argumentLimitOracle longRequestId
         freshWorld)
  = HandlerRejected "Error: spawn E2BIG"
  /\ fst (consoleRun railwayEnv argumentLimitOracle "openclaw.devices.approve"
            longRequestId freshWorld)
     = {| status := 500; body := JsonError "Error: spawn E2BIG" |}.
Proof. split; vm_compute; reflexivity. Qed.

End ConsoleMoreFacts.

(** ** More on the importer *)

Module ImporterMoreFacts.
Import JsString Sys ConfigStore Supervisor Http TarPath Importer Scenarios.
Import JsStringFacts ConfigStoreFacts SupervisorFacts ImporterFacts.

(** *** The ceiling of [readBodyBuffer] *)

(** [readBodyBuffer] resolves, with the chunks as they came, exactly when
    the body is not larger than the ceiling: a body of exactly [maxBytes]
    bytes is accepted, one byte more is not. *)
Theorem readBodyBuffer_accepts_up_to_limit (body : list N) (maxBytes : N) :
  readBodyBuffer body maxBytes = BodyResolved body
  <-> (totalBytes body <= maxBytes)%N.
Proof.
  unfold readBodyBuffer. split.
  - intros Hres.
    destruct (N.le_gt_cases (totalBytes body) maxBytes) as [Hle|Hgt];
      [assumption|].
    destruct (readChunks_rejects maxBytes body 0%N [] 0)
      as (k & _ & Hrej & _); [lia|lia|].
    rewrite Hrej in Hres. discriminate Hres.
  - intros Hle. now rewrite readChunks_resolves by lia.
Qed.

(** *** The directory guard *)

Lemma prefix_app_same root a b :
  String.prefix (root +:+ a) (root +:+ b) = String.prefix a b.
Proof.
  induction root as [|c root IH]; [reflexivity|].
  rewrite !append_cons. cbn [String.prefix].
  now destruct (ascii_dec c c).
Qed.

Lemma eqb_app_self root suffix :
  String.eqb (root +:+ suffix) root = true <-> suffix = EmptyString.
Proof.
  rewrite String.eqb_eq. split.
  - destruct suffix as [|c t]; [reflexivity|].
    intros H. now apply append_ne_self in H.
  - intros ->. apply append_empty_r.
Qed.

(** A path that extends the root is under it only across a separator:
    [/data/x] is under [/data], [/database] is not. *)
Theorem isUnderDir_needs_separator (root suffix : string) :
  isUnderDir (root +:+ suffix) root = true
  <-> suffix = EmptyString \/ startsWith suffix "/" = true.
Proof.
  unfold isUnderDir, startsWith.
  rewrite orb_true_iff, eqb_app_self, prefix_app_same. reflexivity.
Qed.

(** *** A failed import leaves the gateway stopped *)

Lemma unpack_rest cwd filter : forall es w,
  let w' := foldl (unpackEntry cwd filter) w es in
  gatewayProc w' = gatewayProc w
  /\ gatewaySpawns w' = gatewaySpawns w
  /\ signals w' = signals w.
Proof.
  induction es as [|e es IH]; intros w; [repeat split|].
  cbn [foldl]. cbv zeta.
  destruct (IH (unpackEntry cwd filter w e)) as (H1 & H2 & H3).
  rewrite H1, H2, H3. unfold unpackEntry.
  destruct (filter (entryPath e)); repeat split.
Qed.

Lemma killAndClear_stops o w :
  gatewayProc (killAndClear o w) = None
  /\ gatewaySpawns (killAndClear o w) = gatewaySpawns w.
Proof.
  unfold killAndClear.
  destruct (gatewayProc w) eqn:E; [destruct (signalledExit o)|]; now split.
Qed.

(** The gateway is stopped before the body is read and restarted only at
    the end of a successful import. When the body is empty, or the archive
    cannot be decoded, the request is answered with an error (400 for the
    empty body, 500 for the archive), no child is spawned and the server
    holds no gateway child afterwards. *)
Theorem import_failure_leaves_gateway_stopped
    (env : Env) (o : Oracle) (up : Upload) (w : World) :
  isUnderDir (STATE_DIR env) dataRoot = true ->
  isUnderDir (WORKSPACE_DIR env) dataRoot = true ->
  (totalBytes (chunks up) <= importCeiling)%N ->
  totalBytes (chunks up) = 0%N \/ malformed up = true ->
  let r := importBackup env o up w in
  status (fst r) = (if (totalBytes (chunks up) =? 0)%N then 400 else 500)
  /\ gatewayProc (snd r) = None
  /\ gatewaySpawns (snd r) = gatewaySpawns w
  /\ signals (snd r) = signals (killAndClear o w).
Proof.
  intros Hs Hw Hfit Hcause. cbv zeta. unfold importBackup.
  rewrite Hs, Hw. cbn [negb orb].
  unfold readBodyBuffer. rewrite readChunks_resolves by (simpl; lia).
  cbn [rev app].
  destruct (killAndClear_stops o w) as [Hp Hsp].
  destruct (N.eqb_spec (totalBytes (chunks up)) 0) as [H0|Hpos].
  - cbn [fst snd plain status]. repeat split; assumption.
  - destruct Hcause as [H0|Hm]; [contradiction|].
    fold (stagedWorld env o up w). rewrite tarExtract_staged, Hm.
    cbn [fst snd plain status]. unfold unpackedWorld.
    destruct (unpack_rest dataRoot looksSafeTarPath (entries up)
                (stagedWorld env o up w)) as (H1 & H2 & H3).
    cbv zeta in H1, H2, H3. rewrite H1, H2, H3.
    unfold stagedWorld, writeFileSync.
    cbn [gatewayProc gatewaySpawns signals set_files].
    repeat split; assumption.
Qed.

Lemma import_failure_leaves_gateway_stopped_witness :
  status (fst (importBackup railwayEnv promptOracle
                 {| chunks := []; entries := []; malformed := false |}
                 runningWorld)) = 400
  /\ gatewayProc (snd (importBackup railwayEnv promptOracle
                         {| chunks := []; entries := []; malformed := false |}
                         runningWorld)) = None.
Proof.
  destruct (import_failure_leaves_gateway_stopped railwayEnv promptOracle
              {| chunks := []; entries := []; malformed := false |}
              runningWorld eq_refl eq_refl
              ltac:(vm_compute; discriminate) (or_introl eq_refl))
    as (H1 & H2 & _).
  split; [exact H1|exact H2].
Defined.

End ImporterMoreFacts.

(** ** The configuration file through the administrative routes *)

Module AdminFacts.
Import JsString Sys ConfigStore Supervisor Http Console ConfigEditor.
Import Router AdminApi Scenarios.
Import JsStringFacts ConfigStoreFacts SupervisorFacts ConfigEditorFacts.

(** *** One authoritative path *)

(** The path of the configuration file does not depend on what is on
    disk, and the server counts as configured exactly when a file exists
    at that path. *)
Theorem configured_iff_config_file_exists (env : Env) (w w' : World) :
  configPath env w' = configPath env w
  /\ (isConfigured env w = true
      <-> is_Some (files w !! configPath env w)).
Proof.
  split; [apply configPath_fixed|].
  rewrite isConfigured_configPath. unfold existsSync.
  destruct (files w !! configPath env w) as [data|].
  - split; eauto.
  - split; [discriminate|]. intros [data H]. discriminate H.
Qed.

(** *** Write, then read *)

Lemma writeRaw_lookup env iso content w :
  files (writeRaw env iso content w) !! configPath env w
  = Some (Utf8 content).
Proof.
  unfold writeRaw, writeFileSync. cbn [files set_files].
  apply lookup_insert_eq.
Qed.

Lemma writeRaw_configured env iso content w :
  isConfigured env (writeRaw env iso content w) = true.
Proof.
  rewrite isConfigured_configPath. unfold existsSync.
  rewrite (configPath_fixed env w (writeRaw env iso content w)).
  now rewrite writeRaw_lookup.
Qed.

(** What [POST /setup/api/config/raw] accepts, [GET /setup/api/config/raw]
    returns: the same path, [exists] set, and the content as it was sent,
    whether or not the gateway restarted. *)
Theorem config_write_then_read
    (textOfUpload : Upload -> string) (env : Env) (o : Oracle)
    (content : string) (w : World) :
  (lengthN content <= 500000)%N ->
  getConfigRaw textOfUpload env (snd (postConfigRaw env o content w))
  = {| rawPath := configPath env w; rawExists := true;
       rawContent := content |}.
Proof.
  intros Hlen. unfold getConfigRaw.
  rewrite (configPath_fixed env w (snd (postConfigRaw env o content w))).
  rewrite (postConfigRaw_files env o content w Hlen), writeRaw_lookup.
  reflexivity.
Qed.

Lemma config_write_then_read_witness :
  getConfigRaw (fun _ => EmptyString) railwayEnv
    (snd (postConfigRaw railwayEnv promptOracle "{a:1}" configuredWorld))
  = {| rawPath := "/data/.openclaw/openclaw.json"; rawExists := true;
       rawContent := "{a:1}" |}.
Proof.
  apply (config_write_then_read (fun _ => EmptyString) railwayEnv
           promptOracle "{a:1}" configuredWorld).
  vm_compute. discriminate.
Defined.

(** *** A write is applied at once *)

Lemma writeRaw_rest env iso content w :
  let w' := writeRaw env iso content w in
  gatewayProc w' = gatewayProc w
  /\ gatewayStarting w' = gatewayStarting w
  /\ gatewaySpawns w' = gatewaySpawns w
  /\ signals w' = signals w.
Proof.
  cbv zeta. unfold writeRaw, writeFileSync, copyFileSync.
  destruct (existsSync _ w); [|repeat split].
  destruct (files w !! _); repeat split.
Qed.

(** a start attempt from rest spawns one child, whatever the probe says *)
Lemma ensure_spawns_one env o w :
  isConfigured env w = true -> gatewayProc w = None ->
  gatewayStarting w = NoAttempt ->
  gatewaySpawns (snd (ensureGatewayRunning env o w))
  = clawArgs env (gatewayArgs env) :: gatewaySpawns w
  /\ signals (snd (ensureGatewayRunning env o w)) = signals w.
Proof.
  intros Hc Hp Hs.
  destruct (waitForGatewayReady 20000 (probe o)) eqn:Hr.
  - rewrite (ensure_when_probe_answers env o w Hc Hp Hs Hr). now split.
  - rewrite (ensure_when_probe_times_out env o w Hc Hp Hs Hr).
    unfold afterTimeout, doctorOver.
    destruct (doctorRateLimited (now o) w);
      [|destruct (spawnThrows o (doctorArgs env))]; now split.
Qed.

(** An accepted write of the configuration restarts the gateway with it:
    the child held, if any, is sent SIGTERM, and one new child is spawned,
    also when the server was not configured before the write. *)
Theorem config_write_restarts_gateway
    (env : Env) (o : Oracle) (content : string) (w : World) :
  (lengthN content <= 500000)%N ->
  gatewayStarting w = NoAttempt ->
  let w' := snd (postConfigRaw env o content w) in
  isConfigured env w' = true
  /\ gatewaySpawns w' = clawArgs env (gatewayArgs env) :: gatewaySpawns w
  /\ signals w' = match gatewayProc w with
                  | Some h => h :: signals w
                  | None => signals w
                  end.
Proof.
  intros Hlen Hs. cbv zeta.
  split.
  { rewrite (isConfigured_files env (writeRaw env (isoNow o) content w) _
               (postConfigRaw_files env o content w Hlen)).
    apply writeRaw_configured. }
  unfold postConfigRaw.
  destruct (N.ltb_spec 500000 (lengthN content)) as [Hgt|_]; [lia|].
  rewrite writeRaw_configured.
  set (w1 := writeRaw env (isoNow o) content w).
  destruct (writeRaw_rest env (isoNow o) content w) as (Hp1 & Hs1 & Hg1 & Hsig1).
  cbv zeta in Hp1, Hs1, Hg1, Hsig1. fold w1 in Hp1, Hs1, Hg1, Hsig1.
  assert (Hk : gatewayProc (killAndClear o w1) = None
               /\ gatewayStarting (killAndClear o w1) = NoAttempt
               /\ gatewaySpawns (killAndClear o w1) = gatewaySpawns w
               /\ signals (killAndClear o w1)
                  = match gatewayProc w with
                    | Some h => h :: signals w
                    | None => signals w
                    end).
  { unfold killAndClear. rewrite Hp1.
    destruct (gatewayProc w) as [h|] eqn:E;
      [destruct (signalledExit o) as [info|info|];
       [destruct (exitOf_records info (set_signals (h :: signals w1) w1))
          as (_ & _ & Hx1 & Hx2 & Hx3 & _)|..]|];
      cbn [gatewayProc gatewayStarting gatewaySpawns signals
           set_gatewayProc set_signals] in *;
      rewrite ?Hx1, ?Hx2, ?Hx3;
      cbn [gatewayProc gatewayStarting gatewaySpawns signals
           set_gatewayProc set_signals];
      rewrite ?Hp1, ?Hs1, ?Hg1, ?Hsig1, ?E, ?Hs; repeat split. }
  destruct Hk as (Hkp & Hks & Hkg & Hksig).
  assert (Hkc : isConfigured env (killAndClear o w1) = true).
  { rewrite (isConfigured_files env w1 _ (killAndClear_files o w1)).
    apply writeRaw_configured. }
  destruct (ensure_spawns_one env o (killAndClear o w1) Hkc Hkp Hks)
    as [Hspawn Hsig].
  rewrite Hkg in Hspawn. rewrite Hksig in Hsig.
  assert (Hc1 : isConfigured env w1 = true) by apply writeRaw_configured.
  unfold restartGateway. rewrite Hc1.
  destruct (ensureGatewayRunning env o (killAndClear o w1)) as [[r|err] w2];
    cbn [snd] in *;
    destruct (lateExit_rest o (holdsChild w1) w2) as [Hl1 Hl2];
    rewrite Hl1, Hl2; split; assumption.
Qed.

Lemma config_write_restarts_gateway_witness :
  gatewaySpawns (snd (postConfigRaw railwayEnv promptOracle "{a:1}"
                        runningWorld))
  = clawArgs railwayEnv (gatewayArgs railwayEnv) :: gatewaySpawns runningWorld
  /\ signals (snd (postConfigRaw railwayEnv promptOracle "{a:1}"
                     runningWorld))
     = [0].
Proof.
  destruct (config_write_restarts_gateway railwayEnv promptOracle "{a:1}"
              runningWorld ltac:(vm_compute; discriminate) eq_refl)
    as (_ & H1 & H2).
  split; [exact H1|exact H2].
Defined.

(** *** Reset *)

Lemma candidates_single env :
  exists p, resolveConfigCandidates env = [p].
Proof.
  unfold resolveConfigCandidates.
  destruct (OPENCLAW_CONFIG_PATH env) as [explicit|]; [|eauto].
  destruct (String.eqb explicit ""); eauto.
Qed.

(** After a reset the server is not configured: the candidate file is
    gone and no other file is touched. A gateway child that runs is not
    stopped, yet every request outside [/setup] is now redirected to
    [/setup] instead of being proxied to it. *)
Theorem reset_sends_requests_to_setup
    (env : Env) (o : Oracle) (w : World) (reqPath : string) :
  startsWith reqPath "/setup" = false ->
  let w1 := snd (postReset env w) in
  isConfigured env w1 = false
  /\ gatewayProc w1 = gatewayProc w
  /\ (forall q, ~ In q (resolveConfigCandidates env) ->
                files w1 !! q = files w !! q)
  /\ catchAll env o reqPath w1
     = (Sent {| status := 302; body := Redirect "/setup" |}, w1).
Proof.
  intros Hpath. cbv zeta. unfold postReset. cbn [snd].
  destruct (candidates_single env) as [p Hp].
  assert (Hunconf : isConfigured env
                      (foldl (fun w p => rmSync p w) w
                             (resolveConfigCandidates env)) = false).
  { unfold isConfigured. rewrite Hp. cbn [foldl existsb].
    unfold existsSync, rmSync. cbn [files set_files].
    now rewrite lookup_delete_eq. }
  split; [exact Hunconf|]. split; [|split].
  - rewrite Hp. reflexivity.
  - intros q Hq. rewrite Hp in *. cbn [foldl]. unfold rmSync.
    cbn [files set_files]. apply lookup_delete_ne.
    intros ->. apply Hq. now left.
  - unfold catchAll. rewrite Hunconf, Hpath. reflexivity.
Qed.

Lemma reset_sends_requests_to_setup_witness :
  gatewayProc (snd (postReset railwayEnv runningWorld)) = Some 0
  /\ catchAll railwayEnv promptOracle "/chat"
       (snd (postReset railwayEnv runningWorld))
     = (Sent {| status := 302; body := Redirect "/setup" |},
        snd (postReset railwayEnv runningWorld)).
Proof.
  destruct (reset_sends_requests_to_setup railwayEnv promptOracle
              runningWorld "/chat" eq_refl) as (_ & H1 & _ & H2).
  split; [exact H1|exact H2].
Defined.

(** *** Requests while the gateway child is held *)

(** On a configured server that holds a gateway child, every request that
    reaches the catch-all and every upgrade handshake is handed to the
    proxy; nothing is probed, spawned or recorded on the way. *)
Theorem requests_proxied_while_child_held
    (env : Env) (o : Oracle) (w : World) (h : nat) (reqPath : string) :
  isConfigured env w = true ->
  gatewayProc w = Some h ->
  catchAll env o reqPath w = (ProxiedWeb (GATEWAY_TARGET env), w)
  /\ onUpgrade env o w = (ProxiedWs (GATEWAY_TARGET env), w).
Proof.
  intros Hc Hp. unfold catchAll, onUpgrade.
  rewrite Hc, (ensure_when_child_present env o w h Hc Hp).
  cbn [negb andb]. split; reflexivity.
Qed.

Lemma requests_proxied_while_child_held_witness :
  catchAll railwayEnv silentOracle "/setup/unknown" runningWorld
  = (ProxiedWeb "http://127.0.0.1:18789", runningWorld)
  /\ onUpgrade railwayEnv silentOracle runningWorld
     = (ProxiedWs "http://127.0.0.1:18789", runningWorld).
Proof.
  apply (requests_proxied_while_child_held railwayEnv silentOracle
           runningWorld 0 "/setup/unknown"); reflexivity.
Defined.

(** *** Start at boot *)

(** When the server starts listening it spawns the gateway exactly when a
    configuration file exists, whether or not the child then answers the
    probe; without one it spawns nothing. The files are left as they are. *)
Theorem boot_starts_gateway_iff_configured
    (env : Env) (o : Oracle) (w : World) :
  gatewayProc w = None ->
  gatewayStarting w = NoAttempt ->
  gatewaySpawns (onListening env o w)
  = (if isConfigured env w
     then clawArgs env (gatewayArgs env) :: gatewaySpawns w
     else gatewaySpawns w)
  /\ files (onListening env o w) = files w.
Proof.
  intros Hp Hs. unfold onListening.
  destruct (isConfigured env w) eqn:Hc; [|now split].
  split.
  - apply (ensure_spawns_one env o w Hc Hp Hs).
  - apply ensureGatewayRunning_files.
Qed.

Lemma boot_starts_gateway_iff_configured_witness :
  gatewaySpawns (onListening railwayEnv silentOracle configuredWorld)
  = [clawArgs railwayEnv (gatewayArgs railwayEnv)]
  /\ gatewaySpawns (onListening railwayEnv silentOracle freshWorld) = [].
Proof.
  split.
  - apply (boot_starts_gateway_iff_configured railwayEnv silentOracle
             configuredWorld eq_refl eq_refl).
  - apply (boot_starts_gateway_iff_configured railwayEnv silentOracle
             freshWorld eq_refl eq_refl).
Defined.

End AdminFacts.

